(** * audVis: the audio-to-visual rendering pipeline of [script.js]

    A shallow embedding of the [AudioVisualizer] class: the spectrum
    conditioner ([applyHighEndBoost] and the exponential moving average of
    [startVisualization]), the frame callback [animate], the drawing modes
    dispatched by [draw], the raindrop and star stores, and the teardown
    path ([stopVisualization], [stopScreenShare], [stopVisualizer]).

    Numbers.  JavaScript numbers are modelled by exact rationals [Q]: the
    arithmetic of the source is kept operation for operation, rounding of
    binary64 and of [Float32Array] stores is not modelled.  Where a
    statement depends on the sign of a value that exact arithmetic puts at
    zero (the raindrop fade), the binary64 computation is replayed with the
    primitive floats of the kernel.  [Uint8Array] cells are integers [Z].
    The width and the height of the canvas are [unsigned long] attributes
    of the element: the numbers [setupCanvas] computes for them pass
    through the conversion of the attribute ([canvasLength]).

    Host functions.  [Math.sqrt], [Math.sin], [Math.cos] and the number pi
    cannot be rationals; they are parameters of the development, as is the
    sequence of values returned by successive calls of [Math.random]. *)

From Stdlib Require Import QArith Qround Qminmax Qabs Qpower Lqa ZArith List Lia.
From Stdlib Require Import Floats String Ascii.
From stdpp Require Import gmap list strings.

Set Warnings "-inexact-float".

Local Open Scope Q_scope.

(** ** Typed arrays and number helpers *)

(** [arr[i]] for a numeric array.  Every loop of the source that is
    modelled below reads inside the bounds of the array, so the default is
    never delivered. *)
Definition at_ (arr : list Q) (i : nat) : Q := nth i arr 0.

(** [Uint8Array] cell read, converted to a number. *)
Definition byte_at (arr : list Z) (i : nat) : Q := inject_Z (nth i arr 0%Z).

(** [new Float32Array(n)]: [n] zeros. *)
Definition Float32Array (n : nat) : list Q := repeat 0 n.

Definition Math_floor (q : Q) : Z := Qfloor q.

Definition Math_min (a b : Q) : Q := Qmin a b.

Definition Math_max (a b : Q) : Q := Qmax a b.

(** Number of [q]: the integer [n] as a JavaScript number. *)
Definition num (n : nat) : Q := inject_Z (Z.of_nat n).

(** Comparisons of the source as booleans. *)
Definition Qltb (a b : Q) : bool := negb (Qle_bool b a).

Definition Qgtb (a b : Q) : bool := Qltb b a.

(** ** Spectrum conditioner *)

Module Conditioner.

(** [applyHighEndBoost(frequencyData)] (script.js 819-841).  The bins at or
    above [highEndStart = floor(length * 0.6)] are multiplied by
    [1 + boostAmount] and clamped to 255; the others are copied. *)
Definition highEndStart (length : nat) : Z := Math_floor (num length * 0.6).

Definition boostBin (length : nat) (i : nat) (raw : Z) : Q :=
  let value := inject_Z raw in
  if (highEndStart length <=? Z.of_nat i)%Z then
    let frequencyPosition :=
      inject_Z (Z.of_nat i - highEndStart length)
      / inject_Z (Z.of_nat length - highEndStart length) in
    let boostAmount := 0.5 + frequencyPosition * 0.8 in
    Math_min 255 (value * (1 + boostAmount))
  else value.

Definition applyHighEndBoost (frequencyData : list Z) : list Q :=
  imap (boostBin (length frequencyData)) frequencyData.

(** The smoothing factor of [animate] (script.js 603). *)
Definition alpha : Q := 0.15.

(** The loop of script.js 604-608: for every index of the buffer,
    [smoothed[i] = alpha * boosted[i] + (1 - alpha) * smoothed[i]]. *)
Definition smoothStep (boosted smoothed : list Q) : list Q :=
  imap (fun i previous => alpha * at_ boosted i + (1 - alpha) * previous)
       smoothed.

(** The buffer is replaced by zeros when its length differs from the
    length of [frequencyData] (script.js 595-602). *)
Definition resizeSmoothed (length : nat) (smoothed : list Q) : list Q :=
  if Nat.eqb (List.length smoothed) length then smoothed
  else Float32Array length.

(** Successive frames, oldest first, each giving its boosted spectrum. *)
Definition smoothFrames (frames : list (list Q)) (smoothed : list Q) : list Q :=
  fold_left (fun s boosted => smoothStep boosted s) frames smoothed.

(** The boosted spectrum of a frame has the length [len] and holds bin
    [i] at the value [c]. *)
Definition heldAt (i : nat) (c : Q) (len : nat) (boosted : list Q) : Prop :=
  length boosted = len /\ at_ boosted i == c.

(** Every value of the array lies between 0 and 255. *)
Definition inByteRange (values : list Q) : Prop :=
  Forall (fun q => 0 <= q /\ q <= 255) values.

End Conditioner.

Import Conditioner.

(** ** The canvas *)

(** What a frame puts on the canvas, one entry per drawing call of the
    source, in the order of the calls.  Colours are kept as the numbers the
    source puts into its [hsl]/[hsla] strings. *)
Inductive CanvasOp : Type :=
  (** [drawRoundedBarFlat(x, y, width, height, value)]: a bar filled with
      [hsl(value + 200, 70%, 50%)] (script.js 1025-1040). *)
| FillRoundedBar (x y width height value : Q)
  (** [arc] centred at [(cx, cy)] stroked with [hsla(hue, 70%, 60%, alpha)]. *)
| StrokeRing (cx cy radius hue alpha lineWidth : Q)
  (** A polyline stroked with [hsla(hue, saturation%, lightness%, alpha)]. *)
| StrokePath (vertices : list (Q * Q)) (hue saturation lightness alpha : Q)
  (** [arc] filled with [hsla(hue, saturation%, lightness%, alpha)]. *)
| FillDisc (x y radius hue saturation lightness alpha : Q)
  (** The same disc filled again under a shadow of the given blur. *)
| GlowDisc (x y radius hue saturation lightness blur : Q)
  (** A raindrop, filled with [hsla(hue, 70%, 50%, alpha)]. *)
| FillRaindrop (x y width height hue alpha : Q)
  (** Retro equalizer: the translucent backdrop, the five [fillRect] calls
      of one bar (all in the fixed green palette), and the decoration that
      does not depend on the spectrum (centre line, scan lines, corners). *)
| RetroBackdrop (width height : Q)
| RetroBar (x startY barWidth barLength endY : Q)
| RetroDecoration (width height : Q).

(** The [height] and [value] arguments of the bars painted, and the
    lengths of the retro bars, in painting order. *)
Definition barHeights (ops : list CanvasOp) : list Q :=
  flat_map (fun op => match op with
                      | FillRoundedBar _ _ _ height _ => [height]
                      | _ => []
                      end) ops.

Definition barValues (ops : list CanvasOp) : list Q :=
  flat_map (fun op => match op with
                      | FillRoundedBar _ _ _ _ value => [value]
                      | _ => []
                      end) ops.

Definition retroBarLengths (ops : list CanvasOp) : list Q :=
  flat_map (fun op => match op with
                      | RetroBar _ _ _ barLength _ => [barLength]
                      | _ => []
                      end) ops.

(** ** Particles and stars *)

Module Raindrop.
Record t : Type := mk {
  x : Q; y : Q; width : Q; height : Q; speed : Q; alpha : Q; value : Q
}.
End Raindrop.

Module Star.
Record t : Type := mk { x : Q; y : Q; size : Q }.
End Star.

(** The two kinds of value the source stores in [this.lastCanvasSize]:
    [setupCanvas] stores an object [{width, height}] (script.js 114-117),
    [drawStarlight] stores the string [`${width}x${height}`]
    (script.js 1311-1315). *)
Inductive CanvasSize : Type :=
| SizeUndefined
| SizeObject (width height : Q)
| SizeString (width height : Q).

(** [this.lastCanvasSize !== currentCanvasSize] where the right-hand side
    is the string built from [width] and [height]: strict inequality holds
    unless the stored value is a string with the same characters. *)
Definition differsFromSizeString (stored : CanvasSize) (width height : Q) : bool :=
  match stored with
  | SizeString w h => negb (Qeq_bool w width && Qeq_bool h height)
  | SizeObject _ _ => true
  | SizeUndefined => true
  end.

(** ** The visualizer object and the browser around it *)

(** The fields of [this] set by the constructor (script.js 2-41) and by
    the drawing modes, followed by the part of the browser the methods act
    upon: the media streams handed out by the capture calls with the state
    of their tracks ([true] is live, [false] is ended), the audio contexts
    ([true] is open, [false] is closed), the next handle that
    [requestAnimationFrame] returns (handles are non-zero), and the number
    of calls made to [Math.random].  [microphone] and [screenShare] hold the identifier of
    the stream their source node was created from.  The canvas element and
    its 2D context always exist; [canvas_ops] is what is painted on it. *)
Record AudioVisualizer : Type := {
  audioContext : option nat;
  analyser : bool;
  microphone : option nat;
  gainNode : bool;
  isPlaying : bool;
  animationId : option positive;
  screenShare : option nat;
  canvas_width : Q;
  canvas_height : Q;
  canvas_ops : list CanvasOp;
  dataArray : list Z;
  frequencyData : list Z;
  smoothedFrequencyData : list Q;
  boostedFrequencyData : option (list Q);
  sensitivity : Q;
  visualType : string;
  isFullscreen : bool;
  raindrops : list Raindrop.t;
  lastRaindropTime : Z;
  raindropInterval : Z;
  barRaindropTimers : gmap nat Z;
  targetFPS : Q;
  lastFrameTime : Q;
  lastCanvasSize : CanvasSize;
  starPositions : option (list Star.t);
  starSizes : list Q;
  previousCirclePositions : option (list (Q * Q));
  fullscreenMouseHandler : bool;
  fullscreenKeyHandler : bool;
  host_tracks : gmap nat (list bool);
  host_contexts : gmap nat bool;
  host_nextId : nat;
  host_nextHandle : positive;
  host_randomCalls : nat
}.

(** Field assignment [this.f = v].  The setter of a field is obtained from
    the eta-expansion of the record by abstracting the projection. *)
Abbreviation eta_visualizer :=
  (fun s : AudioVisualizer =>
     Build_AudioVisualizer
       (audioContext s) (analyser s) (microphone s) (gainNode s)
       (isPlaying s) (animationId s) (screenShare s)
       (canvas_width s) (canvas_height s) (canvas_ops s)
       (dataArray s) (frequencyData s) (smoothedFrequencyData s)
       (boostedFrequencyData s) (sensitivity s) (visualType s)
       (isFullscreen s) (raindrops s) (lastRaindropTime s)
       (raindropInterval s) (barRaindropTimers s) (targetFPS s)
       (lastFrameTime s) (lastCanvasSize s) (starPositions s) (starSizes s)
       (previousCirclePositions s) (fullscreenMouseHandler s)
       (fullscreenKeyHandler s) (host_tracks s) (host_contexts s)
       (host_nextId s) (host_nextHandle s) (host_randomCalls s)).

Ltac field_setter proj :=
  lazymatch type of proj with
  | AudioVisualizer -> ?T =>
      let f := constr:(fun (v : T) (s : AudioVisualizer) =>
        ltac:(let e := eval cbv beta in (eta_visualizer s) in
              lazymatch eval pattern (proj s) in e with
              | ?g _ => let r := eval cbv beta in (g v) in exact r
              end)) in
      exact f
  end.

Definition set_audioContext := ltac:(field_setter audioContext).
Definition set_analyser := ltac:(field_setter analyser).
Definition set_microphone := ltac:(field_setter microphone).
Definition set_gainNode := ltac:(field_setter gainNode).
Definition set_isPlaying := ltac:(field_setter isPlaying).
Definition set_animationId := ltac:(field_setter animationId).
Definition set_screenShare := ltac:(field_setter screenShare).
Definition set_canvas_width := ltac:(field_setter canvas_width).
Definition set_canvas_height := ltac:(field_setter canvas_height).
Definition set_canvas_ops := ltac:(field_setter canvas_ops).
Definition set_dataArray := ltac:(field_setter dataArray).
Definition set_frequencyData := ltac:(field_setter frequencyData).
Definition set_smoothedFrequencyData := ltac:(field_setter smoothedFrequencyData).
Definition set_boostedFrequencyData := ltac:(field_setter boostedFrequencyData).
Definition set_sensitivity := ltac:(field_setter sensitivity).
Definition set_visualType := ltac:(field_setter visualType).
Definition set_isFullscreen := ltac:(field_setter isFullscreen).
Definition set_raindrops := ltac:(field_setter raindrops).
Definition set_lastRaindropTime := ltac:(field_setter lastRaindropTime).
Definition set_barRaindropTimers := ltac:(field_setter barRaindropTimers).
Definition set_lastFrameTime := ltac:(field_setter lastFrameTime).
Definition set_lastCanvasSize := ltac:(field_setter lastCanvasSize).
Definition set_starPositions := ltac:(field_setter starPositions).
Definition set_starSizes := ltac:(field_setter starSizes).
Definition set_previousCirclePositions :=
  ltac:(field_setter previousCirclePositions).
Definition set_fullscreenMouseHandler :=
  ltac:(field_setter fullscreenMouseHandler).
Definition set_fullscreenKeyHandler := ltac:(field_setter fullscreenKeyHandler).
Definition set_host_tracks := ltac:(field_setter host_tracks).
Definition set_host_contexts := ltac:(field_setter host_contexts).
Definition set_host_nextId := ltac:(field_setter host_nextId).
Definition set_host_nextHandle := ltac:(field_setter host_nextHandle).
Definition set_host_randomCalls := ltac:(field_setter host_randomCalls).

(** [ctx.clearRect(0, 0, width, height)] and the drawing calls. *)
Definition clearRect (s : AudioVisualizer) : AudioVisualizer :=
  set_canvas_ops [] s.

Definition paint (ops : list CanvasOp) (s : AudioVisualizer) : AudioVisualizer :=
  set_canvas_ops (canvas_ops s ++ ops) s.

(** ** Raindrops (script.js 843-909) *)

(** [createRaindrop(x, y, width, height, value)]. *)
Definition createRaindrop (x y width height value : Q)
    (s : AudioVisualizer) : AudioVisualizer :=
  let raindrop :=
    {| Raindrop.x := x + width / 2;
       Raindrop.y := y + height;
       Raindrop.width := Math_max 1 (width * 0.3);
       Raindrop.height := Math_max 2 (height * 0.1);
       Raindrop.speed := 1.5 + (value / 255) * 2.5;
       Raindrop.alpha := 0.8;
       Raindrop.value := value |} in
  set_raindrops (raindrops s ++ [raindrop]) s.

(** The two assignments of the loop body:
    [raindrop.y += raindrop.speed; raindrop.alpha -= 0.005]. *)
Definition fall (raindrop : Raindrop.t) : Raindrop.t :=
  {| Raindrop.x := Raindrop.x raindrop;
     Raindrop.y := Raindrop.y raindrop + Raindrop.speed raindrop;
     Raindrop.width := Raindrop.width raindrop;
     Raindrop.height := Raindrop.height raindrop;
     Raindrop.speed := Raindrop.speed raindrop;
     Raindrop.alpha := Raindrop.alpha raindrop - 0.005;
     Raindrop.value := Raindrop.value raindrop |}.

(** [raindrop.y > this.canvas.height || raindrop.alpha <= 0]. *)
Definition offCanvasOrTransparent (canvasHeight : Q) (raindrop : Raindrop.t) : bool :=
  Qgtb (Raindrop.y raindrop) canvasHeight || Qle_bool (Raindrop.alpha raindrop) 0.

(** The loop [for (i = length - 1; i >= 0; i--)]: [updateFrom h i drops]
    runs the iterations for the indices [i - 1] down to 0; an iteration
    either writes the moved raindrop back or splices it out. *)
Fixpoint updateFrom (canvasHeight : Q) (i : nat) (drops : list Raindrop.t)
    : list Raindrop.t :=
  match i with
  | O => drops
  | S j =>
      match drops !! j with
      | Some raindrop =>
          let raindrop := fall raindrop in
          updateFrom canvasHeight j
            (if offCanvasOrTransparent canvasHeight raindrop
             then delete j drops
             else <[j := raindrop]> drops)
      | None => updateFrom canvasHeight j drops
      end
  end.

Definition updateRaindropList (canvasHeight : Q) (drops : list Raindrop.t)
    : list Raindrop.t :=
  updateFrom canvasHeight (length drops) drops.

Definition updateRaindrops (s : AudioVisualizer) : AudioVisualizer :=
  set_raindrops (updateRaindropList (canvas_height s) (raindrops s)) s.

Definition drawRaindrops (s : AudioVisualizer) : AudioVisualizer :=
  paint (map (fun raindrop =>
                let hue := Raindrop.value raindrop + 200 in
                FillRaindrop (Raindrop.x raindrop) (Raindrop.y raindrop)
                  (Raindrop.width raindrop) (Raindrop.height raindrop)
                  hue (Raindrop.alpha raindrop))
              (raindrops s))
        s.

(** The canvas operation [drawRaindrops] issues for one raindrop, and the
    test whether an operation paints a raindrop. *)
Definition paintedRaindrop (raindrop : Raindrop.t) : CanvasOp :=
  FillRaindrop (Raindrop.x raindrop) (Raindrop.y raindrop)
    (Raindrop.width raindrop) (Raindrop.height raindrop)
    (Raindrop.value raindrop + 200) (Raindrop.alpha raindrop).

Definition isRaindropOp (op : CanvasOp) : bool :=
  match op with
  | FillRaindrop _ _ _ _ _ _ => true
  | _ => false
  end.

(** One update cycle over the whole store written as a map followed by
    a filter, and [n] runs of the loop of the source. *)
Definition cycle (canvasHeight : Q) (drops : list Raindrop.t) : list Raindrop.t :=
  List.filter (fun raindrop => negb (offCanvasOrTransparent canvasHeight raindrop))
              (map fall drops).

Definition cycles (canvasHeight : Q) (n : nat) (drops : list Raindrop.t)
    : list Raindrop.t :=
  Nat.iter n (updateRaindropList canvasHeight) drops.

(** The fade of the opacity in binary64: [n] subtractions of 0.005. *)
Fixpoint fade64 (n : nat) (alpha : float) : float :=
  match n with
  | O => alpha
  | S k => PrimFloat.sub (fade64 k alpha) 0.005%float
  end.

(** ** Drawing modes that need no host function *)

(** The selection shared by the bar modes, circles and starlight
    (script.js 1007-1012):
    [this.boostedFrequencyData || (smoothed && smoothed.length ===
    frequencyData.length ? smoothed : frequencyData)].  A typed array is
    truthy whatever its length, so the boosted array wins whenever the
    field has been assigned. *)
Definition selectData (s : AudioVisualizer) : list Q :=
  match boostedFrequencyData s with
  | Some boosted => boosted
  | None =>
      if Nat.eqb (length (smoothedFrequencyData s)) (length (frequencyData s))
      then smoothedFrequencyData s
      else map inject_Z (frequencyData s)
  end.

(** The guard [if (!this.frequencyData || this.frequencyData.length === 0)
    return;] that opens the modes. *)
Definition noSpectrum (s : AudioVisualizer) : bool :=
  Nat.eqb (length (frequencyData s)) 0.

(** [drawWaveform] (script.js 911-974).  [ctx.stroke()] uses the stroke
    style assigned last, that of the final sample. *)
Definition waveformStyle (s : AudioVisualizer) (mirror : bool) (sample : Z)
    : Q * Q * Q * Q :=
  let v := inject_Z sample / 128 in
  let amplitudeRatio := Qabs v in
  let mappedFreqValue := inject_Z (Math_floor (amplitudeRatio * 255)) in
  let hue := mappedFreqValue * sensitivity s + 200 in
  if mirror
  then (hue, 70 + Qabs v * 15, 40 + Qabs v * 25, 0.4 + Qabs v * 0.3)
  else (hue, 70 + Qabs v * 20, 50 + Qabs v * 30, 1).

Definition waveformPath (s : AudioVisualizer) (mirror : bool) : CanvasOp :=
  let sliceWidth := canvas_width s / num (length (dataArray s)) in
  let vertex i sample :=
    let v := inject_Z sample / 128 in
    let y := if mirror
             then canvas_height s - (v * canvas_height s) / 2
             else (v * canvas_height s) / 2 in
    (num i * sliceWidth, y) in
  let vertices :=
    imap vertex (dataArray s) ++ [(canvas_width s, canvas_height s / 2)] in
  match waveformStyle s mirror (List.last (dataArray s) 0%Z) with
  | (hue, saturation, lightness, alpha) =>
      StrokePath vertices hue saturation lightness alpha
  end.

Definition drawWaveform (s : AudioVisualizer) : AudioVisualizer :=
  if Nat.eqb (length (dataArray s)) 0 then s
  else if noSpectrum s then s
  else paint [waveformPath s false; waveformPath s true] s.

(** [drawCircular] (script.js 976-1000): one ring for every fourth bin,
    read from [this.frequencyData] itself. *)
Definition circularRing (s : AudioVisualizer) (i : nat) : CanvasOp :=
  let centerX := canvas_width s / 2 in
  let centerY := canvas_height s / 2 in
  let radius := Math_min centerX centerY * 0.6 in
  let value := byte_at (frequencyData s) i * sensitivity s in
  let currentRadius := radius + (value / 255) * 100 in
  let alpha := (value / 255) * 0.8 + 0.2 in
  StrokeRing centerX centerY currentRadius (value + 200) alpha
             ((value / 255) * 5 + 1).

(** The indices [0, 4, 8, ...] below [length]. *)
Definition everyFourth (length : nat) : list nat :=
  map (fun k => 4 * k)%nat (seq 0 ((length + 3) / 4)).

Definition drawCircular (s : AudioVisualizer) : AudioVisualizer :=
  if noSpectrum s then s
  else paint (map (circularRing s) (everyFourth (length (frequencyData s)))) s.

(** The horizontal layout shared by the three bar modes: the bar of bin
    [i] on the right of the centre and its mirror image on the left. *)
Definition xRightOf (centerX perSideSpacing barWidth : Q) (i : nat) : Q :=
  centerX + num i * perSideSpacing + (perSideSpacing - barWidth) / 2.

Definition xLeftOf (centerX perSideSpacing barWidth : Q) (i : nat) : Q :=
  centerX - (num i + 1) * perSideSpacing + (perSideSpacing - barWidth) / 2.

(** [drawFrequencyBars2x] (script.js 1003-1057). *)
Definition bars2xOf (s : AudioVisualizer) (data : list Q) (i : nat) (bin : Q)
    : list CanvasOp :=
  let totalBars := num (length data) in
  let centerX := canvas_width s / 2 in
  let perSideSpacing := canvas_width s / 2 / totalBars in
  let barWidth := perSideSpacing + 5 in
  let barHeight := canvas_height s * 0.8 in
  let value := bin * sensitivity s in
  let height := (value / 255) * barHeight in
  let y := canvas_height s - height in
  [ FillRoundedBar (xRightOf centerX perSideSpacing barWidth i)
                   y barWidth height value;
    FillRoundedBar (xLeftOf centerX perSideSpacing barWidth i)
                   y barWidth height value ].

Definition drawFrequencyBars2x (s : AudioVisualizer) : AudioVisualizer :=
  if noSpectrum s then s
  else
    let data := selectData s in
    paint (concat (imap (bars2xOf s data) data)) s.

(** [drawFrequencyBars4x] (script.js 1138-1210). *)
Definition bars4xOf (s : AudioVisualizer) (data : list Q) (i : nat) (bin : Q)
    : list CanvasOp :=
  let totalBars := num (length data) in
  let centerX := canvas_width s / 2 in
  let centerY := canvas_height s / 2 in
  let perQuadrantSpacing := canvas_width s / 2 / totalBars in
  let barWidth := perQuadrantSpacing + 4 in
  let maxBarHeight := canvas_height s / 3 in
  let value := bin * sensitivity s in
  let height := (value / 255) * maxBarHeight in
  let xRight := xRightOf centerX perQuadrantSpacing barWidth i in
  let xLeft := xLeftOf centerX perQuadrantSpacing barWidth i in
  [ FillRoundedBar xRight (centerY - height) barWidth height value;
    FillRoundedBar xLeft (centerY - height) barWidth height value;
    FillRoundedBar xRight (centerY - 0.5) barWidth height value;
    FillRoundedBar xLeft (centerY - 0.5) barWidth height value ].

Definition drawFrequencyBars4x (s : AudioVisualizer) : AudioVisualizer :=
  if noSpectrum s then s
  else
    let data := selectData s in
    paint (concat (imap (bars4xOf s data) data)) s.

(** [drawFrequencyBars3x] (script.js 1060-1135).  [now] is the value of
    [Date.now()] during the frame.  The body of the loop paints the two
    bars of bin [i] and, when the bar is taller than 15 pixels and the
    timer of the position has run out, creates the two raindrops. *)
Definition bars3xBody (now : Z) (data : list Q) (i : nat) (bin : Q)
    (s : AudioVisualizer) : AudioVisualizer :=
  let totalBars := num (length data) in
  let centerX := canvas_width s / 2 in
  let perSideSpacing := canvas_width s / 2 / totalBars in
  let barWidth := perSideSpacing + 5 in
  let barHeight := canvas_height s * 0.35 in
  let value := bin * sensitivity s in
  let height := (value / 255) * barHeight * 0.6 in
  let y := 0 in
  let xRight := xRightOf centerX perSideSpacing barWidth i in
  let xLeft := xLeftOf centerX perSideSpacing barWidth i in
  let s := paint [ FillRoundedBar xRight y barWidth height value;
                   FillRoundedBar xLeft y barWidth height value ] s in
  if Qgtb height 15 then
    let s :=
      match barRaindropTimers s !! i with
      | Some t => if Z.eqb t 0 then set_barRaindropTimers (<[i := 0%Z]> (barRaindropTimers s)) s else s
      | None => set_barRaindropTimers (<[i := 0%Z]> (barRaindropTimers s)) s
      end in
    let timer := default 0%Z (barRaindropTimers s !! i) in
    if (raindropInterval s <? now - timer)%Z then
      let s := createRaindrop xRight y barWidth height value s in
      let s := createRaindrop xLeft y barWidth height value s in
      set_barRaindropTimers (<[i := now]> (barRaindropTimers s)) s
    else s
  else s.

(** The condition under which the body creates raindrops: the bar is
    taller than 15 pixels and more than [raindropInterval] milliseconds
    have passed since the timer of the position (0 when unset). *)
Definition bar3xHeight (bin : Q) (s : AudioVisualizer) : Q :=
  (bin * sensitivity s / 255) * (canvas_height s * 0.35) * 0.6.

Definition spawnsRaindrops (now : Z) (i : nat) (bin : Q) (s : AudioVisualizer)
    : bool :=
  Qgtb (bar3xHeight bin s) 15
  && (raindropInterval s <? now - default 0%Z (barRaindropTimers s !! i))%Z.

Fixpoint bars3xLoop (now : Z) (data : list Q) (i : nat) (rest : list Q)
    (s : AudioVisualizer) : AudioVisualizer :=
  match rest with
  | [] => s
  | bin :: rest' => bars3xLoop now data (S i) rest' (bars3xBody now data i bin s)
  end.

Definition drawFrequencyBars3x (now : Z) (s : AudioVisualizer) : AudioVisualizer :=
  if noSpectrum s then s
  else
    let data := selectData s in
    let s := bars3xLoop now data 0 data s in
    let s := updateRaindrops s in
    drawRaindrops s.

(** ** Stored preferences (script.js 1546-1632) *)

(** The three controls of the page the preference methods touch, each
    [None] when [getElementById] finds no element and otherwise the string
    the element holds, and the content of [localStorage]. *)
Record Page : Type := {
  visualTypeSelect : option string;
  sensitivitySlider : option string;
  sensitivityLabel : option string;
  localStorage : gmap string string
}.

(** JavaScript truthiness of the result of [localStorage.getItem]: a
    missing key gives [null], and the empty string is falsy too. *)
Definition truthyItem (item : option string) : option string :=
  match item with
  | Some EmptyString => None
  | other => other
  end.

(** [saveUserPreferences()]: reading [.value] of a missing element throws
    inside the [try], before anything is stored.  [lastUsed] is the ISO
    date of the call. *)
Definition saveUserPreferences (lastUsed : string) (page : Page) : Page :=
  match visualTypeSelect page, sensitivitySlider page with
  | Some visualType, Some sensitivity =>
      {| visualTypeSelect := visualTypeSelect page;
         sensitivitySlider := sensitivitySlider page;
         sensitivityLabel := sensitivityLabel page;
         localStorage :=
           <["audVis_lastUsed"%string := lastUsed]>
             (<["audVis_sensitivity"%string := sensitivity]>
                (<["audVis_visualType"%string := visualType]>
                   (localStorage page))) |}
  | _, _ => page
  end.

(** [loadUserPreferences()].  [parseFloat] and [toFixed1] stand for
    [parseFloat(text)] and [number.toFixed(1)].  The select element takes
    the saved string as its value. *)
Definition loadUserPreferences (parseFloat : string -> Q) (toFixed1 : Q -> string)
    (page : Page) (this : AudioVisualizer) : Page * AudioVisualizer :=
  let savedVisualType :=
    truthyItem (localStorage page !! "audVis_visualType"%string) in
  let savedSensitivity :=
    truthyItem (localStorage page !! "audVis_sensitivity"%string) in
  let '(page, this) :=
    match savedVisualType, visualTypeSelect page with
    | Some saved, Some _ =>
        ({| visualTypeSelect := Some saved;
            sensitivitySlider := sensitivitySlider page;
            sensitivityLabel := sensitivityLabel page;
            localStorage := localStorage page |},
         set_visualType saved this)
    | _, _ => (page, this)
    end in
  match savedSensitivity with
  | Some saved =>
      let '(page, this) :=
        match sensitivitySlider page with
        | Some _ =>
            ({| visualTypeSelect := visualTypeSelect page;
                sensitivitySlider := Some saved;
                sensitivityLabel := sensitivityLabel page;
                localStorage := localStorage page |},
             set_sensitivity (parseFloat saved) this)
        | None => (page, this)
        end in
      match sensitivityLabel page with
      | Some _ =>
          ({| visualTypeSelect := visualTypeSelect page;
              sensitivitySlider := sensitivitySlider page;
              sensitivityLabel := Some (toFixed1 (parseFloat saved));
              localStorage := localStorage page |},
           this)
      | None => (page, this)
      end
  | None => (page, this)
  end.

(** The storage part of [clearUserPreferences()]: the two keys are
    removed ([audVis_lastUsed] stays). *)
Definition removeStoredPreferences (page : Page) : Page :=
  {| visualTypeSelect := visualTypeSelect page;
     sensitivitySlider := sensitivitySlider page;
     sensitivityLabel := sensitivityLabel page;
     localStorage :=
       delete "audVis_sensitivity"%string
         (delete "audVis_visualType"%string (localStorage page)) |}.

(** ** Classification of the captured track (script.js 2095-2183) *)

(** Labels and ids are strings of ASCII characters, on which
    [text.toLowerCase()] lowers the letters A to Z and leaves every other
    character as it is (the Unicode mapping of characters outside ASCII is
    not modelled), and [text.includes(word)]. *)
Definition lowerAscii (c : ascii) : ascii :=
  let n := nat_of_ascii c in
  if (65 <=? n)%nat && (n <=? 90)%nat then ascii_of_nat (n + 32) else c.

Fixpoint toLowerCase (text : string) : string :=
  match text with
  | EmptyString => EmptyString
  | String c rest => String (lowerAscii c) (toLowerCase rest)
  end.

Fixpoint includes (text word : string) : bool :=
  String.prefix word text
  || match text with
     | EmptyString => false
     | String _ rest => includes rest word
     end.

(** The first audio track of the stream: [label || ""] and [id || ""]. *)
Record AudioTrack : Type := { trackLabel : string; trackId : string }.

Definition detectAudioSource (audioTrack : AudioTrack) : string :=
  let label := toLowerCase (trackLabel audioTrack) in
  let id := toLowerCase (trackId audioTrack) in
  if includes label "speaker" || includes label "output"
     || includes label "headphone" || includes label "audioout"
     || includes id "speaker" || includes id "output"
     || includes id "headphone"
  then "audiooutput"
  else if includes label "system" || includes label "output"
          || includes label "speaker" || includes id "system"
          || includes id "output"
  then "system"
  else if includes label "audiocontext" || includes label "destination"
          || includes label "monitor" || includes id "audiocontext"
          || includes id "destination"
  then "audiocontext"
  else if includes label "audioworklet" || includes label "worklet"
          || includes label "processor" || includes id "audioworklet"
          || includes id "worklet"
  then "audioworklet"
  else if includes label "alternative" || includes label "samsung"
          || includes label "ios" || includes label "high-quality"
          || includes id "alternative" || includes id "samsung"
          || includes id "ios"
  then "alternative"
  else if includes label "display" || includes label "screen"
          || includes label "tab" || includes label "window"
          || includes id "display" || includes id "screen"
  then "display"
  else if includes label "enhanced" || includes label "high"
          || includes label "quality"
  then "enhanced"
  else "basic".

(** ** Views of the visualizer *)

(** Everything the drawing modes have no business with: the audio graph,
    the buffers, the configuration, the frame-rate gate, the size of the
    canvas and the browser resources. *)
Definition outsideDrawing (s : AudioVisualizer) :=
  (audioContext s, analyser s, microphone s, gainNode s, isPlaying s,
   animationId s, screenShare s, canvas_width s, canvas_height s,
   dataArray s, frequencyData s, smoothedFrequencyData s,
   boostedFrequencyData s, sensitivity s, visualType s, isFullscreen s,
   lastRaindropTime s, raindropInterval s, targetFPS s, lastFrameTime s,
   fullscreenMouseHandler s, fullscreenKeyHandler s,
   host_tracks s, host_contexts s, host_nextId s, host_nextHandle s).

(** The three stores owned by single modes. *)
Definition starStore (s : AudioVisualizer) :=
  (starPositions s, starSizes s, lastCanvasSize s, host_randomCalls s).

Definition rainStore (s : AudioVisualizer) :=
  (raindrops s, barRaindropTimers s).

Definition trailStore (s : AudioVisualizer) := previousCirclePositions s.

(** What holds of the visualizer throughout a session: the four buffers
    keep the 128 cells of the constructor, the constants of the
    constructor keep their values, and no raindrop is more opaque than a
    new one. *)
Definition sessionInvariant (s : AudioVisualizer) : Prop :=
  length (frequencyData s) = 128%nat
  /\ length (dataArray s) = 128%nat
  /\ length (smoothedFrequencyData s) = 128%nat
  /\ (forall boosted, boostedFrequencyData s = Some boosted ->
       length boosted = 128%nat)
  /\ targetFPS s = 45 /\ raindropInterval s = 200%Z
  /\ Forall (fun r => Raindrop.alpha r <= 0.8) (raindrops s).

(** The part of the invariant that only the frame and the start methods
    can touch, as a view of the state. *)
Definition sessionView (s : AudioVisualizer) :=
  (frequencyData s, dataArray s, smoothedFrequencyData s,
   boostedFrequencyData s, targetFPS s, raindropInterval s, raindrops s).

(** ** A host for closed examples *)

(** The facts below hold for every host.  To evaluate them on closed
    inputs a host is fixed here: a square root rounded down to an integer,
    the values of sine and cosine at zero, 22/7 for pi, and an arbitrary
    sequence of numbers in [0, 1) for [Math.random]. *)
Definition exampleSqrt (q : Q) : Q := inject_Z (Z.sqrt (Qfloor q)).

Definition exampleSin (q : Q) : Q := 0.

Definition exampleCos (q : Q) : Q := 1.

Definition examplePI : Q := 22 # 7.

Definition exampleRandom (k : nat) : Q :=
  inject_Z ((Z.of_nat k * 37 + 11) mod 101) / 101.

(** ** Drawing modes that call host functions *)

Section Host.

(** [Math.sqrt], [Math.sin], [Math.cos], [Math.PI], and the value returned
    by the [k]-th call of [Math.random] since the page was loaded. *)
Variable Math_sqrt : Q -> Q.
Variable Math_sin : Q -> Q.
Variable Math_cos : Q -> Q.
Variable Math_PI : Q.
Variable Math_random : nat -> Q.

(** [array[i] = v] on an array filled from index 0 upwards: inside the
    array the cell is overwritten, at its end the array grows by one. *)
Definition arraySet {A} (i : nat) (v : A) (array : list A) : list A :=
  if (i <? length array)%nat then <[i := v]> array else array ++ [v].

(** [drawCircles] (script.js 1213-1296). *)
Definition circleTrail (prevPos : Q * Q) (x y circleSize hue saturation lightness : Q)
    : list CanvasOp :=
  let trailLength :=
    Math_min 20 (Math_sqrt ((x - fst prevPos) ^ 2 + (y - snd prevPos) ^ 2)) in
  let trailSteps := Math_min 10 (inject_Z (Math_floor (trailLength / 2))) in
  map (fun step =>
         let ratio := num step / trailSteps in
         let trailX := fst prevPos + (x - fst prevPos) * ratio in
         let trailY := snd prevPos + (y - snd prevPos) * ratio in
         let trailAlpha := 0.3 * (1 - ratio) in
         let trailSize := circleSize * (1 - ratio * 0.5) in
         FillDisc trailX trailY trailSize hue saturation lightness trailAlpha)
      (seq 1 (Z.to_nat (Math_floor trailSteps))).

Definition circlesBody (data : list Q) (circleCount : nat) (i : nat)
    (s : AudioVisualizer) : AudioVisualizer :=
  let centerX := canvas_width s / 2 in
  let centerY := canvas_height s / 2 in
  let maxRadius := Math_min centerX centerY * 0.8 in
  let angleStep := (2 * Math_PI) / num circleCount in
  let value := at_ data i * sensitivity s in
  let angle := num i * angleStep in
  let distance := (value / 255) * maxRadius in
  let x := centerX + Math_cos angle * distance in
  let y := centerY + Math_sin angle * distance in
  let positions := default [] (previousCirclePositions s) in
  let prevPos := positions !! i in
  let s := set_previousCirclePositions (Some (arraySet i (x, y) positions)) s in
  let circleSize := (value / 255) * 8 + 2 in
  let hue := value + 200 in
  let saturation := 70 + (value / 255) * 20 in
  let lightness := 50 + (value / 255) * 30 in
  let trail :=
    match prevPos with
    | Some p =>
        if negb (Qeq_bool (fst p) x) || negb (Qeq_bool (snd p) y)
        then circleTrail p x y circleSize hue saturation lightness
        else []
    | None => []
    end in
  let glow :=
    if Qgtb value 128
    then [GlowDisc x y circleSize hue saturation lightness (circleSize * 2)]
    else [] in
  paint (trail ++ [FillDisc x y circleSize hue saturation lightness 1] ++ glow) s.

Definition drawCircles (s : AudioVisualizer) : AudioVisualizer :=
  if noSpectrum s then s
  else
    let data := selectData s in
    let circleCount := Nat.min (length data) 64 in
    let s :=
      match previousCirclePositions s with
      | Some _ => s
      | None =>
          set_previousCirclePositions
            (Some (repeat (canvas_width s / 2, canvas_height s / 2) circleCount)) s
      end in
    fold_left (fun s i => circlesBody data circleCount i s) (seq 0 circleCount) s.

(** The position of circle [i] (script.js 1244-1249), and what the pass
    of the loop for circle [i] paints when the store of previous positions
    holds [prevPos] at [i]: the trail, the disc and the glow. *)
Definition circlePosition (data : list Q) (circleCount i : nat)
    (s : AudioVisualizer) : Q * Q :=
  let centerX := canvas_width s / 2 in
  let centerY := canvas_height s / 2 in
  let maxRadius := Math_min centerX centerY * 0.8 in
  let angleStep := (2 * Math_PI) / num circleCount in
  let value := at_ data i * sensitivity s in
  let angle := num i * angleStep in
  let distance := (value / 255) * maxRadius in
  (centerX + Math_cos angle * distance, centerY + Math_sin angle * distance).

Definition paintsCircle (data : list Q) (circleCount i : nat)
    (s : AudioVisualizer) (prevPos : option (Q * Q)) (ops : list CanvasOp) : Prop :=
  let position := circlePosition data circleCount i s in
  let value := at_ data i * sensitivity s in
  exists trail glow saturation lightness,
    ops = trail ++ [FillDisc (fst position) (snd position) (value / 255 * 8 + 2)
                             (value + 200) saturation lightness 1] ++ glow
    /\ (length trail <= 10)%nat
    /\ (value <= 128 -> glow = [])
    /\ (128 < value -> length glow = 1%nat)
    /\ (prevPos = None -> trail = [])
    /\ (forall p, prevPos = Some p ->
         fst p == fst position -> snd p == snd position -> trail = []).

(** [drawStarlight] (script.js 1299-1389). *)

(** The helper [isOverlapping(x, y, size)] over the stars generated so
    far: some existing star is closer than 1.5 times the sum of the two
    sizes. *)
Definition isOverlapping (existing : list Star.t) (x y size : Q) : bool :=
  existsb (fun existingStar =>
             let distance :=
               Math_sqrt ((x - Star.x existingStar) ^ 2
                          + (y - Star.y existingStar) ^ 2) in
             let minDistance := (size + Star.size existingStar) * 1.5 in
             Qltb distance minDistance)
          existing.

(** The [do ... while (isOverlapping(x, y, size) && attempts < 100)] loop.
    [retries] is the number of further rounds the bound on [attempts]
    allows after the current one; [calls] counts the calls of
    [Math.random] made before.  The result is the last triple drawn. *)
Fixpoint placeStar (retries : nat) (existing : list Star.t) (width height : Q)
    (calls : nat) : Star.t * nat :=
  let x := Math_random calls * (width - 100) + 50 in
  let y := Math_random (calls + 1) * (height - 100) + 50 in
  let size := Math_random (calls + 2) * 3 + 1 in
  let star := {| Star.x := x; Star.y := y; Star.size := size |} in
  match retries with
  | O => (star, (calls + 3)%nat)
  | S retries' =>
      if isOverlapping existing x y size
      then placeStar retries' existing width height (calls + 3)
      else (star, (calls + 3)%nat)
  end.

(** The triple drawn by one round of the attempt loop that starts after
    [calls] calls of [Math.random] (script.js 1336-1338), and the test the
    loop makes on it. *)
Definition drawnStar (width height : Q) (calls : nat) : Star.t :=
  {| Star.x := Math_random calls * (width - 100) + 50;
     Star.y := Math_random (calls + 1) * (height - 100) + 50;
     Star.size := Math_random (calls + 2) * 3 + 1 |}.

Definition overlapsEarlier (existing : list Star.t) (star : Star.t) : bool :=
  isOverlapping existing (Star.x star) (Star.y star) (Star.size star).

(** The loop [for (i = 0; i < starCount; i++)], pushing one star per
    iteration. *)
Fixpoint generateStars (starCount : nat) (width height : Q)
    (existing : list Star.t) (calls : nat) : list Star.t * nat :=
  match starCount with
  | O => (existing, calls)
  | S n =>
      let '(star, calls') := placeStar 99 existing width height calls in
      generateStars n width height (existing ++ [star]) calls'
  end.

(** Star [j] left the attempt loop because its last triple overlapped no
    star generated before it (and not because the attempts ran out). *)
Definition placedWithoutOverlap (stars : list Star.t) (j : nat) : Prop :=
  match stars !! j with
  | Some star =>
      isOverlapping (take j stars) (Star.x star) (Star.y star) (Star.size star)
      = false
  | None => False
  end.

Definition regenerateStars (data : list Q) (s : AudioVisualizer) : AudioVisualizer :=
  let starCount := Nat.min (length data) 128 in
  let '(stars, calls) :=
    generateStars starCount (canvas_width s) (canvas_height s) []
                  (host_randomCalls s) in
  let s := set_lastCanvasSize (SizeString (canvas_width s) (canvas_height s)) s in
  let s := set_starPositions (Some stars) s in
  let s := set_starSizes (map Star.size stars) s in
  set_host_randomCalls calls s.

Definition starOps (s : AudioVisualizer) (data : list Q) (i : nat) (star : Star.t)
    : list CanvasOp :=
  let baseSize := at_ (starSizes s) i in
  let value := at_ data (i mod length data) * sensitivity s in
  let brightness := value / 255 in
  let starSize := baseSize + brightness * 3 in
  let hue := value + 200 in
  let saturation := 85 + brightness * 15 in
  let lightness := 25 + brightness * 55 in
  let alpha := 0.4 + brightness * 0.6 in
  [FillDisc (Star.x star) (Star.y star) starSize hue saturation lightness alpha]
  ++ (if Qgtb brightness 0.5
      then [GlowDisc (Star.x star) (Star.y star) starSize hue saturation
                     lightness (starSize * 2)]
      else [])
  ++ (if Qgtb brightness 0.8
      then [FillDisc (Star.x star) (Star.y star) (starSize * 0.5) hue
                     saturation 95 (brightness * 0.7)]
      else []).

Definition starsNeedRegeneration (s : AudioVisualizer) : bool :=
  match starPositions s with
  | None => true
  | Some _ =>
      differsFromSizeString (lastCanvasSize s) (canvas_width s) (canvas_height s)
  end.

Definition drawStarlight (s : AudioVisualizer) : AudioVisualizer :=
  if noSpectrum s then s
  else
    let data := selectData s in
    let s := if starsNeedRegeneration s then regenerateStars data s else s in
    paint (concat (imap (starOps s data) (default [] (starPositions s)))) s.

(** [drawRetroBox] (script.js 1392-1532). *)
Definition retroData (s : AudioVisualizer) : list Q :=
  match boostedFrequencyData s with
  | Some boosted => boosted
  | None => smoothedFrequencyData s
  end.

Definition retroBar (now : Z) (s : AudioVisualizer) (data : list Q)
    (maxBars : nat) (i : nat) : CanvasOp :=
  let barHeight := canvas_height s * 0.8 in
  let barWidth := 8 in
  let spacing := 4 in
  let centerY := canvas_height s / 2 in
  let time := inject_Z now * 0.001 in
  let waveSpeed := 2 in
  let waveAmplitude := 20 in
  let x := num i * (barWidth + spacing) in
  let dataIndex := Math_floor ((num i / num maxBars) * num (length data)) in
  let value := at_ data (Z.to_nat dataIndex) in
  let waveOffset := Math_sin (time * waveSpeed + num i * 0.1) * waveAmplitude in
  let barLength := (value / 255) * barHeight * 0.6 + 10 in
  let startY := centerY - barLength / 2 + waveOffset in
  let endY := centerY + barLength / 2 + waveOffset in
  RetroBar x startY barWidth barLength endY.

Definition drawRetroBox (now : Z) (s : AudioVisualizer) : AudioVisualizer :=
  let width := canvas_width s in
  let height := canvas_height s in
  let s := paint [RetroBackdrop width height] s in
  let data := retroData s in
  if Nat.eqb (length data) 0 then s
  else
    let maxBars := Z.to_nat (Math_floor (width / (8 + 4))) in
    paint (map (retroBar now s data maxBars) (seq 0 maxBars)
           ++ [RetroDecoration width height]) s.

(** ** The frame callback *)

(** [draw()] (script.js 780-816): clear the canvas, then dispatch on
    [this.visualType]; an identifier outside the eight cases paints
    nothing. *)
Definition draw (now : Z) (s : AudioVisualizer) : AudioVisualizer :=
  let s := clearRect s in
  if String.eqb (visualType s) "waveform" then drawWaveform s
  else if String.eqb (visualType s) "circular" then drawCircular s
  else if String.eqb (visualType s) "frequency2x" then drawFrequencyBars2x s
  else if String.eqb (visualType s) "frequency3x" then drawFrequencyBars3x now s
  else if String.eqb (visualType s) "frequency4x" then drawFrequencyBars4x s
  else if String.eqb (visualType s) "circles" then drawCircles s
  else if String.eqb (visualType s) "starlight" then drawStarlight s
  else if String.eqb (visualType s) "retroBox" then drawRetroBox now s
  else s.

(** What the browser hands to one call of [animate]: the timestamp of the
    callback, the bytes the analyser delivers for the spectrum and for the
    waveform, and the value of [Date.now()] during the frame. *)
Record FrameInput : Type := {
  timestamp : Q;
  frequencyBytes : list Z;
  timeDomainBytes : list Z;
  now : Z
}.

(** [analyser.getByteFrequencyData(array)]: the array keeps its length and
    receives as many bytes as the analyser has for it. *)
Definition getByteData (array incoming : list Z) : list Z :=
  take (length array) incoming ++ drop (length incoming) array.

Definition requestAnimationFrame (s : AudioVisualizer) : AudioVisualizer :=
  let s := set_animationId (Some (host_nextHandle s)) s in
  set_host_nextHandle (Pos.succ (host_nextHandle s)) s.

(** The conditioning block of [animate] (script.js 587-609). *)
Definition conditionSpectrum (input : FrameInput) (s : AudioVisualizer)
    : AudioVisualizer :=
  if (0 <? length (frequencyData s))%nat then
    let s := set_frequencyData (getByteData (frequencyData s) (frequencyBytes input)) s in
    let s := set_dataArray (getByteData (dataArray s) (timeDomainBytes input)) s in
    let s := set_boostedFrequencyData (Some (applyHighEndBoost (frequencyData s))) s in
    let s := set_smoothedFrequencyData
               (resizeSmoothed (length (frequencyData s)) (smoothedFrequencyData s)) s in
    set_smoothedFrequencyData
      (smoothStep (default [] (boostedFrequencyData s)) (smoothedFrequencyData s)) s
  else s.

(** [animate(timestamp)] (script.js 575-613). *)
Definition animate (input : FrameInput) (s : AudioVisualizer) : AudioVisualizer :=
  if negb (isPlaying s) || negb (analyser s) then s
  else
    let minDelta := 1000 / targetFPS s in
    if negb (Qeq_bool (lastFrameTime s) 0)
       && Qltb (timestamp input - lastFrameTime s) minDelta
    then requestAnimationFrame s
    else
      let s := set_lastFrameTime (timestamp input) s in
      let s := conditionSpectrum input s in
      let s := draw (now input) s in
      requestAnimationFrame s.

(** The condition under which [animate] does the work of a frame: the
    visualizer is playing, the analyser exists, and the frame-rate gate
    lets the callback through. *)
Definition frameProcessed (input : FrameInput) (s : AudioVisualizer) : bool :=
  isPlaying s && analyser s
  && negb (negb (Qeq_bool (lastFrameTime s) 0)
           && Qltb (timestamp input - lastFrameTime s) (1000 / targetFPS s)).

(** ** Canvas size *)

(** What [setupCanvas] reads from the page: the width of the bounding
    rectangle of the parent of the canvas, a double that may have a
    fraction ([None] when the canvas has no parent), and
    [window.innerWidth] and [window.innerHeight], which the browser reports
    as integers that are not negative. *)
Record Window : Type := {
  containerWidth : option Q;
  innerWidth : Q;
  innerHeight : Q
}.

(** [canvas.width] and [canvas.height] are [unsigned long] attributes that
    reflect the content attributes of the element.  An assignment converts
    the number to an [unsigned long] (the fraction is dropped, the integer
    is taken modulo 2^32); a result above 2147483647 is replaced by the
    default of the attribute, 300 for the width and 150 for the height.  A
    negative number therefore gives the default, and what is read back is
    always an integer between 0 and 2147483647. *)
Definition toUnsignedLong (q : Q) : Z :=
  ((if Qle_bool 0 q then Qfloor q else Qceiling q) mod 4294967296)%Z.

Definition canvasLength (defaultLength : Z) (q : Q) : Q :=
  let n := toUnsignedLong q in
  if (n <=? 2147483647)%Z then inject_Z n else inject_Z defaultLength.

Definition assignCanvasWidth (q : Q) (s : AudioVisualizer) : AudioVisualizer :=
  set_canvas_width (canvasLength 300 q) s.

Definition assignCanvasHeight (q : Q) (s : AudioVisualizer) : AudioVisualizer :=
  set_canvas_height (canvasLength 150 q) s.

(** [setupCanvas()] (script.js 89-123). *)
Definition setupCanvas (w : Window) (s : AudioVisualizer) : AudioVisualizer :=
  match containerWidth w with
  | None => s
  | Some rectWidth =>
      let isMobile := Qle_bool (innerWidth w) 768 in
      let s :=
        if isMobile then
          let s := assignCanvasWidth (rectWidth - 20) s in
          let s := assignCanvasHeight (Math_min (innerHeight w * 0.5) 400) s in
          if Qle_bool (canvas_width s) 0 || Qle_bool (canvas_height s) 0
          then assignCanvasHeight 240 (assignCanvasWidth 320 s)
          else s
        else
          let s := assignCanvasWidth (Math_min 1200 (rectWidth - 40)) s in
          assignCanvasHeight (Math_min 800 (rectWidth * 0.6)) s in
      set_lastCanvasSize (SizeObject (canvas_width s) (canvas_height s)) s
  end.

(** The two listeners of the [resize] event (script.js 77-86), in the
    order of their registration.  The second one, like [enterFullscreen],
    assigns the inner size of the window, an integer the canvas stores as
    it is. *)
Definition onResize (w : Window) (s : AudioVisualizer) : AudioVisualizer :=
  let s := setupCanvas w s in
  if isFullscreen s
  then set_canvas_height (innerHeight w) (set_canvas_width (innerWidth w) s)
  else s.

(** ** Starting and stopping *)

(** [startVisualization()] (script.js 564-616), up to the first request of
    an animation frame. *)
Definition startVisualization (w : Window) (s : AudioVisualizer) : AudioVisualizer :=
  match animationId s with
  | Some _ => s
  | None =>
      if negb (analyser s) then s
      else
        let s :=
          if Qle_bool (canvas_width s) 0 || Qle_bool (canvas_height s) 0
          then setupCanvas w s else s in
        requestAnimationFrame s
  end.

(** [stopVisualization()] (script.js 618-623). *)
Definition stopVisualization (s : AudioVisualizer) : AudioVisualizer :=
  match animationId s with
  | Some _ => set_animationId None s
  | None => s
  end.

(** A capture call that is granted: the browser creates a stream with the
    given number of live tracks.  [new AudioContext()] opens a context. *)
Definition grantStream (trackCount : nat) (s : AudioVisualizer)
    : nat * AudioVisualizer :=
  let id := host_nextId s in
  (id, set_host_nextId (S id)
         (set_host_tracks (<[id := repeat true trackCount]> (host_tracks s)) s)).

Definition newAudioContext (s : AudioVisualizer) : nat * AudioVisualizer :=
  let id := host_nextId s in
  (id, set_host_nextId (S id)
         (set_host_contexts (<[id := true]> (host_contexts s)) s)).

(** [stream.getTracks().forEach((track) => track.stop())] and
    [audioContext.close()]. *)
Definition stopTracks (stream : nat) (s : AudioVisualizer) : AudioVisualizer :=
  set_host_tracks (alter (map (fun _ => false)) stream (host_tracks s)) s.

Definition closeContext (context : nat) (s : AudioVisualizer) : AudioVisualizer :=
  set_host_contexts (<[context := false]> (host_contexts s)) s.

(** [startMicrophone()] once [getUserMedia] has resolved
    (script.js 133-157). *)
Definition startMicrophone (w : Window) (trackCount : nat) (s : AudioVisualizer)
    : AudioVisualizer :=
  let '(stream, s) := grantStream trackCount s in
  let '(context, s) := newAudioContext s in
  let s := set_audioContext (Some context) s in
  let s := set_analyser true s in
  let s := set_gainNode true s in
  let s := set_microphone (Some stream) s in
  let s := set_smoothedFrequencyData (Float32Array (length (frequencyData s))) s in
  let s := set_isPlaying true s in
  startVisualization w s.

(** [startScreenShare()] on a desktop once [getDisplayMedia] has resolved
    (script.js 494-524). *)
Definition startScreenShare (w : Window) (trackCount : nat) (s : AudioVisualizer)
    : AudioVisualizer :=
  let '(stream, s) := grantStream trackCount s in
  let '(context, s) := newAudioContext s in
  let s := set_audioContext (Some context) s in
  let s := set_analyser true s in
  let s := set_gainNode true s in
  let s := set_screenShare (Some stream) s in
  let s := set_smoothedFrequencyData (Float32Array (length (frequencyData s))) s in
  let s := set_isPlaying true s in
  startVisualization w s.

(** [startScreenShare()] on a mobile device once one of the capture
    attempts has delivered a stream (script.js 393-482): the stream goes
    into [this.microphone]. *)
Definition startMobileAudio (w : Window) (trackCount : nat) (s : AudioVisualizer)
    : AudioVisualizer :=
  let '(stream, s) := grantStream trackCount s in
  let '(context, s) := newAudioContext s in
  let s := set_audioContext (Some context) s in
  let s := set_analyser true s in
  let s := set_gainNode true s in
  let s := set_microphone (Some stream) s in
  let s := set_isPlaying true s in
  startVisualization w s.

(** [stopScreenShare()] (script.js 547-562): the source node is
    disconnected and forgotten, the pending frame is cancelled. *)
Definition stopScreenShare (s : AudioVisualizer) : AudioVisualizer :=
  let s :=
    match screenShare s with
    | Some _ => set_screenShare None s
    | None => s
    end in
  stopVisualization s.

(** [stopVisualizer()] (script.js 722-778). *)
Definition stopVisualizer (s : AudioVisualizer) : AudioVisualizer :=
  let s := stopVisualization s in
  let s :=
    match microphone s with
    | Some stream => set_microphone None (stopTracks stream s)
    | None => s
    end in
  let s :=
    match audioContext s with
    | Some context => set_audioContext None (closeContext context s)
    | None => s
    end in
  let s := stopScreenShare s in
  let s :=
    if fullscreenMouseHandler s
    then set_fullscreenKeyHandler false (set_fullscreenMouseHandler false s)
    else s in
  let s :=
    match audioContext s with
    | Some context => set_audioContext None (closeContext context s)
    | None => s
    end in
  let s := set_analyser false s in
  let s := set_gainNode false s in
  let s := set_isPlaying false s in
  let s := set_raindrops [] s in
  let s := set_lastRaindropTime 0%Z s in
  let s := set_barRaindropTimers ∅ s in
  clearRect s.

(** ** Fullscreen and preferences *)

(** [enterFullscreen()] and [exitFullscreen()] (script.js 633-670) for a
    page that has its [.container] element. *)
Definition enterFullscreen (w : Window) (s : AudioVisualizer) : AudioVisualizer :=
  let s := set_isFullscreen true s in
  let s := set_canvas_width (innerWidth w) s in
  let s := set_canvas_height (innerHeight w) s in
  set_fullscreenKeyHandler true (set_fullscreenMouseHandler true s).

Definition exitFullscreen (w : Window) (s : AudioVisualizer) : AudioVisualizer :=
  let s := set_isFullscreen false s in
  setupCanvas w s.

(** [toggleFullscreen()] (script.js 625-631). *)
Definition toggleFullscreen (w : Window) (s : AudioVisualizer) : AudioVisualizer :=
  if isFullscreen s then exitFullscreen w s else enterFullscreen w s.

(** [clearUserPreferences()] (script.js 1609-1632). *)
Definition clearUserPreferences (s : AudioVisualizer) : AudioVisualizer :=
  set_sensitivity 1.0 (set_visualType "frequency3x" s).

(** ** The visualizer as a machine *)

(** Everything that can run a method of the object: the controls of the
    page, the window, the capture promises, and the frame callback. *)
Inductive Event : Type :=
| StartMicrophone (w : Window) (trackCount : nat)
| StartScreenShare (w : Window) (trackCount : nat)
| StartMobileAudio (w : Window) (trackCount : nat)
| CaptureRefused
| ScreenShareEnded
| StopVisualizer
| SelectVisualType (identifier : string)
| SetSensitivity (value : Q)
| Resize (w : Window)
| EnterFullscreen (w : Window)
| ExitFullscreen (w : Window)
| ClearPreferences
| AnimationFrame (input : FrameInput).

(** A frame callback runs only while a request is pending, that is while
    [animationId] holds a handle: [stopVisualization] cancels it. *)
Definition step (e : Event) (s : AudioVisualizer) : AudioVisualizer :=
  match e with
  | StartMicrophone w n => startMicrophone w n s
  | StartScreenShare w n => startScreenShare w n s
  | StartMobileAudio w n => startMobileAudio w n s
  | CaptureRefused => s
  | ScreenShareEnded => stopScreenShare s
  | StopVisualizer => stopVisualizer s
  | SelectVisualType identifier => set_visualType identifier s
  | SetSensitivity value => set_sensitivity value s
  | Resize w => onResize w s
  | EnterFullscreen w => enterFullscreen w s
  | ExitFullscreen w => exitFullscreen w s
  | ClearPreferences => clearUserPreferences s
  | AnimationFrame input =>
      match animationId s with
      | Some _ => animate input s
      | None => s
      end
  end.

Definition run (events : list Event) (s : AudioVisualizer) : AudioVisualizer :=
  fold_left (fun s e => step e s) events s.

(** The object after the constructor (script.js 2-41), before
    [setupCanvas] has run. *)
Definition constructed : AudioVisualizer :=
  {| audioContext := None; analyser := false; microphone := None;
     gainNode := false; isPlaying := false; animationId := None;
     screenShare := None;
     canvas_width := 1400; canvas_height := 800; canvas_ops := [];
     dataArray := repeat 0%Z 128; frequencyData := repeat 0%Z 128;
     smoothedFrequencyData := Float32Array 128;
     boostedFrequencyData := None;
     sensitivity := 1.0; visualType := "frequency3x";
     isFullscreen := false;
     raindrops := []; lastRaindropTime := 0; raindropInterval := 200;
     barRaindropTimers := ∅;
     targetFPS := 45; lastFrameTime := 0;
     lastCanvasSize := SizeUndefined;
     starPositions := None; starSizes := [];
     previousCirclePositions := None;
     fullscreenMouseHandler := false; fullscreenKeyHandler := false;
     host_tracks := ∅; host_contexts := ∅; host_nextId := 0;
     host_nextHandle := 1; host_randomCalls := 0 |}.

(** A desktop window, a window that fills a 1000 by 600 screen, and the
    visualizer listening to the microphone in each of them. *)
Definition desktop : Window :=
  {| containerWidth := Some 1040; innerWidth := 1280; innerHeight := 720 |}.

Definition smallScreen : Window :=
  {| containerWidth := Some 1000; innerWidth := 1000; innerHeight := 600 |}.

Definition listening : AudioVisualizer :=
  startMicrophone desktop 1 (setupCanvas desktop constructed).

Definition listeningFullscreen : AudioVisualizer :=
  enterFullscreen smallScreen listening.

(** A frame in which every bin of the spectrum holds [level]. *)
Definition flatFrame (level : Z) : FrameInput :=
  {| timestamp := 1000; frequencyBytes := repeat level 128;
     timeDomainBytes := repeat 128%Z 128; now := 1000 |}.

(** * Facts that hold for every host *)

Lemma Qltb_lt a b : Qltb a b = true <-> a < b.
Proof.
  unfold Qltb. rewrite negb_true_iff.
  split; intros H.
  - apply Qnot_le_lt. intros Hle. apply Qle_bool_iff in Hle. congruence.
  - destruct (Qle_bool b a) eqn:E; [|reflexivity].
    apply Qle_bool_iff in E. apply Qle_not_lt in E. contradiction.
Qed.

Lemma Qltb_ge a b : Qltb a b = false <-> b <= a.
Proof.
  unfold Qltb. rewrite negb_false_iff. apply Qle_bool_iff.
Qed.


Lemma num_lt n m : (n < m)%nat -> num n < num m.
Proof. intros H. unfold num. rewrite <- Zlt_Qlt. lia. Qed.

Lemma num_le n m : (n <= m)%nat -> num n <= num m.
Proof. intros H. unfold num. rewrite <- Zle_Qle. lia. Qed.

Lemma inByteRange_at_early (values : list Q) i :
  inByteRange values -> (i < length values)%nat ->
  0 <= at_ values i /\ at_ values i <= 255.
Proof.
  intros Hall Hi. unfold inByteRange in Hall. rewrite Forall_lookup in Hall.
  apply (Hall i). unfold at_. rewrite nth_lookup.
  destruct (lookup_lt_is_Some_2 values i Hi) as [x Hx]. now rewrite Hx.
Qed.

(** ** Which methods touch the raindrop store *)

Section RaindropStoreFrame.

Lemma raindrops_paint ops s : raindrops (paint ops s) = raindrops s.
Proof. reflexivity. Qed.

Lemma raindrops_requestAnimationFrame s :
  raindrops (requestAnimationFrame s) = raindrops s.
Proof. reflexivity. Qed.

Lemma raindrops_setupCanvas w s : raindrops (setupCanvas w s) = raindrops s.
Proof.
  unfold setupCanvas.
  destruct (containerWidth w); [|reflexivity].
  destruct (Qle_bool (innerWidth w) 768); simpl; [|reflexivity].
  match goal with |- context [if ?c then _ else _] => destruct c end;
    reflexivity.
Qed.

Lemma raindrops_stopVisualization s :
  raindrops (stopVisualization s) = raindrops s.
Proof. unfold stopVisualization. destruct (animationId s); reflexivity. Qed.

Lemma raindrops_startVisualization w s :
  raindrops (startVisualization w s) = raindrops s.
Proof.
  unfold startVisualization.
  destruct (animationId s); [reflexivity|].
  destruct (analyser s); [|reflexivity].
  cbv beta iota delta [negb].
  rewrite raindrops_requestAnimationFrame.
  match goal with |- context [if ?c then _ else _] => destruct c end;
    [apply raindrops_setupCanvas|reflexivity].
Qed.

Lemma raindrops_conditionSpectrum input s :
  raindrops (conditionSpectrum input s) = raindrops s.
Proof.
  unfold conditionSpectrum.
  destruct (0 <? length (frequencyData s))%nat; reflexivity.
Qed.

Lemma raindrops_drawWaveform s : raindrops (drawWaveform s) = raindrops s.
Proof.
  unfold drawWaveform.
  destruct (Nat.eqb _ _); [reflexivity|].
  destruct (noSpectrum s); reflexivity.
Qed.

Lemma raindrops_drawCircular s : raindrops (drawCircular s) = raindrops s.
Proof. unfold drawCircular. destruct (noSpectrum s); reflexivity. Qed.

Lemma raindrops_drawFrequencyBars2x s :
  raindrops (drawFrequencyBars2x s) = raindrops s.
Proof. unfold drawFrequencyBars2x. destruct (noSpectrum s); reflexivity. Qed.

Lemma raindrops_drawFrequencyBars4x s :
  raindrops (drawFrequencyBars4x s) = raindrops s.
Proof. unfold drawFrequencyBars4x. destruct (noSpectrum s); reflexivity. Qed.

Lemma raindrops_circlesBody data count i s :
  raindrops (circlesBody data count i s) = raindrops s.
Proof. reflexivity. Qed.

Lemma raindrops_drawCircles s : raindrops (drawCircles s) = raindrops s.
Proof.
  unfold drawCircles. destruct (noSpectrum s); [reflexivity|].
  set (data := selectData s).
  set (count := Nat.min (length data) 64).
  set (s0 := match previousCirclePositions s with Some _ => s | None => _ end).
  assert (H0 : raindrops s0 = raindrops s).
  { unfold s0. destruct (previousCirclePositions s); reflexivity. }
  rewrite <- H0. clear H0. generalize (seq 0 count) as indices. generalize s0.
  intros t indices. revert t.
  induction indices as [|i indices IH]; intros t; simpl; [reflexivity|].
  rewrite IH. apply raindrops_circlesBody.
Qed.

Lemma raindrops_regenerateStars data s :
  raindrops (regenerateStars data s) = raindrops s.
Proof.
  unfold regenerateStars.
  destruct (generateStars _ _ _ _ _) as [stars calls]. reflexivity.
Qed.

Lemma raindrops_drawStarlight s : raindrops (drawStarlight s) = raindrops s.
Proof.
  unfold drawStarlight. destruct (noSpectrum s); [reflexivity|].
  destruct (starsNeedRegeneration s); simpl;
    [apply raindrops_regenerateStars|reflexivity].
Qed.

Lemma raindrops_drawRetroBox now s :
  raindrops (drawRetroBox now s) = raindrops s.
Proof.
  unfold drawRetroBox.
  match goal with |- context [if ?c then _ else _] => destruct c end;
    reflexivity.
Qed.

(** [draw] leaves the store alone in every mode but [frequency3x]. *)
Lemma raindrops_draw now s :
  visualType s <> "frequency3x"%string ->
  raindrops (draw now s) = raindrops s.
Proof.
  intros Hmode. unfold draw.
  change (visualType (clearRect s)) with (visualType s).
  change (raindrops s) with (raindrops (clearRect s)).
  destruct (String.eqb_spec (visualType s) "waveform");
    [apply raindrops_drawWaveform|].
  destruct (String.eqb_spec (visualType s) "circular");
    [apply raindrops_drawCircular|].
  destruct (String.eqb_spec (visualType s) "frequency2x");
    [apply raindrops_drawFrequencyBars2x|].
  destruct (String.eqb_spec (visualType s) "frequency3x"); [contradiction|].
  destruct (String.eqb_spec (visualType s) "frequency4x");
    [apply raindrops_drawFrequencyBars4x|].
  destruct (String.eqb_spec (visualType s) "circles");
    [apply raindrops_drawCircles|].
  destruct (String.eqb_spec (visualType s) "starlight");
    [apply raindrops_drawStarlight|].
  destruct (String.eqb_spec (visualType s) "retroBox");
    [apply raindrops_drawRetroBox|].
  reflexivity.
Qed.

Lemma raindrops_animate input s :
  visualType s <> "frequency3x"%string ->
  raindrops (animate input s) = raindrops s.
Proof.
  intros Hmode. unfold animate.
  destruct (negb (isPlaying s) || negb (analyser s)); [reflexivity|].
  destruct (_ && _); [reflexivity|].
  rewrite raindrops_requestAnimationFrame.
  rewrite raindrops_draw.
  - rewrite raindrops_conditionSpectrum. reflexivity.
  - unfold conditionSpectrum.
    match goal with |- context [if ?c then _ else _] => destruct c end;
      exact Hmode.
Qed.

End RaindropStoreFrame.

Section RaindropStoreEvents.

Lemma raindrops_startMicrophone w n s :
  raindrops (startMicrophone w n s) = raindrops s.
Proof. unfold startMicrophone, grantStream, newAudioContext.
  now rewrite raindrops_startVisualization. Qed.

Lemma raindrops_startScreenShare w n s :
  raindrops (startScreenShare w n s) = raindrops s.
Proof. unfold startScreenShare, grantStream, newAudioContext.
  now rewrite raindrops_startVisualization. Qed.

Lemma raindrops_startMobileAudio w n s :
  raindrops (startMobileAudio w n s) = raindrops s.
Proof. unfold startMobileAudio, grantStream, newAudioContext.
  now rewrite raindrops_startVisualization. Qed.

Lemma raindrops_stopScreenShare s : raindrops (stopScreenShare s) = raindrops s.
Proof.
  unfold stopScreenShare. rewrite raindrops_stopVisualization.
  destruct (screenShare s); reflexivity.
Qed.

Lemma raindrops_onResize w s : raindrops (onResize w s) = raindrops s.
Proof.
  unfold onResize. destruct (isFullscreen (setupCanvas w s));
    apply raindrops_setupCanvas.
Qed.

Lemma raindrops_stopVisualizer s : raindrops (stopVisualizer s) = [].
Proof. reflexivity. Qed.

Lemma canvas_height_bars3xBody now data i bin s :
  canvas_height (bars3xBody now data i bin s) = canvas_height s.
Proof.
  unfold bars3xBody.
  repeat match goal with
         | |- context [if ?c then _ else _] => destruct c
         | |- context [match ?c with Some _ => _ | None => _ end] => destruct c
         end; reflexivity.
Qed.

Lemma canvas_height_bars3xLoop now data rest : forall i s,
  canvas_height (bars3xLoop now data i rest s) = canvas_height s.
Proof.
  induction rest as [|bin rest IH]; intros i s; simpl; [reflexivity|].
  rewrite IH. apply canvas_height_bars3xBody.
Qed.

(** A processed [frequency3x] frame spawns raindrops in the bar loop and
    then runs one update cycle over the store. *)
Lemma raindrops_drawFrequencyBars3x now s :
  noSpectrum s = false ->
  raindrops (drawFrequencyBars3x now s)
  = updateRaindropList (canvas_height s)
      (raindrops (bars3xLoop now (selectData s) 0 (selectData s) s)).
Proof.
  intros Hs. unfold drawFrequencyBars3x. rewrite Hs.
  cbv zeta. unfold drawRaindrops. rewrite raindrops_paint.
  unfold updateRaindrops.
  change (raindrops (set_raindrops ?l ?t)) with l.
  now rewrite canvas_height_bars3xLoop.
Qed.

End RaindropStoreEvents.

(** ** Which spectrum the modes read *)

Section SpectrumRead.

Variable other : list Q.

Local Abbreviation with_smoothed := (set_smoothedFrequencyData other).

Ltac split_conditions :=
  repeat match goal with
         | |- context [if ?c then _ else _] => destruct c
         | |- context [match ?c with Some _ => _ | None => _ end] => destruct c
         end.

Lemma selectData_boosted s b :
  boostedFrequencyData s = Some b -> selectData s = b.
Proof. intros H. unfold selectData. now rewrite H. Qed.

Lemma retroData_boosted s b :
  boostedFrequencyData s = Some b -> retroData s = b.
Proof. intros H. unfold retroData. now rewrite H. Qed.

Lemma selectData_with_smoothed s b :
  boostedFrequencyData s = Some b -> selectData (with_smoothed s) = selectData s.
Proof.
  intros H. unfold selectData.
  change (boostedFrequencyData (with_smoothed s)) with (boostedFrequencyData s).
  now rewrite H.
Qed.

Lemma drawWaveform_with_smoothed s :
  drawWaveform (with_smoothed s) = with_smoothed (drawWaveform s).
Proof.
  unfold drawWaveform, noSpectrum.
  change (dataArray (with_smoothed s)) with (dataArray s).
  change (frequencyData (with_smoothed s)) with (frequencyData s).
  split_conditions; reflexivity.
Qed.

Lemma drawCircular_with_smoothed s :
  drawCircular (with_smoothed s) = with_smoothed (drawCircular s).
Proof.
  unfold drawCircular, noSpectrum.
  change (frequencyData (with_smoothed s)) with (frequencyData s).
  split_conditions; reflexivity.
Qed.

Lemma drawFrequencyBars2x_with_smoothed s b :
  boostedFrequencyData s = Some b ->
  drawFrequencyBars2x (with_smoothed s) = with_smoothed (drawFrequencyBars2x s).
Proof.
  intros H. unfold drawFrequencyBars2x, noSpectrum.
  change (frequencyData (with_smoothed s)) with (frequencyData s).
  rewrite (selectData_with_smoothed s b H).
  split_conditions; reflexivity.
Qed.

Lemma drawFrequencyBars4x_with_smoothed s b :
  boostedFrequencyData s = Some b ->
  drawFrequencyBars4x (with_smoothed s) = with_smoothed (drawFrequencyBars4x s).
Proof.
  intros H. unfold drawFrequencyBars4x, noSpectrum.
  change (frequencyData (with_smoothed s)) with (frequencyData s).
  rewrite (selectData_with_smoothed s b H).
  split_conditions; reflexivity.
Qed.

Lemma bars3xBody_with_smoothed now data i bin s :
  bars3xBody now data i bin (with_smoothed s)
  = with_smoothed (bars3xBody now data i bin s).
Proof.
  unfold bars3xBody.
  change (canvas_width (with_smoothed s)) with (canvas_width s).
  change (canvas_height (with_smoothed s)) with (canvas_height s).
  change (sensitivity (with_smoothed s)) with (sensitivity s).
  cbv zeta.
  destruct (Qgtb _ 15); [|reflexivity].
  change (barRaindropTimers (paint ?ops (with_smoothed s)))
    with (barRaindropTimers s).
  change (barRaindropTimers (paint ?ops s)) with (barRaindropTimers s).
  destruct (barRaindropTimers s !! i) as [t|]; [destruct (Z.eqb t 0)|];
    cbn [raindropInterval paint set_canvas_ops set_barRaindropTimers
         set_smoothedFrequencyData barRaindropTimers];
    split_conditions; reflexivity.
Qed.

Lemma bars3xLoop_with_smoothed now data rest : forall i s,
  bars3xLoop now data i rest (with_smoothed s)
  = with_smoothed (bars3xLoop now data i rest s).
Proof.
  induction rest as [|bin rest IH]; intros i s; simpl; [reflexivity|].
  now rewrite bars3xBody_with_smoothed, IH.
Qed.

Lemma drawFrequencyBars3x_with_smoothed now s b :
  boostedFrequencyData s = Some b ->
  drawFrequencyBars3x now (with_smoothed s)
  = with_smoothed (drawFrequencyBars3x now s).
Proof.
  intros H. unfold drawFrequencyBars3x, noSpectrum.
  change (frequencyData (with_smoothed s)) with (frequencyData s).
  rewrite (selectData_with_smoothed s b H).
  destruct (Nat.eqb _ 0); [reflexivity|].
  cbv zeta. rewrite bars3xLoop_with_smoothed. reflexivity.
Qed.

Lemma circlesBody_with_smoothed data count i s :
  circlesBody data count i (with_smoothed s)
  = with_smoothed (circlesBody data count i s).
Proof. reflexivity. Qed.

Lemma drawCircles_with_smoothed s b :
  boostedFrequencyData s = Some b ->
  drawCircles (with_smoothed s) = with_smoothed (drawCircles s).
Proof.
  intros H. unfold drawCircles, noSpectrum.
  change (frequencyData (with_smoothed s)) with (frequencyData s).
  rewrite (selectData_with_smoothed s b H).
  destruct (Nat.eqb _ 0); [reflexivity|].
  cbv zeta.
  change (previousCirclePositions (with_smoothed s))
    with (previousCirclePositions s).
  set (data := selectData s). set (count := Nat.min (length data) 64).
  assert (Hfold : forall indices t,
            fold_left (fun s i => circlesBody data count i s) indices (with_smoothed t)
            = with_smoothed (fold_left (fun s i => circlesBody data count i s) indices t)).
  { induction indices as [|i indices IH]; intros t; simpl; [reflexivity|].
    now rewrite circlesBody_with_smoothed, IH. }
  destruct (previousCirclePositions s); [apply Hfold|].
  rewrite <- Hfold. reflexivity.
Qed.

Lemma drawStarlight_with_smoothed s b :
  boostedFrequencyData s = Some b ->
  drawStarlight (with_smoothed s) = with_smoothed (drawStarlight s).
Proof.
  intros H. unfold drawStarlight, noSpectrum.
  change (frequencyData (with_smoothed s)) with (frequencyData s).
  rewrite (selectData_with_smoothed s b H).
  destruct (Nat.eqb _ 0); [reflexivity|].
  change (starsNeedRegeneration (with_smoothed s))
    with (starsNeedRegeneration s).
  destruct (starsNeedRegeneration s); [|reflexivity].
  cbv zeta. unfold regenerateStars.
  change (canvas_width (with_smoothed s)) with (canvas_width s).
  change (canvas_height (with_smoothed s)) with (canvas_height s).
  change (host_randomCalls (with_smoothed s)) with (host_randomCalls s).
  destruct (generateStars _ _ _ _ _) as [stars calls]. reflexivity.
Qed.

Lemma drawRetroBox_with_smoothed now s b :
  boostedFrequencyData s = Some b ->
  drawRetroBox now (with_smoothed s) = with_smoothed (drawRetroBox now s).
Proof.
  intros H. unfold drawRetroBox. cbv zeta.
  assert (Hd : forall ops, retroData (paint ops (with_smoothed s))
                           = retroData (paint ops s)).
  { intros ops. unfold retroData.
    change (boostedFrequencyData (paint ops (with_smoothed s)))
      with (boostedFrequencyData s).
    change (boostedFrequencyData (paint ops s)) with (boostedFrequencyData s).
    now rewrite H. }
  change (canvas_width (with_smoothed s)) with (canvas_width s).
  change (canvas_height (with_smoothed s)) with (canvas_height s).
  rewrite Hd.
  destruct (Nat.eqb _ 0); reflexivity.
Qed.

(** Once a boosted spectrum exists, replacing the smoothing buffer by any
    other array commutes with [draw]: no mode reads the buffer. *)
Lemma draw_with_smoothed now s b :
  boostedFrequencyData s = Some b ->
  draw now (with_smoothed s) = with_smoothed (draw now s).
Proof.
  intros H. unfold draw.
  change (clearRect (with_smoothed s)) with (with_smoothed (clearRect s)).
  change (visualType (with_smoothed (clearRect s))) with (visualType (clearRect s)).
  assert (H' : boostedFrequencyData (clearRect s) = Some b) by exact H.
  generalize dependent (clearRect s). intros t Ht.
  destruct (String.eqb _ "waveform"); [apply drawWaveform_with_smoothed|].
  destruct (String.eqb _ "circular"); [apply drawCircular_with_smoothed|].
  destruct (String.eqb _ "frequency2x");
    [now apply drawFrequencyBars2x_with_smoothed with b|].
  destruct (String.eqb _ "frequency3x");
    [now apply drawFrequencyBars3x_with_smoothed with b|].
  destruct (String.eqb _ "frequency4x");
    [now apply drawFrequencyBars4x_with_smoothed with b|].
  destruct (String.eqb _ "circles");
    [now apply drawCircles_with_smoothed with b|].
  destruct (String.eqb _ "starlight");
    [now apply drawStarlight_with_smoothed with b|].
  destruct (String.eqb _ "retroBox");
    [now apply drawRetroBox_with_smoothed with b|].
  reflexivity.
Qed.

End SpectrumRead.

(** ** The raw spectrum and the modes that select their data *)

Section RawRead.

Variable otherRaw : list Z.
Hypothesis otherRaw_not_empty : otherRaw <> [].

Local Abbreviation with_raw := (set_frequencyData otherRaw).

Ltac split_conditions :=
  repeat match goal with
         | |- context [if ?c then _ else _] => destruct c
         | |- context [match ?c with Some _ => _ | None => _ end] => destruct c
         end.

Lemma noSpectrum_with_raw s : noSpectrum (with_raw s) = false.
Proof.
  unfold noSpectrum. change (frequencyData (with_raw s)) with otherRaw.
  destruct otherRaw; [now contradiction otherRaw_not_empty|reflexivity].
Qed.

Lemma selectData_with_raw s b :
  boostedFrequencyData s = Some b -> selectData (with_raw s) = selectData s.
Proof.
  intros H. unfold selectData.
  change (boostedFrequencyData (with_raw s)) with (boostedFrequencyData s).
  now rewrite H.
Qed.

Lemma drawFrequencyBars2x_with_raw s b :
  boostedFrequencyData s = Some b -> noSpectrum s = false ->
  drawFrequencyBars2x (with_raw s) = with_raw (drawFrequencyBars2x s).
Proof.
  intros H Hs. unfold drawFrequencyBars2x.
  rewrite noSpectrum_with_raw, Hs, (selectData_with_raw s b H). reflexivity.
Qed.

Lemma drawFrequencyBars4x_with_raw s b :
  boostedFrequencyData s = Some b -> noSpectrum s = false ->
  drawFrequencyBars4x (with_raw s) = with_raw (drawFrequencyBars4x s).
Proof.
  intros H Hs. unfold drawFrequencyBars4x.
  rewrite noSpectrum_with_raw, Hs, (selectData_with_raw s b H). reflexivity.
Qed.

Lemma bars3xBody_with_raw now data i bin s :
  bars3xBody now data i bin (with_raw s)
  = with_raw (bars3xBody now data i bin s).
Proof.
  unfold bars3xBody.
  change (canvas_width (with_raw s)) with (canvas_width s).
  change (canvas_height (with_raw s)) with (canvas_height s).
  change (sensitivity (with_raw s)) with (sensitivity s).
  cbv zeta.
  destruct (Qgtb _ 15); [|reflexivity].
  change (barRaindropTimers (paint ?ops (with_raw s)))
    with (barRaindropTimers s).
  change (barRaindropTimers (paint ?ops s)) with (barRaindropTimers s).
  destruct (barRaindropTimers s !! i) as [t|]; [destruct (Z.eqb t 0)|];
    cbn [raindropInterval paint set_canvas_ops set_barRaindropTimers
         set_frequencyData barRaindropTimers];
    split_conditions; reflexivity.
Qed.

Lemma bars3xLoop_with_raw now data rest : forall i s,
  bars3xLoop now data i rest (with_raw s)
  = with_raw (bars3xLoop now data i rest s).
Proof.
  induction rest as [|bin rest IH]; intros i s; simpl; [reflexivity|].
  now rewrite bars3xBody_with_raw, IH.
Qed.

Lemma drawFrequencyBars3x_with_raw now s b :
  boostedFrequencyData s = Some b -> noSpectrum s = false ->
  drawFrequencyBars3x now (with_raw s) = with_raw (drawFrequencyBars3x now s).
Proof.
  intros H Hs. unfold drawFrequencyBars3x.
  rewrite noSpectrum_with_raw, Hs, (selectData_with_raw s b H).
  cbv zeta. rewrite bars3xLoop_with_raw. reflexivity.
Qed.

Lemma drawCircles_with_raw s b :
  boostedFrequencyData s = Some b -> noSpectrum s = false ->
  drawCircles (with_raw s) = with_raw (drawCircles s).
Proof.
  intros H Hs. unfold drawCircles.
  rewrite noSpectrum_with_raw, Hs, (selectData_with_raw s b H).
  cbv zeta.
  change (previousCirclePositions (with_raw s))
    with (previousCirclePositions s).
  set (data := selectData s). set (count := Nat.min (length data) 64).
  assert (Hfold : forall indices t,
            fold_left (fun s i => circlesBody data count i s) indices (with_raw t)
            = with_raw (fold_left (fun s i => circlesBody data count i s) indices t)).
  { induction indices as [|i indices IH]; intros t; simpl; [reflexivity|].
    rewrite <- IH. reflexivity. }
  destruct (previousCirclePositions s); [apply Hfold|].
  rewrite <- Hfold. reflexivity.
Qed.

Lemma drawStarlight_with_raw s b :
  boostedFrequencyData s = Some b -> noSpectrum s = false ->
  drawStarlight (with_raw s) = with_raw (drawStarlight s).
Proof.
  intros H Hs. unfold drawStarlight.
  rewrite noSpectrum_with_raw, Hs, (selectData_with_raw s b H).
  change (starsNeedRegeneration (with_raw s)) with (starsNeedRegeneration s).
  destruct (starsNeedRegeneration s); [|reflexivity].
  cbv zeta. unfold regenerateStars.
  change (canvas_width (with_raw s)) with (canvas_width s).
  change (canvas_height (with_raw s)) with (canvas_height s).
  change (host_randomCalls (with_raw s)) with (host_randomCalls s).
  destruct (generateStars _ _ _ _ _) as [stars calls]. reflexivity.
Qed.

Lemma drawRetroBox_with_raw now s b :
  boostedFrequencyData s = Some b ->
  drawRetroBox now (with_raw s) = with_raw (drawRetroBox now s).
Proof.
  intros H. unfold drawRetroBox. cbv zeta.
  assert (Hd : forall ops, retroData (paint ops (with_raw s))
                           = retroData (paint ops s)).
  { intros ops. unfold retroData.
    change (boostedFrequencyData (paint ops (with_raw s)))
      with (boostedFrequencyData s).
    change (boostedFrequencyData (paint ops s)) with (boostedFrequencyData s).
    now rewrite H. }
  change (canvas_width (with_raw s)) with (canvas_width s).
  change (canvas_height (with_raw s)) with (canvas_height s).
  rewrite Hd.
  destruct (Nat.eqb _ 0); reflexivity.
Qed.

(** Once a boosted spectrum exists, replacing the content of the raw
    spectrum by any other bytes commutes with [draw] in the six modes that
    select their data: none of them reads the raw spectrum. *)
Lemma draw_with_raw now s b :
  boostedFrequencyData s = Some b -> noSpectrum s = false ->
  In (visualType s)
     ["frequency2x"; "frequency3x"; "frequency4x"; "circles"; "starlight";
      "retroBox"]%string ->
  draw now (with_raw s) = with_raw (draw now s).
Proof.
  intros H Hs Hmode. unfold draw.
  change (clearRect (with_raw s)) with (with_raw (clearRect s)).
  change (visualType (with_raw (clearRect s))) with (visualType s).
  change (visualType (clearRect s)) with (visualType s).
  assert (H' : boostedFrequencyData (clearRect s) = Some b) by exact H.
  assert (Hs' : noSpectrum (clearRect s) = false) by exact Hs.
  simpl in Hmode.
  destruct Hmode as [E|[E|[E|[E|[E|[E|[]]]]]]]; rewrite <- E;
    cbn [String.eqb Ascii.eqb Bool.eqb andb]; cbv iota.
  - now apply drawFrequencyBars2x_with_raw with b.
  - now apply drawFrequencyBars3x_with_raw with b.
  - now apply drawFrequencyBars4x_with_raw with b.
  - now apply drawCircles_with_raw with b.
  - now apply drawStarlight_with_raw with b.
  - now apply drawRetroBox_with_raw with b.
Qed.

End RawRead.

Section ConditionedFrame.

Lemma animate_processed input s :
  frameProcessed input s = true ->
  animate input s
  = requestAnimationFrame
      (draw (now input)
         (conditionSpectrum input (set_lastFrameTime (timestamp input) s))).
Proof.
  unfold frameProcessed, animate. intros H.
  apply andb_true_iff in H as [H Hgate].
  apply andb_true_iff in H as [Hp Ha]. rewrite Hp, Ha. simpl.
  apply negb_true_iff in Hgate. rewrite Hgate. reflexivity.
Qed.

Lemma length_getByteData array incoming :
  length (getByteData array incoming) = length array.
Proof.
  unfold getByteData. rewrite length_app, length_take, length_drop. lia.
Qed.

Lemma conditionSpectrum_fields input s :
  (0 < length (frequencyData s))%nat ->
  let raw := getByteData (frequencyData s) (frequencyBytes input) in
  let boosted := applyHighEndBoost raw in
  frequencyData (conditionSpectrum input s) = raw /\
  boostedFrequencyData (conditionSpectrum input s) = Some boosted /\
  smoothedFrequencyData (conditionSpectrum input s)
  = smoothStep boosted (resizeSmoothed (length raw) (smoothedFrequencyData s)).
Proof.
  intros Hlen. unfold conditionSpectrum.
  destruct (Nat.ltb_spec 0 (length (frequencyData s))); [|lia].
  repeat split.
Qed.

End ConditionedFrame.

(** C1, as the code has it.  On every frame that [animate] processes with
    a non-empty spectrum, the conditioner stores the boosted spectrum and
    the smoothed one, and the bar modes, circles, starlight and the retro
    equalizer run their loops over the boosted spectrum of the frame,
    before smoothing: the frame is what the loop of the mode makes of the
    boosted array, and it paints the same whatever bytes the raw spectrum
    and whatever numbers the smoothing buffer hold. *)
Theorem frames_draw_from_boosted_spectrum
    (input : FrameInput) (s : AudioVisualizer) :
  frameProcessed input s = true ->
  (0 < length (frequencyData s))%nat ->
  let conditioned :=
    conditionSpectrum input (set_lastFrameTime (timestamp input) s) in
  let raw := getByteData (frequencyData s) (frequencyBytes input) in
  let boosted := applyHighEndBoost raw in
  let cleared := clearRect conditioned in
  let count := Nat.min (length boosted) 64 in
  let maxBars := Z.to_nat (Math_floor (canvas_width s / (8 + 4))) in
  animate input s = requestAnimationFrame (draw (now input) conditioned) /\
  boostedFrequencyData conditioned = Some boosted /\
  smoothedFrequencyData conditioned
  = smoothStep boosted (resizeSmoothed (length raw) (smoothedFrequencyData s)) /\
  selectData conditioned = boosted /\
  retroData conditioned = boosted /\
  (visualType s = "frequency2x"%string ->
   canvas_ops (animate input s)
   = concat (imap (bars2xOf conditioned boosted) boosted)) /\
  (visualType s = "frequency4x"%string ->
   canvas_ops (animate input s)
   = concat (imap (bars4xOf conditioned boosted) boosted)) /\
  (visualType s = "frequency3x"%string ->
   draw (now input) conditioned
   = drawRaindrops
       (updateRaindrops (bars3xLoop (now input) boosted 0 boosted cleared))) /\
  (visualType s = "circles"%string ->
   draw (now input) conditioned
   = fold_left (fun t i => circlesBody boosted count i t) (seq 0 count)
       match previousCirclePositions s with
       | Some _ => cleared
       | None =>
           set_previousCirclePositions
             (Some (repeat (canvas_width s / 2, canvas_height s / 2) count))
             cleared
       end) /\
  (visualType s = "starlight"%string ->
   let stars :=
     if starsNeedRegeneration cleared
     then regenerateStars boosted cleared else cleared in
   draw (now input) conditioned
   = paint (concat (imap (starOps stars boosted)
                      (default [] (starPositions stars)))) stars) /\
  (visualType s = "retroBox"%string ->
   canvas_ops (animate input s)
   = [RetroBackdrop (canvas_width s) (canvas_height s)]
     ++ map (retroBar (now input) conditioned boosted maxBars) (seq 0 maxBars)
     ++ [RetroDecoration (canvas_width s) (canvas_height s)]) /\
  (In (visualType s)
      ["frequency2x"; "frequency3x"; "frequency4x"; "circles"; "starlight";
       "retroBox"]%string ->
   forall otherRaw otherSmoothed,
     otherRaw <> [] ->
     canvas_ops (animate input s)
     = canvas_ops (draw (now input)
                     (set_frequencyData otherRaw
                        (set_smoothedFrequencyData otherSmoothed conditioned)))) /\
  forall other,
    canvas_ops (animate input s)
    = canvas_ops (draw (now input)
                    (set_smoothedFrequencyData other conditioned)).
Proof.
  intros Hproc Hlen conditioned raw boosted cleared count maxBars.
  pose proof (conditionSpectrum_fields input
                (set_lastFrameTime (timestamp input) s) Hlen)
    as (Hraw & Hboost & Hsmooth).
  fold conditioned in Hraw, Hboost, Hsmooth.
  change (frequencyData (set_lastFrameTime (timestamp input) s))
    with (frequencyData s) in Hraw, Hboost, Hsmooth.
  fold raw in Hraw, Hboost, Hsmooth. fold boosted in Hboost, Hsmooth.
  pose proof (animate_processed input s Hproc) as Hanimate.
  fold conditioned in Hanimate.
  assert (Hkept : visualType conditioned = visualType s
                  /\ canvas_width conditioned = canvas_width s
                  /\ canvas_height conditioned = canvas_height s
                  /\ previousCirclePositions conditioned
                     = previousCirclePositions s).
  { unfold conditioned, conditionSpectrum.
    destruct (0 <? _)%nat; now repeat split. }
  destruct Hkept as (Hvt & Hcw & Hch & Hpcp).
  assert (Hns : noSpectrum cleared = false).
  { unfold noSpectrum.
    change (frequencyData cleared) with (frequencyData conditioned).
    rewrite Hraw. unfold raw. rewrite length_getByteData.
    apply Nat.eqb_neq. lia. }
  assert (Hsel : selectData cleared = boosted).
  { apply selectData_boosted. exact Hboost. }
  assert (Hmode : forall mode,
            visualType s = mode -> visualType cleared = mode).
  { intros mode <-. exact Hvt. }
  assert (Hops : canvas_ops (animate input s)
                 = canvas_ops (draw (now input) conditioned)).
  { now rewrite Hanimate. }
  split; [exact Hanimate|]. split; [exact Hboost|]. split; [exact Hsmooth|].
  split; [now apply selectData_boosted|].
  split; [now apply retroData_boosted|].
  split.
  { intros E. rewrite Hops. unfold draw. fold cleared.
    rewrite (Hmode _ E). cbn [String.eqb Ascii.eqb Bool.eqb andb]. cbv iota.
    unfold drawFrequencyBars2x. rewrite Hns, Hsel. reflexivity. }
  split.
  { intros E. rewrite Hops. unfold draw. fold cleared.
    rewrite (Hmode _ E). cbn [String.eqb Ascii.eqb Bool.eqb andb]. cbv iota.
    unfold drawFrequencyBars4x. rewrite Hns, Hsel. reflexivity. }
  split.
  { intros E. unfold draw. fold cleared.
    rewrite (Hmode _ E). cbn [String.eqb Ascii.eqb Bool.eqb andb]. cbv iota.
    unfold drawFrequencyBars3x. rewrite Hns, Hsel. reflexivity. }
  split.
  { intros E. unfold draw. fold cleared.
    rewrite (Hmode _ E). cbn [String.eqb Ascii.eqb Bool.eqb andb]. cbv iota.
    unfold drawCircles. rewrite Hns, Hsel. cbv zeta. fold count.
    change (previousCirclePositions cleared)
      with (previousCirclePositions conditioned).
    change (canvas_width cleared) with (canvas_width conditioned).
    change (canvas_height cleared) with (canvas_height conditioned).
    rewrite Hpcp, Hcw, Hch. reflexivity. }
  split.
  { intros E. cbv zeta. unfold draw. fold cleared.
    rewrite (Hmode _ E). cbn [String.eqb Ascii.eqb Bool.eqb andb]. cbv iota.
    unfold drawStarlight. rewrite Hns, Hsel. reflexivity. }
  split.
  { intros E. rewrite Hops. unfold draw. fold cleared.
    rewrite (Hmode _ E). cbn [String.eqb Ascii.eqb Bool.eqb andb]. cbv iota.
    unfold drawRetroBox. cbv zeta.
    assert (Hrd : retroData
                    (paint [RetroBackdrop (canvas_width cleared)
                              (canvas_height cleared)] cleared) = boosted).
    { apply retroData_boosted. exact Hboost. }
    rewrite Hrd.
    assert (Hnb : Nat.eqb (length boosted) 0 = false).
    { apply Nat.eqb_neq. unfold boosted, applyHighEndBoost.
      rewrite length_imap. unfold raw. rewrite length_getByteData. lia. }
    rewrite Hnb.
    change (canvas_width cleared) with (canvas_width conditioned).
    change (canvas_height cleared) with (canvas_height conditioned).
    rewrite Hcw, Hch. fold maxBars. reflexivity. }
  split.
  { intros Hin otherRaw otherSmoothed Hne. rewrite Hops.
    rewrite (draw_with_raw otherRaw Hne (now input)
               (set_smoothedFrequencyData otherSmoothed conditioned) boosted);
      [|exact Hboost| |rewrite <- Hvt in Hin; exact Hin].
    - rewrite (draw_with_smoothed otherSmoothed (now input) conditioned
                 boosted Hboost). reflexivity.
    - exact Hns. }
  intros other. rewrite Hops.
  rewrite (draw_with_smoothed other (now input) conditioned boosted Hboost).
  reflexivity.
Qed.

(** ** The retro equalizer and the sensitivity *)

Section RetroSensitivity.

Lemma drawRetroBox_set_sensitivity now k s :
  drawRetroBox now (set_sensitivity k s)
  = set_sensitivity k (drawRetroBox now s).
Proof.
  unfold drawRetroBox. cbv zeta.
  change (canvas_width (set_sensitivity k s)) with (canvas_width s).
  change (canvas_height (set_sensitivity k s)) with (canvas_height s).
  assert (Hd : forall ops, retroData (paint ops (set_sensitivity k s))
                           = retroData (paint ops s)) by reflexivity.
  rewrite Hd.
  destruct (Nat.eqb _ 0); reflexivity.
Qed.

(** The other spectrum modes scale the bin: the value of a bar of the
    mirrored-bars mode is [bin * sensitivity]. *)
Lemma bars2xOf_values s data i bin :
  barValues (bars2xOf s data i bin) = [bin * sensitivity s; bin * sensitivity s].
Proof. reflexivity. Qed.

End RetroSensitivity.

(** C4.  The retro equalizer paints the same picture whatever the
    sensitivity is: its loop reads [data[dataIndex]] and never multiplies
    it.  With every boosted bin at 100 and the sensitivity at 2 on the
    1400 by 800 canvas of the constructor, the first bar has the length
    that belongs to the value 100, not to 200. *)
Theorem retroBox_ignores_sensitivity :
  (forall now k s,
     canvas_ops (drawRetroBox now (set_sensitivity k s))
     = canvas_ops (drawRetroBox now s)) /\
  (let s := set_boostedFrequencyData (Some (repeat 100 128))
              (set_visualType "retroBox" (set_sensitivity 2 constructed)) in
   at_ (retroBarLengths (canvas_ops (draw 0 s))) 0
   == (100 / 255) * (800 * 0.8) * 0.6 + 10
   /\ ~ at_ (retroBarLengths (canvas_ops (draw 0 s))) 0
        == ((100 * 2) / 255) * (800 * 0.8) * 0.6 + 10).
Proof.
  split.
  - intros now k s. now rewrite drawRetroBox_set_sensitivity.
  - split; vm_compute; congruence.
Qed.

(** ** Star generation *)

Section StarGeneration.

Lemma generateStars_succ n w h existing calls :
  generateStars (S n) w h existing calls
  = generateStars n w h
      (existing ++ [fst (placeStar 99 existing w h calls)])
      (snd (placeStar 99 existing w h calls)).
Proof.
  change (generateStars (S n) w h existing calls)
    with (let '(star, calls') := placeStar 99 existing w h calls in
          generateStars n w h (existing ++ [star]) calls').
  now destruct (placeStar 99 existing w h calls).
Qed.

Lemma generateStars_app n : forall w h existing calls,
  exists rest,
    fst (generateStars n w h existing calls) = existing ++ rest
    /\ length rest = n.
Proof.
  induction n as [|n IH]; intros w h existing calls.
  - exists []. now rewrite app_nil_r.
  - rewrite generateStars_succ.
    set (star := fst (placeStar 99 existing w h calls)).
    set (calls' := snd (placeStar 99 existing w h calls)).
    destruct (IH w h (existing ++ [star]) calls') as (rest & Hrest & Hlen).
    exists (star :: rest). rewrite Hrest, <- app_assoc.
    split; [reflexivity|]. simpl length. now rewrite Hlen.
Qed.

Lemma generateStars_length n w h existing calls :
  length (fst (generateStars n w h existing calls)) = (length existing + n)%nat.
Proof.
  destruct (generateStars_app n w h existing calls) as (rest & Hrest & Hlen).
  rewrite Hrest, length_app. lia.
Qed.

(** Every star pushed by the loop is the result of the attempt loop run
    against the stars that precede it in the final array. *)
Lemma generateStars_lookup n : forall w h existing calls j star,
  (length existing <= j)%nat ->
  fst (generateStars n w h existing calls) !! j = Some star ->
  exists calls',
    star = fst (placeStar 99 (take j (fst (generateStars n w h existing calls)))
                          w h calls').
Proof.
  induction n as [|n IH]; intros w h existing calls j star Hj Hlook.
  - apply lookup_lt_Some in Hlook.
    change (fst (generateStars 0 w h existing calls)) with existing in Hlook.
    lia.
  - rewrite generateStars_succ in Hlook |- *.
    set (star0 := fst (placeStar 99 existing w h calls)) in *.
    set (calls0 := snd (placeStar 99 existing w h calls)) in *.
    destruct (generateStars_app n w h (existing ++ [star0]) calls0)
      as (rest & Hrest & Hlen).
    destruct (Nat.eq_dec j (length existing)) as [->|Hne].
    + exists calls.
      rewrite Hrest in Hlook |- *. rewrite <- app_assoc in Hlook |- *.
      rewrite take_app_length.
      rewrite lookup_app_r in Hlook by lia.
      rewrite Nat.sub_diag in Hlook.
      change (Some star0 = Some star) in Hlook.
      now injection Hlook as <-.
    + apply (IH w h (existing ++ [star0]) calls0 j star); [|exact Hlook].
      rewrite length_app. simpl length. lia.
Qed.

(** When the attempt loop ends on an overlapping triple, every one of the
    rounds allowed by the bound has been used. *)
Lemma placeStar_fallback retries : forall existing w h calls,
  let star := fst (placeStar retries existing w h calls) in
  isOverlapping existing (Star.x star) (Star.y star) (Star.size star) = true ->
  snd (placeStar retries existing w h calls) = (calls + 3 * (retries + 1))%nat.
Proof.
  induction retries as [|r IH]; intros existing w h calls; simpl.
  - intros _. lia.
  - destruct (isOverlapping existing (Math_random calls * (w - 100) + 50)
                (Math_random (calls + 1) * (h - 100) + 50)
                (Math_random (calls + 2) * 3 + 1)) eqn:E.
    + intros H. rewrite (IH existing w h (calls + 3)%nat H). lia.
    + simpl. rewrite E. discriminate.
Qed.

Lemma isOverlapping_false_elem existing x y size a :
  isOverlapping existing x y size = false ->
  In a existing ->
  (size + Star.size a) * 1.5
  <= Math_sqrt ((x - Star.x a) ^ 2 + (y - Star.y a) ^ 2).
Proof.
  unfold isOverlapping. intros Hno Hin.
  pose proof (existsb_exists
                (fun existingStar =>
                   Qltb (Math_sqrt ((x - Star.x existingStar) ^ 2
                                    + (y - Star.y existingStar) ^ 2))
                        ((size + Star.size existingStar) * 1.5))
                existing) as Hex.
  apply Qltb_ge.
  destruct (Qltb _ _) eqn:E; [|reflexivity].
  assert (Hcontra : existsb
            (fun existingStar =>
               Qltb (Math_sqrt ((x - Star.x existingStar) ^ 2
                                + (y - Star.y existingStar) ^ 2))
                    ((size + Star.size existingStar) * 1.5))
            existing = true).
  { apply Hex. exists a. split; assumption. }
  congruence.
Qed.

Lemma placeStar_zero existing w h calls :
  placeStar 0 existing w h calls = (drawnStar w h calls, (calls + 3)%nat).
Proof. reflexivity. Qed.

Lemma placeStar_succ retries existing w h calls :
  placeStar (S retries) existing w h calls
  = if overlapsEarlier existing (drawnStar w h calls)
    then placeStar retries existing w h (calls + 3)
    else (drawnStar w h calls, (calls + 3)%nat).
Proof. reflexivity. Qed.

(** One run of the attempt loop makes [a] rounds, between 1 and the bound:
    the triple of every round before the last overlaps a star, the star
    returned is the triple of the last round, and when the bound was not
    reached that triple overlaps no star. *)
Lemma placeStar_rounds retries : forall existing w h calls,
  exists a,
    (1 <= a <= retries + 1)%nat
    /\ placeStar retries existing w h calls
       = (drawnStar w h (calls + 3 * (a - 1)), (calls + 3 * a)%nat)
    /\ (forall k, (k < a - 1)%nat ->
          overlapsEarlier existing (drawnStar w h (calls + 3 * k)) = true)
    /\ ((a < retries + 1)%nat ->
          overlapsEarlier existing (drawnStar w h (calls + 3 * (a - 1))) = false).
Proof.
  induction retries as [|r IH]; intros existing w h calls.
  - exists 1%nat. rewrite placeStar_zero.
    replace (calls + 3 * (1 - 1))%nat with calls by lia.
    replace (calls + 3 * 1)%nat with (calls + 3)%nat by lia.
    split; [lia|]. split; [reflexivity|]. split; intros; lia.
  - rewrite placeStar_succ.
    destruct (overlapsEarlier existing (drawnStar w h calls)) eqn:E.
    + destruct (IH existing w h (calls + 3)%nat) as (a & Ha & Hp & Hk & Hlast).
      exists (S a). split; [lia|]. split.
      { rewrite Hp. f_equal; [f_equal|]; lia. }
      split.
      { intros k Hk'. destruct k as [|k].
        - replace (calls + 3 * 0)%nat with calls by lia. exact E.
        - replace (calls + 3 * S k)%nat with (calls + 3 + 3 * k)%nat by lia.
          apply Hk. lia. }
      intros Hlt.
      replace (calls + 3 * (S a - 1))%nat with (calls + 3 + 3 * (a - 1))%nat
        by lia.
      apply Hlast. lia.
    + exists 1%nat.
      replace (calls + 3 * (1 - 1))%nat with calls by lia.
      replace (calls + 3 * 1)%nat with (calls + 3)%nat by lia.
      split; [lia|]. split; [reflexivity|].
      split; [intros k Hk; lia|]. intros _. exact E.
Qed.

(** The loop over the stars: the rounds made for each star, the calls of
    [Math.random] they take, and each star tested against the stars pushed
    before it. *)
Lemma generateStars_rounds n : forall w h existing calls,
  exists rest attempts,
    generateStars n w h existing calls
    = (existing ++ rest, (calls + 3 * sum_list attempts)%nat)
    /\ length rest = n /\ length attempts = n
    /\ forall j star, rest !! j = Some star ->
         exists a,
           attempts !! j = Some a /\ (1 <= a <= 100)%nat
           /\ star = drawnStar w h (calls + 3 * sum_list (take j attempts)
                                    + 3 * (a - 1))
           /\ (forall k, (k < a - 1)%nat ->
                 overlapsEarlier (existing ++ take j rest)
                   (drawnStar w h (calls + 3 * sum_list (take j attempts)
                                   + 3 * k)) = true)
           /\ ((a < 100)%nat ->
                 overlapsEarlier (existing ++ take j rest) star = false).
Proof.
  induction n as [|n IH]; intros w h existing calls.
  - exists [], []. rewrite app_nil_r. simpl.
    split; [f_equal; lia|]. split; [reflexivity|]. split; [reflexivity|].
    intros j star Hj. discriminate Hj.
  - rewrite generateStars_succ.
    destruct (placeStar_rounds 99 existing w h calls)
      as (a0 & Ha0 & Hp & Hk0 & Hlast0).
    rewrite Hp. cbn [fst snd].
    set (star0 := drawnStar w h (calls + 3 * (a0 - 1))) in *.
    destruct (IH w h (existing ++ [star0]) (calls + 3 * a0)%nat)
      as (rest & attempts & Hg & Hl & Hla & Hj).
    exists (star0 :: rest), (a0 :: attempts).
    split.
    { rewrite Hg, <- app_assoc. simpl. f_equal. lia. }
    split; [simpl; now rewrite Hl|]. split; [simpl; now rewrite Hla|].
    intros j star Hlook. destruct j as [|j].
    + injection Hlook as <-. exists a0.
      cbn [take sum_list sum_list_with lookup list_lookup].
      rewrite app_nil_r.
      replace (calls + 3 * 0)%nat with calls by lia.
      split; [reflexivity|]. split; [lia|]. split; [reflexivity|].
      split; [exact Hk0|]. intros Hlt. apply Hlast0. lia.
    + destruct (Hj j star Hlook) as (a & Hat & Ha & Hs & Hk & Hlast).
      exists a.
      assert (Et : (calls + 3 * sum_list (take (S j) (a0 :: attempts))
                    = calls + 3 * a0 + 3 * sum_list (take j attempts))%nat).
      { simpl. lia. }
      assert (Ee : existing ++ take (S j) (star0 :: rest)
                   = (existing ++ [star0]) ++ take j rest).
      { simpl. now rewrite <- app_assoc. }
      rewrite Et, Ee.
      split; [exact Hat|]. split; [exact Ha|]. split; [exact Hs|].
      split; assumption.
Qed.

End StarGeneration.

(** C7.  Regeneration stores exactly [min(data.length, 128)] stars.  Star
    [j] is the triple of the last of the [a] rounds its attempt loop made,
    at least 1 and at most 100, each round taking three numbers from
    [Math.random] after those of the stars before; the triple of every
    earlier round was closer to one of the stars pushed before than 1.5
    times the sum of the two sizes, and when fewer than 100 rounds were
    made the triple kept is that close to none of them.  So a star placed
    within the budget of 100 attempts, or whose hundredth triple overlaps
    nothing, is at least 1.5 times the sum of the two sizes away from
    every star generated before it, by the distance the code computes. *)
Theorem star_generation_count_and_separation
    (data : list Q) (s : AudioVisualizer) :
  let width := canvas_width s in
  let height := canvas_height s in
  let start := host_randomCalls s in
  exists stars attempts,
    starPositions (regenerateStars data s) = Some stars /\
    starSizes (regenerateStars data s) = map Star.size stars /\
    length stars = Nat.min (length data) 128 /\
    length attempts = length stars /\
    host_randomCalls (regenerateStars data s)
    = (start + 3 * sum_list attempts)%nat /\
    (forall j star, stars !! j = Some star ->
       exists a,
         attempts !! j = Some a /\ (1 <= a <= 100)%nat
         /\ star = drawnStar width height
                     (start + 3 * sum_list (take j attempts) + 3 * (a - 1))
         /\ (forall k, (k < a - 1)%nat ->
               overlapsEarlier (take j stars)
                 (drawnStar width height
                    (start + 3 * sum_list (take j attempts) + 3 * k)) = true)
         /\ ((a < 100)%nat -> overlapsEarlier (take j stars) star = false)) /\
    (forall i j a b n,
       (i < j)%nat -> stars !! i = Some a -> stars !! j = Some b ->
       attempts !! j = Some n ->
       (n < 100)%nat \/ placedWithoutOverlap stars j ->
       (Star.size b + Star.size a) * 1.5
       <= Math_sqrt ((Star.x b - Star.x a) ^ 2 + (Star.y b - Star.y a) ^ 2)).
Proof.
  intros width height start. unfold regenerateStars.
  set (n := Nat.min (length data) 128).
  destruct (generateStars_rounds n width height [] start)
    as (stars & attempts & Hg & Hlen & Hla & Hrounds).
  fold width height start. rewrite Hg.
  change ([] ++ stars) with stars in *.
  exists stars, attempts.
  split; [reflexivity|]. split; [reflexivity|]. split; [exact Hlen|].
  split; [now rewrite Hla, Hlen|]. split; [reflexivity|].
  split; [exact Hrounds|].
  intros i j a b m Hij Ha Hb Hm Hplaced.
  assert (Hfree : overlapsEarlier (take j stars) b = false).
  { destruct Hplaced as [Hlt|Hp].
    - destruct (Hrounds j b Hb) as (a' & Hat & _ & _ & _ & Hlast).
      rewrite Hm in Hat. injection Hat as <-. now apply Hlast.
    - unfold placedWithoutOverlap in Hp. rewrite Hb in Hp. exact Hp. }
  apply (isOverlapping_false_elem (take j stars)); [exact Hfree|].
  apply list_elem_of_In. apply list_elem_of_lookup. exists i.
  rewrite lookup_take_lt by exact Hij. exact Ha.
Qed.

(** ** Star positions and resize events *)

Section StarEpoch.

Ltac split_ifs :=
  repeat match goal with
         | |- context [if ?c then _ else _] => destruct c
         end.

Lemma setupCanvas_result w s rectWidth :
  containerWidth w = Some rectWidth ->
  exists width height,
    setupCanvas w s
    = set_lastCanvasSize (SizeObject width height)
        (set_canvas_height height (set_canvas_width width s))
    /\ forall t, setupCanvas w t
                 = set_lastCanvasSize (SizeObject width height)
                     (set_canvas_height height (set_canvas_width width t)).
Proof.
  intros Hc. unfold setupCanvas, assignCanvasWidth, assignCanvasHeight.
  rewrite Hc.
  destruct (Qle_bool (innerWidth w) 768).
  - cbn [canvas_width canvas_height set_canvas_width set_canvas_height].
    destruct (_ || _).
    + exists (canvasLength 300 320), (canvasLength 150 240).
      split; [reflexivity|intros t; reflexivity].
    + exists (canvasLength 300 (rectWidth - 20)),
             (canvasLength 150 (Math_min (innerHeight w * 0.5) 400)).
      split; [reflexivity|intros t; reflexivity].
  - exists (canvasLength 300 (Math_min 1200 (rectWidth - 40))),
           (canvasLength 150 (Math_min 800 (rectWidth * 0.6))).
    split; [reflexivity|intros t; reflexivity].
Qed.

(** After a resize event on a page whose canvas has a parent, the field
    [lastCanvasSize] holds an object, whatever the sizes are. *)
Lemma onResize_lastCanvasSize w s rectWidth :
  containerWidth w = Some rectWidth ->
  exists width height, lastCanvasSize (onResize w s) = SizeObject width height.
Proof.
  intros Hc. destruct (setupCanvas_result w s rectWidth Hc) as (a & b & H & _).
  unfold onResize. rewrite H. exists a, b.
  destruct (isFullscreen _); reflexivity.
Qed.

Lemma starsNeedRegeneration_onResize w s rectWidth :
  containerWidth w = Some rectWidth ->
  starsNeedRegeneration (onResize w s) = true.
Proof.
  intros Hc. destruct (onResize_lastCanvasSize w s rectWidth Hc) as (a & b & H).
  unfold starsNeedRegeneration. rewrite H.
  destruct (starPositions _); reflexivity.
Qed.

(** The size the canvas gets from a resize event depends on the window
    and on the fullscreen flag only. *)
Lemma onResize_size w s t rectWidth :
  containerWidth w = Some rectWidth ->
  isFullscreen s = isFullscreen t ->
  canvas_width (onResize w s) = canvas_width (onResize w t)
  /\ canvas_height (onResize w s) = canvas_height (onResize w t).
Proof.
  intros Hc Hfs.
  destruct (setupCanvas_result w s rectWidth Hc) as (a & b & _ & H).
  unfold onResize. rewrite (H s), (H t).
  change (isFullscreen (set_lastCanvasSize ?x (set_canvas_height ?y (set_canvas_width ?z ?u))))
    with (isFullscreen u).
  rewrite Hfs. destruct (isFullscreen t); split; reflexivity.
Qed.

Lemma setupCanvas_cases w s :
  setupCanvas w s = s
  \/ exists width height,
       setupCanvas w s
       = set_lastCanvasSize (SizeObject width height)
           (set_canvas_height height (set_canvas_width width s)).
Proof.
  destruct (containerWidth w) as [rectWidth|] eqn:Hc.
  - right. destruct (setupCanvas_result w s rectWidth Hc) as (a & b & H & _).
    eauto.
  - left. unfold setupCanvas. now rewrite Hc.
Qed.

(** A resize event writes the size of the canvas and [lastCanvasSize],
    nothing else. *)
Lemma onResize_frame w s :
  isFullscreen (onResize w s) = isFullscreen s
  /\ starPositions (onResize w s) = starPositions s
  /\ frequencyData (onResize w s) = frequencyData s
  /\ boostedFrequencyData (onResize w s) = boostedFrequencyData s
  /\ smoothedFrequencyData (onResize w s) = smoothedFrequencyData s
  /\ host_randomCalls (onResize w s) = host_randomCalls s.
Proof.
  unfold onResize.
  destruct (setupCanvas_cases w s) as [H|(a & b & H)]; rewrite H;
    match goal with |- context [if ?c then _ else _] => destruct c eqn:E end;
    repeat split; try reflexivity; exact E.
Qed.

Lemma onResize_isFullscreen w s : isFullscreen (onResize w s) = isFullscreen s.
Proof. apply onResize_frame. Qed.

Lemma onResize_starPositions w s : starPositions (onResize w s) = starPositions s.
Proof. apply onResize_frame. Qed.

Lemma onResize_noSpectrum w s : noSpectrum (onResize w s) = noSpectrum s.
Proof.
  unfold noSpectrum.
  destruct (onResize_frame w s) as (_ & _ & H & _). now rewrite H.
Qed.

Lemma onResize_selectData w s : selectData (onResize w s) = selectData s.
Proof.
  unfold selectData.
  destruct (onResize_frame w s) as (_ & _ & Hf & Hb & Hs & _).
  now rewrite Hf, Hb, Hs.
Qed.

Lemma regenerateStars_frame data s :
  canvas_width (regenerateStars data s) = canvas_width s
  /\ canvas_height (regenerateStars data s) = canvas_height s
  /\ isFullscreen (regenerateStars data s) = isFullscreen s
  /\ frequencyData (regenerateStars data s) = frequencyData s
  /\ boostedFrequencyData (regenerateStars data s) = boostedFrequencyData s
  /\ smoothedFrequencyData (regenerateStars data s) = smoothedFrequencyData s
  /\ lastCanvasSize (regenerateStars data s)
     = SizeString (canvas_width s) (canvas_height s)
  /\ starPositions (regenerateStars data s)
     = Some (fst (generateStars (Nat.min (length data) 128)
                    (canvas_width s) (canvas_height s) [] (host_randomCalls s))).
Proof.
  unfold regenerateStars.
  destruct (generateStars _ _ _ _ _) as [stars calls]. now repeat split.
Qed.

Lemma differsFromSizeString_same width height :
  differsFromSizeString (SizeString width height) width height = false.
Proof.
  unfold differsFromSizeString.
  assert (Hw : Qeq_bool width width = true) by (apply Qeq_bool_iff; reflexivity).
  assert (Hh : Qeq_bool height height = true) by (apply Qeq_bool_iff; reflexivity).
  now rewrite Hw, Hh.
Qed.

(** What [drawStarlight] leaves in the fields that decide regeneration. *)
Lemma drawStarlight_fields s :
  noSpectrum s = false ->
  canvas_width (drawStarlight s) = canvas_width s
  /\ canvas_height (drawStarlight s) = canvas_height s
  /\ isFullscreen (drawStarlight s) = isFullscreen s
  /\ noSpectrum (drawStarlight s) = false
  /\ selectData (drawStarlight s) = selectData s
  /\ starsNeedRegeneration (drawStarlight s) = false
  /\ starPositions (drawStarlight s)
     = if starsNeedRegeneration s
       then Some (fst (generateStars (Nat.min (length (selectData s)) 128)
                         (canvas_width s) (canvas_height s) []
                         (host_randomCalls s)))
       else starPositions s.
Proof.
  intros Hs. unfold drawStarlight. rewrite Hs.
  destruct (starsNeedRegeneration s) eqn:Hneed; cbv zeta.
  - destruct (regenerateStars_frame (selectData s) s)
      as (Hw & Hh & Hf & Hfd & Hb & Hsm & Hl & Hp).
    set (r := regenerateStars (selectData s) s) in *.
    change (canvas_width (paint ?o r)) with (canvas_width r).
    change (canvas_height (paint ?o r)) with (canvas_height r).
    change (isFullscreen (paint ?o r)) with (isFullscreen r).
    change (starPositions (paint ?o r)) with (starPositions r).
    repeat split; try assumption.
    + unfold noSpectrum in *.
      change (frequencyData (paint ?o r)) with (frequencyData r).
      now rewrite Hfd.
    + unfold selectData.
      change (boostedFrequencyData (paint ?o r)) with (boostedFrequencyData r).
      change (smoothedFrequencyData (paint ?o r)) with (smoothedFrequencyData r).
      change (frequencyData (paint ?o r)) with (frequencyData r).
      now rewrite Hb, Hsm, Hfd.
    + unfold starsNeedRegeneration.
      change (starPositions (paint ?o r)) with (starPositions r).
      change (lastCanvasSize (paint ?o r)) with (lastCanvasSize r).
      change (canvas_width (paint ?o r)) with (canvas_width r).
      change (canvas_height (paint ?o r)) with (canvas_height r).
      rewrite Hp, Hl, Hw, Hh. apply differsFromSizeString_same.
  - now repeat split.
Qed.

End StarEpoch.

(** C8.  The canvas gets its size from a resize event, a starlight frame
    generates the stars, and a second resize event arrives from the same
    window.  The size of the canvas is what it was and the stars are still
    stored, but [lastCanvasSize] now holds an object, which is never equal
    to the size string: the next starlight frame generates the stars anew
    from fresh random numbers.  Without the second event the frame keeps
    the stars. *)
Theorem resize_to_identical_size_regenerates_stars
    (rectWidth innerW innerH : Q) (s : AudioVisualizer) :
  let w := {| containerWidth := Some rectWidth;
              innerWidth := innerW; innerHeight := innerH |} in
  let drawn := drawStarlight (onResize w s) in
  let again := onResize w drawn in
  noSpectrum s = false ->
  (canvas_width again = canvas_width drawn
   /\ canvas_height again = canvas_height drawn)
  /\ starPositions again = starPositions drawn
  /\ starsNeedRegeneration drawn = false
  /\ starPositions (drawStarlight drawn) = starPositions drawn
  /\ starsNeedRegeneration again = true
  /\ starPositions (drawStarlight again)
     = Some (fst (generateStars (Nat.min (length (selectData drawn)) 128)
                    (canvas_width drawn) (canvas_height drawn) []
                    (host_randomCalls drawn))).
Proof.
  intros w drawn again Hs.
  assert (Hc : containerWidth w = Some rectWidth) by reflexivity.
  assert (Hs1 : noSpectrum (onResize w s) = false)
    by (now rewrite onResize_noSpectrum).
  destruct (drawStarlight_fields (onResize w s) Hs1)
    as (Hw & Hh & Hf & Hns & Hsel & Hstable & Hpos).
  fold drawn in Hw, Hh, Hf, Hns, Hsel, Hstable, Hpos.
  assert (Hfs : isFullscreen drawn = isFullscreen s)
    by (now rewrite Hf, onResize_isFullscreen).
  destruct (onResize_size w drawn s rectWidth Hc Hfs) as (Hw2 & Hh2).
  fold again in Hw2, Hh2.
  assert (Hneed : starsNeedRegeneration again = true)
    by (now apply starsNeedRegeneration_onResize with rectWidth).
  assert (Hns2 : noSpectrum again = false)
    by (unfold again; now rewrite onResize_noSpectrum).
  repeat split.
  - now rewrite Hw2, Hw.
  - now rewrite Hh2, Hh.
  - apply onResize_starPositions.
  - exact Hstable.
  - destruct (drawStarlight_fields drawn Hns) as (_ & _ & _ & _ & _ & _ & H).
    now rewrite Hstable in H.
  - exact Hneed.
  - destruct (drawStarlight_fields again Hns2) as (_ & _ & _ & _ & _ & _ & H).
    rewrite Hneed in H. rewrite H.
    assert (Hsel2 : selectData again = selectData drawn)
      by apply onResize_selectData.
    assert (Hcalls : host_randomCalls again = host_randomCalls drawn)
      by apply onResize_frame.
    rewrite Hsel2, Hcalls.
    assert (Ew : canvas_width again = canvas_width drawn) by (now rewrite Hw2, Hw).
    assert (Eh : canvas_height again = canvas_height drawn) by (now rewrite Hh2, Hh).
    now rewrite Ew, Eh.
Qed.

(** ** What drawing leaves alone *)

Section DrawingFrame.

Ltac split_conditions :=
  repeat match goal with
         | |- context [if ?c then _ else _] => destruct c
         | |- context [match ?c with Some _ => _ | None => _ end] => destruct c
         end.

Lemma drawWaveform_views s :
  outsideDrawing (drawWaveform s) = outsideDrawing s
  /\ starStore (drawWaveform s) = starStore s
  /\ rainStore (drawWaveform s) = rainStore s
  /\ trailStore (drawWaveform s) = trailStore s.
Proof. unfold drawWaveform. split_conditions; now repeat split. Qed.

Lemma drawCircular_views s :
  outsideDrawing (drawCircular s) = outsideDrawing s
  /\ starStore (drawCircular s) = starStore s
  /\ rainStore (drawCircular s) = rainStore s
  /\ trailStore (drawCircular s) = trailStore s.
Proof. unfold drawCircular. split_conditions; now repeat split. Qed.

Lemma drawFrequencyBars2x_views s :
  outsideDrawing (drawFrequencyBars2x s) = outsideDrawing s
  /\ starStore (drawFrequencyBars2x s) = starStore s
  /\ rainStore (drawFrequencyBars2x s) = rainStore s
  /\ trailStore (drawFrequencyBars2x s) = trailStore s.
Proof. unfold drawFrequencyBars2x. split_conditions; now repeat split. Qed.

Lemma drawFrequencyBars4x_views s :
  outsideDrawing (drawFrequencyBars4x s) = outsideDrawing s
  /\ starStore (drawFrequencyBars4x s) = starStore s
  /\ rainStore (drawFrequencyBars4x s) = rainStore s
  /\ trailStore (drawFrequencyBars4x s) = trailStore s.
Proof. unfold drawFrequencyBars4x. split_conditions; now repeat split. Qed.

Lemma bars3xBody_views now data i bin s :
  outsideDrawing (bars3xBody now data i bin s) = outsideDrawing s
  /\ starStore (bars3xBody now data i bin s) = starStore s
  /\ trailStore (bars3xBody now data i bin s) = trailStore s.
Proof. unfold bars3xBody. cbv zeta. split_conditions; now repeat split. Qed.

Lemma bars3xLoop_views now data rest : forall i s,
  outsideDrawing (bars3xLoop now data i rest s) = outsideDrawing s
  /\ starStore (bars3xLoop now data i rest s) = starStore s
  /\ trailStore (bars3xLoop now data i rest s) = trailStore s.
Proof.
  induction rest as [|bin rest IH]; intros i s; simpl; [now repeat split|].
  destruct (IH (S i) (bars3xBody now data i bin s)) as (H1 & H2 & H3).
  destruct (bars3xBody_views now data i bin s) as (B1 & B2 & B3).
  rewrite H1, H2, H3. now repeat split.
Qed.

Lemma drawFrequencyBars3x_views now s :
  outsideDrawing (drawFrequencyBars3x now s) = outsideDrawing s
  /\ starStore (drawFrequencyBars3x now s) = starStore s
  /\ trailStore (drawFrequencyBars3x now s) = trailStore s.
Proof.
  unfold drawFrequencyBars3x. destruct (noSpectrum s); [now repeat split|].
  cbv zeta.
  destruct (bars3xLoop_views now (selectData s) (selectData s) 0 s)
    as (H1 & H2 & H3).
  rewrite <- H1, <- H2, <- H3. now repeat split.
Qed.

Lemma circlesBody_views data count i s :
  outsideDrawing (circlesBody data count i s) = outsideDrawing s
  /\ starStore (circlesBody data count i s) = starStore s
  /\ rainStore (circlesBody data count i s) = rainStore s.
Proof. now repeat split. Qed.

Lemma drawCircles_views s :
  outsideDrawing (drawCircles s) = outsideDrawing s
  /\ starStore (drawCircles s) = starStore s
  /\ rainStore (drawCircles s) = rainStore s.
Proof.
  unfold drawCircles. destruct (noSpectrum s); [now repeat split|].
  cbv zeta.
  set (data := selectData s). set (count := Nat.min (length data) 64).
  assert (Hfold : forall indices t,
            outsideDrawing (fold_left (fun s i => circlesBody data count i s) indices t)
            = outsideDrawing t
            /\ starStore (fold_left (fun s i => circlesBody data count i s) indices t)
               = starStore t
            /\ rainStore (fold_left (fun s i => circlesBody data count i s) indices t)
               = rainStore t).
  { induction indices as [|i indices IH]; intros t; simpl; [now repeat split|].
    destruct (IH (circlesBody data count i t)) as (H1 & H2 & H3).
    rewrite H1, H2, H3. apply circlesBody_views. }
  destruct (previousCirclePositions s).
  - apply Hfold.
  - destruct (Hfold (seq 0 count)
                (set_previousCirclePositions
                   (Some (repeat (canvas_width s / 2, canvas_height s / 2) count)) s))
      as (H1 & H2 & H3).
    rewrite H1, H2, H3. now repeat split.
Qed.

Lemma drawStarlight_views s :
  outsideDrawing (drawStarlight s) = outsideDrawing s
  /\ rainStore (drawStarlight s) = rainStore s
  /\ trailStore (drawStarlight s) = trailStore s.
Proof.
  unfold drawStarlight. destruct (noSpectrum s); [now repeat split|].
  destruct (starsNeedRegeneration s); [|now repeat split].
  cbv zeta. unfold regenerateStars.
  destruct (generateStars _ _ _ _ _) as [stars calls]. now repeat split.
Qed.

Lemma drawRetroBox_views now s :
  outsideDrawing (drawRetroBox now s) = outsideDrawing s
  /\ starStore (drawRetroBox now s) = starStore s
  /\ rainStore (drawRetroBox now s) = rainStore s
  /\ trailStore (drawRetroBox now s) = trailStore s.
Proof. unfold drawRetroBox. cbv zeta. split_conditions; now repeat split. Qed.

Lemma draw_views (now : Z) (s : AudioVisualizer) :
  outsideDrawing (draw now s) = outsideDrawing s /\
  (visualType s <> "frequency3x"%string -> rainStore (draw now s) = rainStore s) /\
  (visualType s <> "starlight"%string -> starStore (draw now s) = starStore s) /\
  (visualType s <> "circles"%string -> trailStore (draw now s) = trailStore s).
Proof.
  unfold draw.
  change (visualType (clearRect s)) with (visualType s).
  change (outsideDrawing s) with (outsideDrawing (clearRect s)).
  change (rainStore s) with (rainStore (clearRect s)).
  change (starStore s) with (starStore (clearRect s)).
  change (trailStore s) with (trailStore (clearRect s)).
  generalize (clearRect s) as t. intros t.
  destruct (String.eqb_spec (visualType s) "waveform") as [E|_].
  { destruct (drawWaveform_views t) as (H1 & H2 & H3 & H4). now repeat split. }
  destruct (String.eqb_spec (visualType s) "circular") as [E|_].
  { destruct (drawCircular_views t) as (H1 & H2 & H3 & H4). now repeat split. }
  destruct (String.eqb_spec (visualType s) "frequency2x") as [E|_].
  { destruct (drawFrequencyBars2x_views t) as (H1 & H2 & H3 & H4).
    now repeat split. }
  destruct (String.eqb_spec (visualType s) "frequency3x") as [E|_].
  { destruct (drawFrequencyBars3x_views now t) as (H1 & H2 & H3).
    repeat split; intros; first [assumption | contradiction]. }
  destruct (String.eqb_spec (visualType s) "frequency4x") as [E|_].
  { destruct (drawFrequencyBars4x_views t) as (H1 & H2 & H3 & H4).
    now repeat split. }
  destruct (String.eqb_spec (visualType s) "circles") as [E|_].
  { destruct (drawCircles_views t) as (H1 & H2 & H3).
    repeat split; intros; first [assumption | contradiction]. }
  destruct (String.eqb_spec (visualType s) "starlight") as [E|_].
  { destruct (drawStarlight_views t) as (H1 & H2 & H3).
    repeat split; intros; first [assumption | contradiction]. }
  destruct (String.eqb_spec (visualType s) "retroBox") as [E|_].
  { destruct (drawRetroBox_views now t) as (H1 & H2 & H3 & H4).
    now repeat split. }
  now repeat split.
Qed.

End DrawingFrame.

(** X18.  Drawing never touches the audio graph, the buffers, the
    configuration, the frame-rate gate, the canvas size or the browser
    resources; and each store belongs to one mode: outside [frequency3x]
    the raindrops and their timers, outside [starlight] the stars with the
    size they were generated for and the random-number count, outside
    [circles] the trail positions are left as they are. *)
Theorem drawing_touches_only_its_own_stores (now : Z) (s : AudioVisualizer) :
  outsideDrawing (draw now s) = outsideDrawing s /\
  (visualType s <> "frequency3x"%string -> rainStore (draw now s) = rainStore s) /\
  (visualType s <> "starlight"%string -> starStore (draw now s) = starStore s) /\
  (visualType s <> "circles"%string -> trailStore (draw now s) = trailStore s).
Proof. apply draw_views. Qed.

(** ** Frames and the gate *)

Section FrameGate.

Ltac open_state s :=
  destruct s as [ac an mic gn ip aid ss cw ch co da fd sm bo se vt fs rd lrt
                 ri brt tf lft lcs sp sz pcp fmh fkh ht hc hn hh hr].

Lemma stopVisualizer_not_scheduled s :
  animationId (stopVisualizer s) = None /\ isPlaying (stopVisualizer s) = false.
Proof. open_state s. destruct aid, mic, ac, ss, fmh; split; reflexivity. Qed.

Lemma stopScreenShare_fields s :
  animationId (stopScreenShare s) = None
  /\ screenShare (stopScreenShare s) = None
  /\ isPlaying (stopScreenShare s) = isPlaying s
  /\ analyser (stopScreenShare s) = analyser s
  /\ audioContext (stopScreenShare s) = audioContext s
  /\ microphone (stopScreenShare s) = microphone s
  /\ host_contexts (stopScreenShare s) = host_contexts s
  /\ host_tracks (stopScreenShare s) = host_tracks s.
Proof.
  unfold stopScreenShare, stopVisualization.
  destruct (screenShare s) eqn:Es; cbn [animationId set_screenShare];
    destruct (animationId s) eqn:Ea; cbn; rewrite ?Es, ?Ea; now repeat split.
Qed.

Lemma outsideDrawing_gate a b :
  outsideDrawing a = outsideDrawing b ->
  isPlaying a = isPlaying b /\ analyser a = analyser b
  /\ lastFrameTime a = lastFrameTime b /\ targetFPS a = targetFPS b
  /\ frequencyData a = frequencyData b /\ dataArray a = dataArray b
  /\ smoothedFrequencyData a = smoothedFrequencyData b
  /\ boostedFrequencyData a = boostedFrequencyData b.
Proof.
  unfold outsideDrawing. intros H. injection H. intros. now repeat split.
Qed.

Lemma conditionSpectrum_gate input s :
  isPlaying (conditionSpectrum input s) = isPlaying s
  /\ analyser (conditionSpectrum input s) = analyser s
  /\ lastFrameTime (conditionSpectrum input s) = lastFrameTime s
  /\ targetFPS (conditionSpectrum input s) = targetFPS s.
Proof.
  unfold conditionSpectrum. destruct (0 <? _)%nat; now repeat split.
Qed.

Lemma drawing_frame_gate now s :
  isPlaying (draw now s) = isPlaying s /\ analyser (draw now s) = analyser s
  /\ lastFrameTime (draw now s) = lastFrameTime s
  /\ targetFPS (draw now s) = targetFPS s.
Proof.
  destruct (draw_views now s) as (H & _).
  destruct (outsideDrawing_gate _ _ H) as (H1 & H2 & H3 & H4 & _).
  now repeat split.
Qed.

Lemma animate_gate input s :
  frameProcessed input s = true ->
  isPlaying (animate input s) = true /\ analyser (animate input s) = true
  /\ lastFrameTime (animate input s) = timestamp input
  /\ targetFPS (animate input s) = targetFPS s.
Proof.
  intros Hp. rewrite (animate_processed input s Hp).
  set (c := conditionSpectrum input (set_lastFrameTime (timestamp input) s)).
  destruct (drawing_frame_gate (now input) c) as (H1 & H2 & H3 & H4).
  destruct (conditionSpectrum_gate input (set_lastFrameTime (timestamp input) s))
    as (C1 & C2 & C3 & C4). fold c in C1, C2, C3, C4.
  unfold frameProcessed in Hp.
  apply andb_true_iff in Hp as [Hp _]. apply andb_true_iff in Hp as [Hp Ha].
  change (isPlaying (requestAnimationFrame ?t)) with (isPlaying t).
  change (analyser (requestAnimationFrame ?t)) with (analyser t).
  change (lastFrameTime (requestAnimationFrame ?t)) with (lastFrameTime t).
  change (targetFPS (requestAnimationFrame ?t)) with (targetFPS t).
  rewrite H1, H2, H3, H4, C1, C2, C3, C4. now repeat split.
Qed.

End FrameGate.

(** X19.  No frame after a stop.  After [stopVisualizer], and after the
    end of a screen share, no callback is pending, so a frame event
    changes nothing; a stale callback that ran after [stopVisualizer]
    would return at once.  The end of a screen share drops the source
    node but, unlike the stop button, leaves the visualizer marked as
    playing, with its analyser, its audio context and the tracks as they
    were. *)
Theorem no_frame_after_stop (input : FrameInput) (s : AudioVisualizer) :
  step (AnimationFrame input) (stopVisualizer s) = stopVisualizer s /\
  animate input (stopVisualizer s) = stopVisualizer s /\
  step (AnimationFrame input) (stopScreenShare s) = stopScreenShare s /\
  screenShare (stopScreenShare s) = None /\
  isPlaying (stopScreenShare s) = isPlaying s /\
  analyser (stopScreenShare s) = analyser s /\
  audioContext (stopScreenShare s) = audioContext s /\
  host_contexts (stopScreenShare s) = host_contexts s /\
  host_tracks (stopScreenShare s) = host_tracks s.
Proof.
  destruct (stopVisualizer_not_scheduled s) as [Hid Hp].
  destruct (stopScreenShare_fields s) as (Ha & Hs & Hpl & Han & Hc & _ & Hh & Ht).
  repeat apply conj; try assumption.
  - unfold step. now rewrite Hid.
  - unfold animate. now rewrite Hp.
  - unfold step. now rewrite Ha.
Qed.

(** X20.  The frame-rate gate.  After a frame that was processed at a
    non-zero timestamp, a callback that arrives less than
    [1000 / targetFPS] milliseconds later only schedules the next callback
    (nothing is sampled, conditioned or drawn), and a callback that
    arrives at least that much later is processed.  A frame processed at
    timestamp 0 leaves [lastFrameTime] falsy, so the next callback is
    processed whenever it arrives. *)
Theorem frame_rate_gate (first second : FrameInput) (s : AudioVisualizer) :
  frameProcessed first s = true ->
  let s1 := animate first s in
  (~ timestamp first == 0 ->
   timestamp second - timestamp first < 1000 / targetFPS s ->
   animate second s1 = requestAnimationFrame s1) /\
  (~ timestamp first == 0 ->
   1000 / targetFPS s <= timestamp second - timestamp first ->
   frameProcessed second s1 = true) /\
  (timestamp first == 0 -> frameProcessed second s1 = true).
Proof.
  intros Hp s1.
  destruct (animate_gate first s Hp) as (H1 & H2 & H3 & H4).
  fold s1 in H1, H2, H3, H4.
  assert (Hz : forall b, Qeq_bool (timestamp first) 0 = b ->
                         Qeq_bool (lastFrameTime s1) 0 = b)
    by (intros b; now rewrite H3).
  repeat apply conj.
  - intros Hnz Hearly. unfold animate. rewrite H1, H2, H3, H4. cbn [negb orb].
    assert (E : Qeq_bool (timestamp first) 0 = false).
    { destruct (Qeq_bool (timestamp first) 0) eqn:E; [|reflexivity].
      apply Qeq_bool_iff in E. contradiction. }
    rewrite E. cbn [negb andb].
    apply Qltb_lt in Hearly. now rewrite Hearly.
  - intros Hnz Hlate. unfold frameProcessed. rewrite H1, H2, H3, H4.
    apply Qltb_ge in Hlate. rewrite Hlate. now rewrite andb_false_r.
  - intros Hzero. unfold frameProcessed. rewrite H1, H2, H3, H4.
    apply Qeq_bool_iff in Hzero. now rewrite Hzero.
Qed.

(** X21.  An identifier that is none of the eight modes paints nothing:
    the frame clears the canvas and changes nothing else. *)
Theorem unknown_mode_paints_nothing (now : Z) (s : AudioVisualizer) :
  ~ In (visualType s)
       ["waveform"; "circular"; "frequency2x"; "frequency3x"; "frequency4x";
        "circles"; "starlight"; "retroBox"]%string ->
  draw now s = clearRect s /\ canvas_ops (draw now s) = [].
Proof.
  intros Hnot. unfold draw.
  change (visualType (clearRect s)) with (visualType s).
  repeat match goal with
         | |- context [String.eqb (visualType s) ?m] =>
             destruct (String.eqb_spec (visualType s) m) as [E|_];
             [exfalso; apply Hnot; rewrite E; simpl; tauto|]
         end.
  split; reflexivity.
Qed.

(** ** Stars inside the canvas *)

Section StarBounds.

Hypothesis Math_random_range : forall k, 0 <= Math_random k /\ Math_random k < 1.

Lemma placeStar_inset retries : forall existing w h calls,
  100 <= w -> 100 <= h ->
  let star := fst (placeStar retries existing w h calls) in
  (50 <= Star.x star /\ Star.x star <= w - 50)
  /\ (50 <= Star.y star /\ Star.y star <= h - 50)
  /\ (1 <= Star.size star /\ Star.size star < 4).
Proof.
  induction retries as [|r IH]; intros existing w h calls Hw Hh.
  - simpl.
    destruct (Math_random_range calls), (Math_random_range (calls + 1)),
      (Math_random_range (calls + 2)).
    repeat split; nra.
  - simpl.
    destruct (isOverlapping existing (Math_random calls * (w - 100) + 50)
                (Math_random (calls + 1) * (h - 100) + 50)
                (Math_random (calls + 2) * 3 + 1)).
    + now apply IH.
    + simpl.
      destruct (Math_random_range calls), (Math_random_range (calls + 1)),
        (Math_random_range (calls + 2)).
      repeat split; nra.
Qed.

End StarBounds.

Section RandomBudget.

Lemma placeStar_calls retries : forall existing w h calls,
  (calls + 3 <= snd (placeStar retries existing w h calls)
   <= calls + 3 * (retries + 1))%nat.
Proof.
  induction retries as [|r IH]; intros existing w h calls; simpl.
  - lia.
  - destruct (isOverlapping existing (Math_random calls * (w - 100) + 50)
                (Math_random (calls + 1) * (h - 100) + 50)
                (Math_random (calls + 2) * 3 + 1)).
    + specialize (IH existing w h (calls + 3)%nat). lia.
    + simpl. lia.
Qed.

Lemma generateStars_calls n : forall w h existing calls,
  (calls + 3 * n <= snd (generateStars n w h existing calls)
   <= calls + 300 * n)%nat.
Proof.
  induction n as [|n IH]; intros w h existing calls.
  - simpl. lia.
  - rewrite generateStars_succ.
    pose proof (placeStar_calls 99 existing w h calls) as Hp.
    specialize (IH w h (existing ++ [fst (placeStar 99 existing w h calls)])
                  (snd (placeStar 99 existing w h calls))).
    lia.
Qed.

End RandomBudget.

(** X22.  When [Math.random] returns numbers in [0, 1) and the canvas is
    at least 100 pixels wide and high, every star generated lies at least
    50 pixels inside each edge of the canvas and has a size of at least 1
    and less than 4. *)
Theorem stars_lie_inside_the_canvas (data : list Q) (s : AudioVisualizer) :
  (forall k, 0 <= Math_random k /\ Math_random k < 1) ->
  100 <= canvas_width s -> 100 <= canvas_height s ->
  Forall (fun star =>
            (50 <= Star.x star /\ Star.x star <= canvas_width s - 50)
            /\ (50 <= Star.y star /\ Star.y star <= canvas_height s - 50)
            /\ (1 <= Star.size star /\ Star.size star < 4))
         (default [] (starPositions (regenerateStars data s))).
Proof.
  intros Hrange Hw Hh.
  destruct (regenerateStars_frame data s) as (_ & _ & _ & _ & _ & _ & _ & Hp).
  rewrite Hp. change (default [] (Some ?x)) with x.
  apply Forall_lookup. intros j star Hj.
  destruct (generateStars_lookup _ _ _ [] _ j star ltac:(simpl; lia) Hj)
    as [calls ->].
  now apply placeStar_inset.
Qed.

(** X23.  The random-number budget of the star mode.  A regeneration of
    [n] stars makes at least [3 n] and at most [300 n] calls of
    [Math.random] (three per attempt, at most 100 attempts per star); a
    starlight frame that does not regenerate makes none. *)
Theorem star_mode_random_budget (data : list Q) (s : AudioVisualizer) :
  let n := Nat.min (length data) 128 in
  (host_randomCalls s + 3 * n <= host_randomCalls (regenerateStars data s)
   <= host_randomCalls s + 300 * n)%nat /\
  (starsNeedRegeneration s = false ->
   starStore (drawStarlight s) = starStore s) /\
  (starsNeedRegeneration s = true -> noSpectrum s = false ->
   starStore (drawStarlight s) = starStore (regenerateStars (selectData s) s)).
Proof.
  intros n. split; [|split].
  - unfold regenerateStars. fold n.
    pose proof (generateStars_calls n (canvas_width s) (canvas_height s) []
                  (host_randomCalls s)) as H.
    destruct (generateStars n _ _ _ _) as [stars calls]. exact H.
  - intros Hno. unfold drawStarlight. rewrite Hno.
    destruct (noSpectrum s); reflexivity.
  - intros Hyes Hs. unfold drawStarlight. rewrite Hyes, Hs. reflexivity.
Qed.

(** ** The retro equalizer inside its data *)

Section RetroBounds.

Lemma retro_index_in_bounds (maxBars len i : nat) :
  (i < maxBars)%nat -> (0 < len)%nat ->
  (Z.to_nat (Math_floor ((num i / num maxBars) * num len)) < len)%nat.
Proof.
  intros Hi Hlen. unfold Math_floor.
  assert (Hm : 0 < num maxBars).
  { change 0 with (num 0). apply num_lt. lia. }
  assert (Hl : 0 < num len).
  { change 0 with (num 0). apply num_lt. lia. }
  assert (Hq : num i / num maxBars < 1).
  { apply Qlt_shift_div_r; [exact Hm|]. rewrite Qmult_1_l. apply num_lt. exact Hi. }
  assert (Hq0 : 0 <= num i / num maxBars).
  { apply Qle_shift_div_l; [exact Hm|]. rewrite Qmult_0_l.
    change 0 with (num 0). apply num_le. lia. }
  assert (Hlt : num i / num maxBars * num len < num len) by nra.
  assert (H0 : 0 <= num i / num maxBars * num len) by nra.
  assert (Hf : (Qfloor (num i / num maxBars * num len) < Z.of_nat len)%Z).
  { rewrite Zlt_Qlt.
    pose proof (Qfloor_le (num i / num maxBars * num len)) as Hfl.
    unfold num in *. lra. }
  lia.
Qed.

End RetroBounds.

(** X24.  The retro equalizer paints the backdrop, [floor(width / 12)]
    bars 12 pixels apart and the decoration; every bar reads its value
    inside the data array; the bar is as long as its lower end is below
    its upper end, [value / 255 * 0.8 * height * 0.6 + 10], which for a
    spectrum in byte range is at least 10 and at most [10 + 0.48 * height].
    With an empty data array only the backdrop is painted. *)
Theorem retro_bars_stay_inside_the_data (now : Z) (s : AudioVisualizer) :
  let data := retroData s in
  let maxBars := Z.to_nat (Math_floor (canvas_width s / (8 + 4))) in
  (data = [] ->
   canvas_ops (drawRetroBox now s)
   = canvas_ops s ++ [RetroBackdrop (canvas_width s) (canvas_height s)]) /\
  (data <> [] ->
   canvas_ops (drawRetroBox now s)
   = (canvas_ops s ++ [RetroBackdrop (canvas_width s) (canvas_height s)])
     ++ map (retroBar now s data maxBars) (seq 0 maxBars)
     ++ [RetroDecoration (canvas_width s) (canvas_height s)]) /\
  (data <> [] ->
   forall i, (i < maxBars)%nat ->
     let index :=
       Z.to_nat (Math_floor ((num i / num maxBars) * num (length data))) in
     (index < length data)%nat /\
     exists x startY barLength endY,
       retroBar now s data maxBars i = RetroBar x startY 8 barLength endY
       /\ x == 12 * num i
       /\ barLength == at_ data index / 255 * (canvas_height s * 0.8) * 0.6 + 10
       /\ endY - startY == barLength
       /\ (inByteRange data -> 0 <= canvas_height s ->
           10 <= barLength /\ barLength <= 10 + 0.48 * canvas_height s)).
Proof.
  intros data maxBars. repeat apply conj.
  - intros He. unfold drawRetroBox. cbv zeta.
    change (retroData (paint ?ops s)) with (retroData s). fold data.
    rewrite He. reflexivity.
  - intros Hne. unfold drawRetroBox. cbv zeta.
    change (retroData (paint ?ops s)) with (retroData s). fold data.
    destruct data as [|d data']; [contradiction|]. reflexivity.
  - intros Hne i Hi index.
    assert (Hlen : (0 < length data)%nat).
    { destruct data; [contradiction|simpl; lia]. }
    assert (Hidx : (index < length data)%nat)
      by (now apply retro_index_in_bounds).
    split; [exact Hidx|].
    eexists _, _, _, _. split; [reflexivity|].
    fold index. repeat apply conj.
    + ring.
    + reflexivity.
    + field.
    + intros Hrange Hh.
      destruct (inByteRange_at_early data index Hrange Hidx) as [H0 H1].
      set (v := at_ data index) in *. set (h := canvas_height s) in *.
      assert (E : v / 255 * (h * 0.8) * 0.6 + 10 == (v * h) * (4 # 2125) + 10)
        by field.
      assert (Hp0 : 0 <= v * h) by (now apply Qmult_le_0_compat).
      assert (Hp1 : v * h <= 255 * h) by (now apply Qmult_le_compat_r).
      rewrite E. split; lra.
Qed.

(** ** The circle mode *)

Lemma arraySet_spec {A} (i : nat) (v : A) (l : list A) :
  (i <= length l)%nat ->
  length (arraySet i v l) = Nat.max (length l) (S i)
  /\ arraySet i v l !! i = Some v
  /\ (forall j, j <> i -> arraySet i v l !! j = l !! j).
Proof.
  intros Hi. unfold arraySet.
  destruct (Nat.ltb_spec i (length l)) as [Hlt|Hge].
  - rewrite length_insert. split; [lia|]. split.
    + apply list_lookup_insert_eq. exact Hlt.
    + intros j Hj. apply list_lookup_insert_ne. congruence.
  - assert (i = length l) by lia. subst i.
    rewrite length_app. simpl. split; [lia|]. split.
    + rewrite lookup_app_r by lia. now rewrite Nat.sub_diag.
    + intros j Hj. destruct (Nat.lt_ge_cases j (length l)).
      * now rewrite lookup_app_l.
      * rewrite lookup_app_r by lia.
        destruct (j - length l)%nat eqn:E; [lia|]. simpl.
        symmetry. apply lookup_ge_None. lia.
Qed.

Lemma circleTrail_length prevPos x y circleSize hue saturation lightness :
  (length (circleTrail prevPos x y circleSize hue saturation lightness) <= 10)%nat.
Proof.
  unfold circleTrail. cbv zeta. rewrite length_map, length_seq.
  set (trailLength := Math_min 20 _).
  assert (H : (Math_floor (Math_min 10 (inject_Z (Math_floor (trailLength / 2))))
               <= 10)%Z).
  { unfold Math_floor at 1. change 10%Z with (Qfloor 10) at 2.
    apply Qfloor_resp_le. apply Q.le_min_l. }
  lia.
Qed.

Lemma circlesBody_shape data count i s t :
  outsideDrawing t = outsideDrawing s ->
  previousCirclePositions (circlesBody data count i t)
  = Some (arraySet i (circlePosition data count i s)
            (default [] (previousCirclePositions t)))
  /\ exists ops,
       canvas_ops (circlesBody data count i t) = canvas_ops t ++ ops
       /\ paintsCircle data count i s
            (default [] (previousCirclePositions t) !! i) ops.
Proof.
  intros Hout.
  assert (Hg : canvas_width t = canvas_width s
               /\ canvas_height t = canvas_height s
               /\ sensitivity t = sensitivity s).
  { unfold outsideDrawing in Hout. injection Hout. intros.
    repeat split; assumption. }
  destruct Hg as (Hw & Hh & Hs).
  unfold circlesBody, paintsCircle, circlePosition. cbv zeta.
  rewrite Hw, Hh, Hs.
  split; [reflexivity|].
  eexists. split; [unfold paint; reflexivity|].
  cbn [fst snd].
  set (value := at_ data i * sensitivity s).
  do 4 eexists. split; [reflexivity|].
  split.
  { destruct (default [] (previousCirclePositions t) !! i) as [p|];
      [|simpl; lia].
    destruct (_ || _); [apply circleTrail_length|simpl; lia]. }
  split.
  { intros Hle. unfold Qgtb, Qltb.
    apply Qle_bool_iff in Hle. now rewrite Hle. }
  split.
  { intros Hlt. unfold Qgtb, Qltb.
    destruct (Qle_bool value 128) eqn:E; [|reflexivity].
    apply Qle_bool_iff in E. exfalso. apply (Qlt_not_le _ _ Hlt E). }
  split.
  { intros ->. reflexivity. }
  intros p -> Hx Hy.
  apply Qeq_bool_iff in Hx. apply Qeq_bool_iff in Hy.
  now rewrite Hx, Hy.
Qed.

Lemma circles_loop data count s : forall k,
  let t := fold_left (fun s i => circlesBody data count i s) (seq 0 k) s in
  let store0 := default [] (previousCirclePositions s) in
  let store := default [] (previousCirclePositions t) in
  outsideDrawing t = outsideDrawing s
  /\ length store = Nat.max (length store0) k
  /\ (forall i, (i < k)%nat -> store !! i = Some (circlePosition data count i s))
  /\ (forall i, (k <= i)%nat -> store !! i = store0 !! i)
  /\ exists painted,
       canvas_ops t = canvas_ops s ++ concat painted
       /\ length painted = k
       /\ forall i, (i < k)%nat ->
            exists ops, painted !! i = Some ops
                        /\ paintsCircle data count i s (store0 !! i) ops.
Proof.
  induction k as [|k IH].
  - simpl. split; [reflexivity|]. split; [lia|]. split; [intros i Hi; lia|].
    split; [reflexivity|]. exists []. simpl. rewrite app_nil_r.
    split; [reflexivity|]. split; [reflexivity|]. intros i Hi. lia.
  - rewrite seq_S, fold_left_app. cbn [fold_left Nat.add].
    cbv zeta in IH.
    set (t := fold_left (fun s i => circlesBody data count i s) (seq 0 k) s) in *.
    destruct IH as (Hout & Hlen & Hset & Hrest & painted & Hops & Hpl & Hp).
    destruct (circlesBody_shape data count k s t Hout)
      as (Hstore & ops & Hcanvas & Hpaint).
    destruct (arraySet_spec k (circlePosition data count k s)
                (default [] (previousCirclePositions t)) ltac:(lia))
      as (Hl & Hk & Hne).
    cbv zeta. rewrite Hstore. change (default [] (Some ?x)) with x.
    split.
    { rewrite <- Hout. apply circlesBody_views. }
    split; [lia|].
    split.
    { intros i Hi. destruct (Nat.eq_dec i k) as [->|Hik]; [exact Hk|].
      rewrite Hne by exact Hik. apply Hset. lia. }
    split.
    { intros i Hi. rewrite Hne by lia. apply Hrest. lia. }
    exists (painted ++ [ops]).
    split.
    { rewrite Hcanvas, Hops, concat_app. simpl.
      now rewrite app_nil_r, app_assoc. }
    split; [rewrite length_app; simpl; lia|].
    intros i Hi. destruct (Nat.eq_dec i k) as [->|Hik].
    + exists ops. split.
      * rewrite lookup_app_r by lia. rewrite Hpl, Nat.sub_diag. reflexivity.
      * rewrite <- (Hrest k) by lia. exact Hpaint.
    + destruct (Hp i ltac:(lia)) as (ops' & Hl' & Hp').
      exists ops'. split; [|exact Hp'].
      rewrite lookup_app_l by lia. exact Hl'.
Qed.

Lemma drawCircles_frame s :
  noSpectrum s = false ->
  let data := selectData s in
  let count := Nat.min (length data) 64 in
  let store0 :=
    match previousCirclePositions s with
    | Some store => store
    | None => repeat (canvas_width s / 2, canvas_height s / 2) count
    end in
  let store := default [] (previousCirclePositions (drawCircles s)) in
  (exists painted,
     canvas_ops (drawCircles s) = canvas_ops s ++ concat painted
     /\ length painted = count
     /\ forall i, (i < count)%nat ->
          exists ops, painted !! i = Some ops
                      /\ paintsCircle data count i s (store0 !! i) ops)
  /\ (forall i, (i < count)%nat ->
       store !! i = Some (circlePosition data count i s))
  /\ length store = Nat.max (length store0) count.
Proof.
  intros Hspec data count store0 store.
  unfold store, drawCircles. rewrite Hspec. cbv zeta. fold data count.
  destruct (previousCirclePositions s) as [st|] eqn:Eprev.
  - destruct (circles_loop data count s count)
      as (_ & Hlen & Hset & _ & painted & Hops & Hpl & Hp).
    rewrite Eprev in Hlen, Hp. change (default [] (Some st)) with st in Hlen, Hp.
    split; [exists painted; repeat apply conj; assumption|].
    split; [exact Hset|exact Hlen].
  - set (s0 := set_previousCirclePositions
                 (Some (repeat (canvas_width s / 2, canvas_height s / 2) count)) s).
    destruct (circles_loop data count s0 count)
      as (_ & Hlen & Hset & _ & painted & Hops & Hpl & Hp).
    change (default [] (previousCirclePositions s0))
      with (repeat (canvas_width s / 2, canvas_height s / 2) count) in Hlen, Hp.
    split; [exists painted; repeat apply conj; assumption|].
    split; [exact Hset|exact Hlen].
Qed.

(** X26.  A frame of the circle mode paints the circles 0 to
    [min(data.length, 64) - 1] in this order.  Circle [i] paints at most
    ten trail discs, then its disc at
    [centre + (cos, sin)(i * angleStep) * value / 255 * maxRadius] with
    radius [value / 255 * 8 + 2] and hue [value + 200], then a glow exactly
    when the scaled value exceeds 128; it paints no trail when the store
    holds no previous position for it or holds the position it is at.
    After the frame the store holds the position of every circle, and it
    is as long as before unless it was shorter than the number of circles;
    a store that did not exist is created with the centre in every cell. *)
Theorem circles_frame (s : AudioVisualizer) :
  noSpectrum s = false ->
  let data := selectData s in
  let count := Nat.min (length data) 64 in
  let store0 :=
    match previousCirclePositions s with
    | Some store => store
    | None => repeat (canvas_width s / 2, canvas_height s / 2) count
    end in
  let store := default [] (previousCirclePositions (drawCircles s)) in
  (exists painted,
     canvas_ops (drawCircles s) = canvas_ops s ++ concat painted
     /\ length painted = count
     /\ forall i, (i < count)%nat ->
          exists ops, painted !! i = Some ops
                      /\ paintsCircle data count i s (store0 !! i) ops)
  /\ (forall i, (i < count)%nat ->
       store !! i = Some (circlePosition data count i s))
  /\ length store = Nat.max (length store0) count.
Proof. exact (drawCircles_frame s). Qed.

Lemma lookup_repeat_lt {A} (a : A) (n i : nat) :
  (i < n)%nat -> repeat a n !! i = Some a.
Proof.
  revert i. induction n as [|n IH]; intros i Hi; [lia|].
  destruct i as [|i]; [reflexivity|]. simpl. apply IH. lia.
Qed.

Lemma length_concat_singletons {A} (ls : list (list A)) :
  (forall i l, ls !! i = Some l -> length l = 1%nat) ->
  length (concat ls) = length ls.
Proof.
  induction ls as [|l ls IH]; intros H; [reflexivity|].
  simpl. rewrite length_app, IH.
  - now rewrite (H 0%nat l eq_refl).
  - intros i l' Hl. apply (H (S i)). exact Hl.
Qed.

(** X27.  The first frame of the circle mode on a silent spectrum: when
    there is no store of previous positions and every scaled value of the
    first [min(data.length, 64)] bins is 0, the frame paints exactly one
    disc per circle, of radius 2 at the centre of the canvas, without any
    trail or glow, whatever [Math.cos] and [Math.sin] return. *)
Theorem silent_first_frame_of_circles (s : AudioVisualizer) :
  noSpectrum s = false ->
  previousCirclePositions s = None ->
  let data := selectData s in
  let count := Nat.min (length data) 64 in
  (forall i, (i < count)%nat -> at_ data i * sensitivity s == 0) ->
  exists discs,
    canvas_ops (drawCircles s) = canvas_ops s ++ discs
    /\ length discs = count
    /\ Forall (fun op =>
                 exists x y radius hue saturation lightness,
                   op = FillDisc x y radius hue saturation lightness 1
                   /\ x == canvas_width s / 2 /\ y == canvas_height s / 2
                   /\ radius == 2)
              discs.
Proof.
  intros Hspec Hnone data count Hsilent.
  destruct (drawCircles_frame s Hspec) as ((painted & Hops & Hpl & Hp) & _).
  fold data count in Hops, Hpl, Hp. rewrite Hnone in Hp.
  assert (Hone : forall i ops, painted !! i = Some ops ->
            exists x y radius hue saturation lightness,
              ops = [FillDisc x y radius hue saturation lightness 1]
              /\ x == canvas_width s / 2 /\ y == canvas_height s / 2
              /\ radius == 2).
  { intros i ops Hl.
    assert (Hi : (i < count)%nat).
    { rewrite <- Hpl. apply lookup_lt_is_Some. now exists ops. }
    destruct (Hp i Hi) as (ops' & Hl' & Hpaint).
    rewrite Hl in Hl'. injection Hl' as <-.
    destruct Hpaint as (trail & glow & sa & li & -> & _ & Hg & _ & _ & Ht).
    specialize (Hsilent i Hi).
    assert (Hx : fst (circlePosition data count i s) == canvas_width s / 2).
    { unfold circlePosition. cbn [fst]. rewrite Hsilent. field. }
    assert (Hy : snd (circlePosition data count i s) == canvas_height s / 2).
    { unfold circlePosition. cbn [snd]. rewrite Hsilent. field. }
    rewrite Hg by (rewrite Hsilent; discriminate).
    rewrite (Ht (canvas_width s / 2, canvas_height s / 2)).
    - do 6 eexists. split; [reflexivity|].
      split; [exact Hx|]. split; [exact Hy|]. rewrite Hsilent. reflexivity.
    - apply lookup_repeat_lt. exact Hi.
    - cbn [fst]. now rewrite Hx.
    - cbn [snd]. now rewrite Hy. }
  exists (concat painted). split; [exact Hops|]. split.
  - rewrite <- Hpl. apply length_concat_singletons.
    intros i l Hl. destruct (Hone i l Hl) as (x & y & r & h & sa & li & -> & _).
    reflexivity.
  - apply Forall_concat. apply Forall_lookup. intros i ops Hl.
    destruct (Hone i ops Hl) as (x & y & r & h & sa & li & -> & Hx & Hy & Hr).
    constructor; [|constructor].
    exists x, y, r, h, sa, li. repeat split; assumption.
Qed.

(** ** Raindrops on the canvas *)

Section RaindropPainting.

Local Abbreviation paintsNoRaindrop :=
  (Forall (fun op => isRaindropOp op = false)).

Lemma noRaindrop_paint ops s :
  paintsNoRaindrop (canvas_ops s) -> paintsNoRaindrop ops ->
  paintsNoRaindrop (canvas_ops (paint ops s)).
Proof. intros Hs Hops. unfold paint. cbn. apply Forall_app. now split. Qed.

Lemma noRaindrop_map {A} (f : A -> CanvasOp) (l : list A) :
  (forall x, isRaindropOp (f x) = false) -> paintsNoRaindrop (map f l).
Proof.
  intros H. induction l as [|x l IH]; simpl; constructor; [apply H|exact IH].
Qed.

Lemma noRaindrop_concat_imap {A} (l : list A) : forall (f : nat -> A -> list CanvasOp),
  (forall i x, paintsNoRaindrop (f i x)) ->
  paintsNoRaindrop (concat (imap f l)).
Proof.
  induction l as [|x l IH]; intros f H; simpl; [constructor|].
  apply Forall_app. split; [apply H|]. apply IH. intros i y. apply H.
Qed.

Lemma noRaindrop_drawWaveform s :
  paintsNoRaindrop (canvas_ops s) ->
  paintsNoRaindrop (canvas_ops (drawWaveform s)).
Proof.
  intros Hs. unfold drawWaveform.
  destruct (Nat.eqb _ 0); [exact Hs|]. destruct (noSpectrum s); [exact Hs|].
  apply noRaindrop_paint; [exact Hs|].
  unfold waveformPath, waveformStyle. cbv zeta iota.
  repeat constructor.
Qed.

Lemma noRaindrop_drawCircular s :
  paintsNoRaindrop (canvas_ops s) ->
  paintsNoRaindrop (canvas_ops (drawCircular s)).
Proof.
  intros Hs. unfold drawCircular. destruct (noSpectrum s); [exact Hs|].
  apply noRaindrop_paint; [exact Hs|]. apply noRaindrop_map. reflexivity.
Qed.

Lemma noRaindrop_drawFrequencyBars2x s :
  paintsNoRaindrop (canvas_ops s) ->
  paintsNoRaindrop (canvas_ops (drawFrequencyBars2x s)).
Proof.
  intros Hs. unfold drawFrequencyBars2x. destruct (noSpectrum s); [exact Hs|].
  apply noRaindrop_paint; [exact Hs|]. apply noRaindrop_concat_imap.
  intros i x. repeat constructor.
Qed.

Lemma noRaindrop_drawFrequencyBars4x s :
  paintsNoRaindrop (canvas_ops s) ->
  paintsNoRaindrop (canvas_ops (drawFrequencyBars4x s)).
Proof.
  intros Hs. unfold drawFrequencyBars4x. destruct (noSpectrum s); [exact Hs|].
  apply noRaindrop_paint; [exact Hs|]. apply noRaindrop_concat_imap.
  intros i x. repeat constructor.
Qed.

Lemma noRaindrop_circlesBody data count i s :
  paintsNoRaindrop (canvas_ops s) ->
  paintsNoRaindrop (canvas_ops (circlesBody data count i s)).
Proof.
  intros Hs. unfold circlesBody. cbv zeta.
  apply noRaindrop_paint; [exact Hs|].
  apply Forall_app. split.
  - destruct (default [] (previousCirclePositions s) !! i) as [p|];
      [|constructor].
    destruct (_ || _); [|constructor].
    unfold circleTrail. apply noRaindrop_map. reflexivity.
  - apply Forall_app. split; [repeat constructor|].
    destruct (Qgtb _ 128); repeat constructor.
Qed.

Lemma noRaindrop_drawCircles s :
  paintsNoRaindrop (canvas_ops s) ->
  paintsNoRaindrop (canvas_ops (drawCircles s)).
Proof.
  intros Hs. unfold drawCircles. destruct (noSpectrum s); [exact Hs|].
  cbv zeta.
  set (data := selectData s). set (count := Nat.min (length data) 64).
  assert (Hfold : forall indices t,
            paintsNoRaindrop (canvas_ops t) ->
            paintsNoRaindrop
              (canvas_ops (fold_left (fun s i => circlesBody data count i s)
                             indices t))).
  { induction indices as [|i indices IH]; intros t Ht; simpl; [exact Ht|].
    apply IH. now apply noRaindrop_circlesBody. }
  apply Hfold. destruct (previousCirclePositions s); exact Hs.
Qed.

Lemma noRaindrop_drawStarlight s :
  paintsNoRaindrop (canvas_ops s) ->
  paintsNoRaindrop (canvas_ops (drawStarlight s)).
Proof.
  intros Hs. unfold drawStarlight. destruct (noSpectrum s); [exact Hs|].
  cbv zeta.
  set (t := if starsNeedRegeneration s then regenerateStars (selectData s) s
            else s).
  assert (Ht : canvas_ops t = canvas_ops s).
  { unfold t. destruct (starsNeedRegeneration s); [|reflexivity].
    unfold regenerateStars. destruct (generateStars _ _ _ _ _). reflexivity. }
  apply noRaindrop_paint; [now rewrite Ht|].
  apply noRaindrop_concat_imap. intros i star. unfold starOps. cbv zeta.
  repeat (apply Forall_app; split);
    repeat match goal with
           | |- context [if ?c then _ else _] => destruct c
           end; repeat constructor.
Qed.

Lemma noRaindrop_drawRetroBox now s :
  paintsNoRaindrop (canvas_ops s) ->
  paintsNoRaindrop (canvas_ops (drawRetroBox now s)).
Proof.
  intros Hs. unfold drawRetroBox. cbv zeta.
  assert (Hb : paintsNoRaindrop
                 (canvas_ops (paint [RetroBackdrop (canvas_width s)
                                       (canvas_height s)] s))).
  { apply noRaindrop_paint; [exact Hs|repeat constructor]. }
  destruct (Nat.eqb _ 0); [exact Hb|].
  apply noRaindrop_paint; [exact Hb|].
  apply Forall_app. split; [|repeat constructor].
  apply noRaindrop_map. reflexivity.
Qed.

(** A frame of any mode but [frequency3x] paints no raindrop. *)
Lemma noRaindrop_draw now s :
  visualType s <> "frequency3x"%string ->
  paintsNoRaindrop (canvas_ops (draw now s)).
Proof.
  intros Hmode. unfold draw.
  change (visualType (clearRect s)) with (visualType s).
  assert (Hclear : paintsNoRaindrop (canvas_ops (clearRect s))) by constructor.
  destruct (String.eqb _ "waveform"); [now apply noRaindrop_drawWaveform|].
  destruct (String.eqb _ "circular"); [now apply noRaindrop_drawCircular|].
  destruct (String.eqb _ "frequency2x");
    [now apply noRaindrop_drawFrequencyBars2x|].
  destruct (String.eqb_spec (visualType s) "frequency3x") as [E|_];
    [contradiction|].
  destruct (String.eqb _ "frequency4x");
    [now apply noRaindrop_drawFrequencyBars4x|].
  destruct (String.eqb _ "circles"); [now apply noRaindrop_drawCircles|].
  destruct (String.eqb _ "starlight"); [now apply noRaindrop_drawStarlight|].
  destruct (String.eqb _ "retroBox"); [now apply noRaindrop_drawRetroBox|].
  exact Hclear.
Qed.

Lemma noRaindrop_bars3xLoop now data rest : forall i s,
  paintsNoRaindrop (canvas_ops s) ->
  paintsNoRaindrop (canvas_ops (bars3xLoop now data i rest s)).
Proof.
  induction rest as [|bin rest IH]; intros i s Hs; simpl; [exact Hs|].
  apply IH. unfold bars3xBody. cbv zeta.
  match goal with
  | |- context [paint ?ops s] =>
      assert (Hp : paintsNoRaindrop (canvas_ops (paint ops s)))
        by (apply noRaindrop_paint; [exact Hs|repeat constructor]);
      generalize dependent (paint ops s)
  end.
  intros t Ht.
  repeat match goal with
         | |- context [if ?c then _ else _] => destruct c
         | |- context [match ?c with Some _ => _ | None => _ end] => destruct c
         end; exact Ht.
Qed.

Lemma filter_noRaindrop ops :
  paintsNoRaindrop ops -> List.filter isRaindropOp ops = [].
Proof.
  induction 1 as [|op ops Hop _ IH]; [reflexivity|].
  simpl. now rewrite Hop.
Qed.

Lemma filter_paintedRaindrops drops :
  List.filter isRaindropOp (map paintedRaindrop drops)
  = map paintedRaindrop drops.
Proof. induction drops as [|r drops IH]; [reflexivity|]. simpl. now rewrite IH. Qed.

(** What a [frequency3x] frame leaves on the canvas: the bars, then one
    operation for every raindrop that is in the store after the update. *)
Lemma drawFrequencyBars3x_paints now s :
  noSpectrum s = false ->
  paintsNoRaindrop (canvas_ops s) ->
  List.filter isRaindropOp (canvas_ops (drawFrequencyBars3x now s))
  = map paintedRaindrop (raindrops (drawFrequencyBars3x now s)).
Proof.
  intros Hspec Hs. unfold drawFrequencyBars3x. rewrite Hspec. cbv zeta.
  set (t := bars3xLoop now (selectData s) 0 (selectData s) s).
  assert (Ht : paintsNoRaindrop (canvas_ops t))
    by (now apply noRaindrop_bars3xLoop).
  unfold drawRaindrops.
  change (canvas_ops (paint ?ops (updateRaindrops t)))
    with (canvas_ops t ++ ops).
  change (raindrops (paint ?ops (updateRaindrops t)))
    with (raindrops (updateRaindrops t)).
  rewrite List.filter_app, (filter_noRaindrop _ Ht).
  apply filter_paintedRaindrops.
Qed.

Ltac open_state s :=
  destruct s as [ac an mic gn ip aid ss cw ch co da fd sm bo se vt fs rd lrt
                 ri brt tf lft lcs sp sz pcp fmh fkh ht hc hn hh hr].

Lemma canvas_ops_setupCanvas w s : canvas_ops (setupCanvas w s) = canvas_ops s.
Proof.
  destruct (setupCanvas_cases w s) as [H|(a & b & H)]; now rewrite H.
Qed.

Lemma canvas_ops_startVisualization w s :
  canvas_ops (startVisualization w s) = canvas_ops s.
Proof.
  unfold startVisualization.
  destruct (animationId s); [reflexivity|].
  destruct (negb (analyser s)); [reflexivity|].
  cbv zeta. destruct (_ || _); [|reflexivity].
  change (canvas_ops (requestAnimationFrame ?t)) with (canvas_ops t).
  apply canvas_ops_setupCanvas.
Qed.

Lemma canvas_ops_stopVisualizer s : canvas_ops (stopVisualizer s) = [].
Proof. open_state s. destruct aid, mic, ac, ss, fmh; reflexivity. Qed.

Lemma canvas_ops_conditionSpectrum input s :
  canvas_ops (conditionSpectrum input s) = canvas_ops s
  /\ visualType (conditionSpectrum input s) = visualType s
  /\ canvas_height (conditionSpectrum input s) = canvas_height s.
Proof.
  unfold conditionSpectrum. destruct (0 <? _)%nat; now repeat split.
Qed.

(** Outside the frame callback an event paints nothing: the canvas is as
    it was, or cleared. *)
Lemma canvas_ops_step e s :
  (forall input, e <> AnimationFrame input) ->
  canvas_ops (step e s) = canvas_ops s \/ canvas_ops (step e s) = [].
Proof.
  intros Hframe.
  destruct e as [w n|w n|w n| | | |identifier|value|w|w|w| |input];
    unfold step.
  - left. unfold startMicrophone, grantStream, newAudioContext.
    cbv beta iota zeta. now rewrite canvas_ops_startVisualization.
  - left. unfold startScreenShare, grantStream, newAudioContext.
    cbv beta iota zeta. now rewrite canvas_ops_startVisualization.
  - left. unfold startMobileAudio, grantStream, newAudioContext.
    cbv beta iota zeta. now rewrite canvas_ops_startVisualization.
  - now left.
  - left. unfold stopScreenShare, stopVisualization. cbv zeta.
    destruct (screenShare s); cbn [animationId set_screenShare];
      destruct (animationId s); reflexivity.
  - right. apply canvas_ops_stopVisualizer.
  - now left.
  - now left.
  - left. unfold onResize. cbv zeta.
    destruct (isFullscreen (setupCanvas w s));
      [change (canvas_ops (setupCanvas w s) = canvas_ops s)|];
      apply canvas_ops_setupCanvas.
  - now left.
  - left. unfold exitFullscreen. cbv zeta. now rewrite canvas_ops_setupCanvas.
  - now left.
  - exfalso. now apply (Hframe input).
Qed.

Lemma animate_not_processed input s :
  frameProcessed input s = false ->
  animate input s = s \/ animate input s = requestAnimationFrame s.
Proof.
  unfold frameProcessed, animate. intros H.
  destruct (isPlaying s); [|now left].
  destruct (analyser s); [|now left].
  cbn [negb orb andb] in H |- *.
  apply negb_false_iff in H. rewrite H. now right.
Qed.

End RaindropPainting.

(** C10.  Raindrops belong to the [frequency3x] frames.  An event changes
    the raindrop store only if it is the stop button, which empties it, or
    a frame callback that runs while the mode is [frequency3x]; a raindrop
    on the canvas after an event was there before the event or was painted
    by a [frequency3x] frame.  A processed frame of any other mode leaves
    the store as it was and paints no raindrop; a processed [frequency3x]
    frame runs one update cycle over the store, after the bar loop has
    spawned the new raindrops, and paints exactly the raindrops that are
    in the store after that cycle. *)
Theorem raindrops_change_only_in_3x_frames_and_stop
    (e : Event) (s : AudioVisualizer) :
  (raindrops (step e s) <> raindrops s ->
   e = StopVisualizer
   \/ ((exists input, e = AnimationFrame input)
       /\ visualType s = "frequency3x"%string)) /\
  raindrops (step StopVisualizer s) = [] /\
  (forall op, isRaindropOp op = true -> In op (canvas_ops (step e s)) ->
     In op (canvas_ops s)
     \/ ((exists input, e = AnimationFrame input)
         /\ visualType s = "frequency3x"%string)) /\
  (forall input,
     e = AnimationFrame input -> animationId s <> None ->
     frameProcessed input s = true ->
     (visualType s <> "frequency3x"%string ->
      raindrops (step e s) = raindrops s
      /\ Forall (fun op => isRaindropOp op = false) (canvas_ops (step e s))) /\
     (visualType s = "frequency3x"%string ->
      (0 < length (frequencyData s))%nat ->
      let conditioned :=
        conditionSpectrum input (set_lastFrameTime (timestamp input) s) in
      let spawned :=
        raindrops (bars3xLoop (now input) (selectData conditioned) 0
                     (selectData conditioned) (clearRect conditioned)) in
      raindrops (step e s) = updateRaindropList (canvas_height s) spawned
      /\ List.filter isRaindropOp (canvas_ops (step e s))
         = map paintedRaindrop (raindrops (step e s)))).
Proof.
  assert (Hstore : raindrops (step e s) <> raindrops s ->
            e = StopVisualizer
            \/ ((exists input, e = AnimationFrame input)
                /\ visualType s = "frequency3x"%string)).
  { intros Hchanged.
    destruct e as [w n|w n|w n| | | |identifier|value|w|w|w| |input];
      unfold step in Hchanged.
    - exfalso. apply Hchanged. apply raindrops_startMicrophone.
    - exfalso. apply Hchanged. apply raindrops_startScreenShare.
    - exfalso. apply Hchanged. apply raindrops_startMobileAudio.
    - exfalso. now apply Hchanged.
    - exfalso. apply Hchanged. apply raindrops_stopScreenShare.
    - left. reflexivity.
    - exfalso. now apply Hchanged.
    - exfalso. now apply Hchanged.
    - exfalso. apply Hchanged. apply raindrops_onResize.
    - exfalso. now apply Hchanged.
    - exfalso. apply Hchanged. unfold exitFullscreen.
      now rewrite raindrops_setupCanvas.
    - exfalso. now apply Hchanged.
    - right. split; [eauto|].
      destruct (string_dec (visualType s) "frequency3x") as [Heq|Hne];
        [exact Heq|].
      exfalso. apply Hchanged.
      destruct (animationId s); [|reflexivity].
      now apply raindrops_animate. }
  assert (Hframe : forall input,
            frameProcessed input s = true ->
            visualType s <> "frequency3x"%string ->
            Forall (fun op => isRaindropOp op = false)
                   (canvas_ops (animate input s))).
  { intros input Hp Hmode. rewrite (animate_processed input s Hp).
    change (canvas_ops (requestAnimationFrame ?t)) with (canvas_ops t).
    apply noRaindrop_draw.
    destruct (canvas_ops_conditionSpectrum input
                (set_lastFrameTime (timestamp input) s)) as (_ & Hv & _).
    now rewrite Hv. }
  split; [exact Hstore|].
  split; [apply raindrops_stopVisualizer|].
  split.
  { intros op Hop Hin.
    destruct (string_dec (visualType s) "frequency3x") as [Hmode|Hmode].
    - destruct e as [w n|w n|w n| | | |identifier|value|w|w|w| |input];
        try (match type of Hin with
             | In _ (canvas_ops (step ?ev _)) =>
                 assert (Ho : forall i, ev <> AnimationFrame i)
                   by (intros i; discriminate);
                 destruct (canvas_ops_step ev s Ho) as [E|E];
                 rewrite E in Hin; [now left|destruct Hin]
             end).
      right. split; [eauto|exact Hmode].
    - left.
      destruct e as [w n|w n|w n| | | |identifier|value|w|w|w| |input];
        try (match type of Hin with
             | In _ (canvas_ops (step ?ev _)) =>
                 assert (Ho : forall i, ev <> AnimationFrame i)
                   by (intros i; discriminate);
                 destruct (canvas_ops_step ev s Ho) as [E|E];
                 rewrite E in Hin; [exact Hin|destruct Hin]
             end).
      unfold step in Hin. destruct (animationId s); [|exact Hin].
      destruct (frameProcessed input s) eqn:Hp.
      + exfalso. pose proof (Hframe input Hp Hmode) as Hall.
        rewrite List.Forall_forall in Hall. specialize (Hall op Hin).
        congruence.
      + destruct (animate_not_processed input s Hp) as [E|E];
          rewrite E in Hin; exact Hin. }
  intros input -> Hid Hp. unfold step.
  destruct (animationId s) as [id|]; [|contradiction].
  split.
  - intros Hmode. split; [now apply raindrops_animate|now apply Hframe].
  - intros Hmode Hlen.
    set (conditioned :=
           conditionSpectrum input (set_lastFrameTime (timestamp input) s)).
    rewrite (animate_processed input s Hp). fold conditioned.
    change (canvas_ops (requestAnimationFrame ?t)) with (canvas_ops t).
    change (raindrops (requestAnimationFrame ?t)) with (raindrops t).
    destruct (canvas_ops_conditionSpectrum input
                (set_lastFrameTime (timestamp input) s)) as (_ & Hv & Hh).
    fold conditioned in Hv, Hh.
    change (visualType (set_lastFrameTime (timestamp input) s))
      with (visualType s) in Hv.
    change (canvas_height (set_lastFrameTime (timestamp input) s))
      with (canvas_height s) in Hh.
    assert (Hdraw : draw (now input) conditioned
                    = drawFrequencyBars3x (now input) (clearRect conditioned)).
    { unfold draw.
      change (visualType (clearRect conditioned)) with (visualType conditioned).
      rewrite Hv, Hmode. reflexivity. }
    assert (Hns : noSpectrum (clearRect conditioned) = false).
    { unfold noSpectrum.
      change (frequencyData (clearRect conditioned))
        with (frequencyData conditioned).
      destruct (conditionSpectrum_fields input
                  (set_lastFrameTime (timestamp input) s) Hlen) as (Hraw & _).
      fold conditioned in Hraw. rewrite Hraw, length_getByteData.
      apply Nat.eqb_neq.
      change (frequencyData (set_lastFrameTime (timestamp input) s))
        with (frequencyData s). lia. }
    rewrite Hdraw. split.
    + rewrite (raindrops_drawFrequencyBars3x _ _ Hns).
      change (selectData (clearRect conditioned)) with (selectData conditioned).
      change (canvas_height (clearRect conditioned))
        with (canvas_height conditioned).
      now rewrite Hh.
    + apply drawFrequencyBars3x_paints; [exact Hns|constructor].
Qed.
End Host.

(** ** Facts about the conditioner *)

Section ConditionerFacts.

Lemma at_imap (f : nat -> Q -> Q) (l : list Q) (i : nat) :
  (i < length l)%nat -> at_ (imap f l) i = f i (at_ l i).
Proof.
  unfold at_. revert f i. induction l as [|a l IH]; intros f i Hi; simpl in *.
  - lia.
  - destruct i as [|i]; [reflexivity|].
    apply (IH (f ∘ S)). lia.
Qed.

Lemma nth_imap_Z (f : nat -> Z -> Q) (l : list Z) (i : nat) :
  (i < length l)%nat -> nth i (imap f l) 0 = f i (nth i l 0%Z).
Proof.
  revert f i. induction l as [|a l IH]; intros f i Hi; simpl in *.
  - lia.
  - destruct i as [|i]; [reflexivity|].
    apply (IH (f ∘ S)). lia.
Qed.

Lemma applyHighEndBoost_length raw :
  length (applyHighEndBoost raw) = length raw.
Proof. unfold applyHighEndBoost. apply length_imap. Qed.

Lemma applyHighEndBoost_at raw i :
  (i < length raw)%nat ->
  at_ (applyHighEndBoost raw) i = boostBin (length raw) i (nth i raw 0%Z).
Proof. intros Hi. unfold at_, applyHighEndBoost. now apply nth_imap_Z. Qed.

Lemma smoothStep_length boosted smoothed :
  length (smoothStep boosted smoothed) = length smoothed.
Proof. unfold smoothStep. apply length_imap. Qed.

Lemma smoothStep_at boosted smoothed i :
  (i < length smoothed)%nat ->
  at_ (smoothStep boosted smoothed) i
  = alpha * at_ boosted i + (1 - alpha) * at_ smoothed i.
Proof. intros Hi. unfold smoothStep. now rewrite at_imap. Qed.

Lemma smoothFrames_length frames smoothed :
  length (smoothFrames frames smoothed) = length smoothed.
Proof.
  unfold smoothFrames. revert smoothed.
  induction frames as [|b frames IH]; intros s; simpl; [reflexivity|].
  rewrite IH. apply smoothStep_length.
Qed.

Lemma smoothFrames_snoc frames b smoothed :
  smoothFrames (frames ++ [b]) smoothed
  = smoothStep b (smoothFrames frames smoothed).
Proof. unfold smoothFrames. now rewrite fold_left_app. Qed.

End ConditionerFacts.

(** ** The high-end boost *)

Section BoostFacts.

Lemma highEndStart_bounds (n : nat) :
  (0 <= highEndStart n)%Z /\ (n <> 0%nat -> (highEndStart n < Z.of_nat n)%Z).
Proof.
  unfold highEndStart, Math_floor, num.
  assert (H0 : 0 <= inject_Z (Z.of_nat n)).
  { change 0 with (inject_Z 0). rewrite <- Zle_Qle. lia. }
  split.
  - change 0%Z with (Qfloor (inject_Z 0)). apply Qfloor_resp_le.
    change (inject_Z 0) with 0. lra.
  - intros Hn.
    assert (H1 : 1 <= inject_Z (Z.of_nat n)).
    { change 1 with (inject_Z 1). rewrite <- Zle_Qle. lia. }
    apply Z.lt_le_trans with (Qceiling (inject_Z (Z.of_nat n))).
    + pose proof (Qfloor_le (inject_Z (Z.of_nat n) * 0.6)) as Hf.
      rewrite Qceiling_Z.
      rewrite Zlt_Qlt. lra.
    + rewrite Qceiling_Z. lia.
Qed.

(** Below the boost region the value is copied. *)
Lemma boostBin_below n i v :
  (Z.of_nat i < highEndStart n)%Z -> boostBin n i v = inject_Z v.
Proof.
  intros Hi. unfold boostBin.
  destruct (Z.leb_spec (highEndStart n) (Z.of_nat i)); [lia|reflexivity].
Qed.

(** In the boost region the multiplier is
    [1.5 + 0.8 * (i - start) / (length - start)], clamped at 255. *)
Lemma boostBin_region n i v :
  (highEndStart n <= Z.of_nat i)%Z ->
  boostBin n i v ==
  Qmin 255 (inject_Z v *
            (1.5 + 0.8 * (inject_Z (Z.of_nat i - highEndStart n)
                          / inject_Z (Z.of_nat n - highEndStart n)))).
Proof.
  intros Hi. unfold boostBin, Math_min.
  destruct (Z.leb_spec (highEndStart n) (Z.of_nat i)); [|lia].
  apply Q.min_compat; [reflexivity|]. ring.
Qed.

Lemma boostBin_le_255 n i v :
  (highEndStart n <= Z.of_nat i)%Z -> boostBin n i v <= 255.
Proof.
  intros Hi. rewrite boostBin_region by assumption. apply Q.le_min_l.
Qed.

(** At the first boosted bin the multiplier is 1.5. *)
Lemma boostBin_region_start n v :
  (n <> 0)%nat -> Z.of_nat (Z.to_nat (highEndStart n)) = highEndStart n ->
  boostBin n (Z.to_nat (highEndStart n)) v == Qmin 255 (inject_Z v * 1.5).
Proof.
  intros Hn Hs. rewrite boostBin_region by lia.
  apply Q.min_compat; [reflexivity|].
  rewrite Hs, Z.sub_diag.
  unfold Qdiv. change (inject_Z 0) with 0. ring.
Qed.

(** At the last bin the multiplier is [2.3 - 0.8 / (length - start)]: the
    position [(i - start) / (length - start)] stays below 1, so the top of
    the ramp is not reached by any bin. *)
Lemma boostBin_last n v :
  (n <> 0)%nat ->
  (highEndStart n <= Z.of_nat (n - 1))%Z ->
  boostBin n (n - 1) v ==
  Qmin 255 (inject_Z v *
            (2.3 - 0.8 / inject_Z (Z.of_nat n - highEndStart n))).
Proof.
  intros Hn Hi. rewrite boostBin_region by assumption.
  apply Q.min_compat; [reflexivity|].
  destruct (highEndStart_bounds n) as [_ Hlt]. specialize (Hlt Hn).
  set (s := highEndStart n) in *.
  assert (Hd : ~ inject_Z (Z.of_nat n - s) == 0).
  { change 0 with (inject_Z 0). rewrite inject_Z_injective. lia. }
  replace (Z.of_nat (n - 1) - s)%Z with ((Z.of_nat n - s) - 1)%Z by lia.
  unfold Z.sub at 1. rewrite inject_Z_plus.
  change (inject_Z (- (1))) with (-1).
  field. exact Hd.
Qed.

Lemma boost_last_multiplier_below_top n :
  (n <> 0)%nat ->
  2.3 - 0.8 / inject_Z (Z.of_nat n - highEndStart n) < 2.3.
Proof.
  intros Hn.
  destruct (highEndStart_bounds n) as [_ Hlt]. specialize (Hlt Hn).
  assert (Hd : 0 < inject_Z (Z.of_nat n - highEndStart n)).
  { change 0 with (inject_Z 0). rewrite <- Zlt_Qlt. lia. }
  assert (0 < 0.8 / inject_Z (Z.of_nat n - highEndStart n)).
  { apply Qlt_shift_div_l; [exact Hd|]. lra. }
  lra.
Qed.

End BoostFacts.

(** C2.  A spectrum of 128 bins that all hold 100: the boost region starts
    at bin 76, and the final bin 127 is multiplied by
    [1 + 0.5 + (51/52) * 0.8], which gives 2970/13 (about 228.46) and not
    the 230 that a multiplier of 2.3 would give; no clamping is involved,
    since both numbers are below 255. *)
Theorem applyHighEndBoost_final_bin_of_128 :
  highEndStart 128 = 76%Z /\
  at_ (applyHighEndBoost (repeat 100%Z 128)) 76 == 100 * 1.5 /\
  at_ (applyHighEndBoost (repeat 100%Z 128)) 127 == 2970 # 13 /\
  ~ at_ (applyHighEndBoost (repeat 100%Z 128)) 127 == 100 * 2.3 /\
  100 * 2.3 < 255.
Proof.
  repeat split; try (vm_compute; congruence).
Qed.

(** ** Temporal smoothing *)

Section SmoothingFacts.

Lemma smoothStep_gap boosted smoothed i c :
  (i < length smoothed)%nat -> at_ boosted i == c ->
  at_ (smoothStep boosted smoothed) i - c == 0.85 * (at_ smoothed i - c).
Proof.
  intros Hi Hc. rewrite smoothStep_at by assumption.
  unfold alpha. rewrite Hc. ring.
Qed.

Lemma smoothStep_distance boosted smoothed i c :
  (i < length smoothed)%nat -> at_ boosted i == c ->
  Qabs (at_ (smoothStep boosted smoothed) i - c)
  == 0.85 * Qabs (at_ smoothed i - c).
Proof.
  intros Hi Hc. rewrite (smoothStep_gap _ _ _ c) by assumption.
  rewrite Qabs_Qmult. rewrite (Qabs_pos 0.85) by lra. reflexivity.
Qed.

Lemma smoothFrames_distance frames : forall smoothed i c,
  (i < length smoothed)%nat ->
  Forall (heldAt i c (length smoothed)) frames ->
  Qabs (at_ (smoothFrames frames smoothed) i - c)
  == 0.85 ^ Z.of_nat (length frames) * Qabs (at_ smoothed i - c).
Proof.
  induction frames as [|b frames IH]; intros s i c Hi Hall.
  - simpl. change (0.85 ^ 0) with 1. ring.
  - inversion Hall as [|? ? [Hlen Hb] Hrest]; subst.
    change (smoothFrames (b :: frames) s)
      with (smoothFrames frames (smoothStep b s)).
    rewrite IH.
    + rewrite smoothStep_distance by assumption.
      replace (Z.of_nat (length (b :: frames)))
        with (Z.of_nat (length frames) + 1)%Z by (simpl length; lia).
      rewrite Qpower_plus by lra.
      change (0.85 ^ 1) with 0.85. ring.
    + rewrite smoothStep_length. exact Hi.
    + rewrite smoothStep_length. exact Hrest.
Qed.

Lemma smoothFrames_value_zero frames : forall smoothed i c,
  (i < length smoothed)%nat ->
  Forall (heldAt i c (length smoothed)) frames ->
  c == 0 ->
  at_ (smoothFrames frames smoothed) i
  == 0.85 ^ Z.of_nat (length frames) * at_ smoothed i.
Proof.
  induction frames as [|b frames IH]; intros s i c Hi Hall Hc.
  - simpl. change (0.85 ^ 0) with 1. ring.
  - inversion Hall as [|? ? [Hl Hb] Hrest]; subst.
    change (smoothFrames (b :: frames) s)
      with (smoothFrames frames (smoothStep b s)).
    assert (Hstep : at_ (smoothStep b s) i == 0.85 * at_ s i).
    { rewrite smoothStep_at by assumption. unfold alpha.
      rewrite Hb, Hc. ring. }
    assert (Hi' : (i < length (smoothStep b s))%nat).
    { rewrite smoothStep_length. exact Hi. }
    assert (Hall' : Forall (heldAt i c (length (smoothStep b s))) frames).
    { rewrite smoothStep_length. exact Hrest. }
    rewrite (IH (smoothStep b s) i c Hi' Hall' Hc).
    rewrite Hstep.
    replace (Z.of_nat (length (b :: frames)))
      with (Z.of_nat (length frames) + 1)%Z by (simpl length; lia).
    rewrite Qpower_plus by lra. change (0.85 ^ 1) with 0.85. ring.
Qed.

Lemma pow_085_29 : 0.85 ^ 29 <= 0.01.
Proof. vm_compute. congruence. Qed.

Lemma pow_085_28 : 0.01 < 0.85 ^ 28.
Proof. vm_compute. reflexivity. Qed.

End SmoothingFacts.

(** C3.  One smoothing step is the exponential moving average with weights
    0.15 and 0.85.  When the boosted value of bin [i] is [c] on every
    frame, the distance to [c] is multiplied by 0.85 per frame; after 29
    frames it is at most 1% of the initial distance, hence within 1% of [c]
    as soon as the buffer starts no farther from [c] than zero is (the
    buffer starts at zero); with [c = 0] the value never grows and stays
    non-negative. *)
Theorem smoothing_is_contraction
    (smoothed : list Q) (i : nat) (c : Q) (frames : list (list Q)) :
  (i < length smoothed)%nat ->
  Forall (heldAt i c (length smoothed)) frames ->
  let after := smoothFrames frames smoothed in
  (forall boosted,
     at_ (smoothStep boosted after) i
     == 0.15 * at_ boosted i + 0.85 * at_ after i) /\
  (forall boosted, at_ boosted i == c ->
     Qabs (at_ (smoothStep boosted after) i - c)
     == 0.85 * Qabs (at_ after i - c)) /\
  Qabs (at_ after i - c)
  == 0.85 ^ Z.of_nat (length frames) * Qabs (at_ smoothed i - c) /\
  (length frames = 29%nat ->
     Qabs (at_ after i - c) <= 0.01 * Qabs (at_ smoothed i - c) /\
     (Qabs (at_ smoothed i - c) <= Qabs c ->
      Qabs (at_ after i - c) <= 0.01 * Qabs c)) /\
  (c == 0 -> 0 <= at_ smoothed i ->
     0 <= at_ after i /\ at_ after i <= at_ smoothed i /\
     forall boosted, at_ boosted i == 0 ->
       0 <= at_ (smoothStep boosted after) i /\
       at_ (smoothStep boosted after) i <= at_ after i).
Proof.
  intros Hi Hall after.
  assert (Hlen : (i < length after)%nat).
  { unfold after. rewrite smoothFrames_length. exact Hi. }
  pose proof (smoothFrames_distance frames smoothed i c Hi Hall) as Hdist.
  fold after in Hdist.
  split; [|split; [|split; [|split]]].
  - intros boosted. rewrite smoothStep_at by assumption.
    unfold alpha. ring.
  - intros boosted Hb. now apply smoothStep_distance.
  - exact Hdist.
  - intros H29. rewrite H29 in Hdist.
    pose proof pow_085_29 as Hp.
    pose proof (Qabs_nonneg (at_ smoothed i - c)) as Hn.
    assert (Hfirst : Qabs (at_ after i - c) <= 0.01 * Qabs (at_ smoothed i - c)).
    { rewrite Hdist. change (Z.of_nat 29) with 29%Z.
      apply Qmult_le_compat_r; assumption. }
    split; [exact Hfirst|].
    intros Hstart. lra.
  - intros Hc Hs.
    assert (Hpow : 0 <= 0.85 ^ Z.of_nat (length frames) <= 1).
    { clear. induction (length frames) as [|n IH].
      - change (0.85 ^ Z.of_nat 0) with 1. lra.
      - replace (Z.of_nat (S n)) with (Z.of_nat n + 1)%Z by lia.
        rewrite Qpower_plus by lra. change (0.85 ^ 1) with 0.85. nra. }
    assert (Hval : at_ after i == 0.85 ^ Z.of_nat (length frames) * at_ smoothed i).
    { unfold after. now apply (smoothFrames_value_zero frames smoothed i c). }
    assert (H0 : 0 <= at_ after i) by (rewrite Hval; nra).
    split; [exact H0|]. split; [rewrite Hval; nra|].
    intros boosted Hb.
    rewrite smoothStep_at by assumption. unfold alpha. rewrite Hb. lra.
Qed.

(** The hypotheses of [smoothing_is_contraction] at a buffer of three zeros
    and 29 frames that hold bin 1 at 200. *)
Lemma smoothing_is_contraction_witness :
  Qabs (at_ (smoothFrames (repeat [0; 200; 0] 29) (Float32Array 3)) 1 - 200)
  <= 0.01 * Qabs 200.
Proof.
  assert (Hi : (1 < length (Float32Array 3))%nat) by (simpl; lia).
  assert (Hall : Forall (heldAt 1 200 (length (Float32Array 3)))
                        (repeat [0; 200; 0] 29)).
  { apply List.Forall_forall. intros b Hb. apply repeat_spec in Hb. subst b.
    split; reflexivity. }
  pose proof (smoothing_is_contraction (Float32Array 3) 1 200
                (repeat [0; 200; 0] 29) Hi Hall) as H.
  destruct H as (_ & _ & _ & H29 & _).
  destruct (H29 (repeat_length _ _)) as [_ Hc].
  apply Hc. vm_compute. congruence.
Defined.


(** ** Raindrop physics *)

Section RaindropFacts.

Variable canvasHeight : Q.

Lemma cycle_app l1 l2 :
  cycle canvasHeight (l1 ++ l2)
  = cycle canvasHeight l1 ++ cycle canvasHeight l2.
Proof. unfold cycle. now rewrite map_app, List.filter_app. Qed.

Lemma cycle_singleton raindrop :
  cycle canvasHeight [raindrop]
  = if offCanvasOrTransparent canvasHeight (fall raindrop) then []
    else [fall raindrop].
Proof.
  unfold cycle. cbn [map List.filter].
  now destruct (offCanvasOrTransparent canvasHeight (fall raindrop)).
Qed.

(** The backwards loop with [splice] computes [cycle]. *)
Lemma updateFrom_spec i : forall drops,
  (i <= length drops)%nat ->
  updateFrom canvasHeight i drops
  = cycle canvasHeight (take i drops) ++ drop i drops.
Proof.
  induction i as [|j IH]; intros drops Hi.
  - now rewrite take_0, drop_0.
  - simpl updateFrom.
    destruct (drops !! j) as [raindrop|] eqn:Hj.
    2:{ apply lookup_ge_None in Hj. lia. }
    assert (Hsplit : take (S j) drops = take j drops ++ [raindrop]).
    { now apply take_S_r. }
    rewrite Hsplit, cycle_app.
    destruct (offCanvasOrTransparent canvasHeight (fall raindrop)) eqn:Hoff.
    + rewrite IH by (rewrite length_delete by eauto; lia).
      rewrite delete_take_drop.
      rewrite take_app_length' by (rewrite length_take; lia).
      rewrite drop_app_length' by (rewrite length_take; lia).
      rewrite cycle_singleton, Hoff.
      now rewrite app_nil_r.
    + rewrite IH by (rewrite length_insert; lia).
      rewrite insert_take_drop by lia.
      rewrite take_app_length' by (rewrite length_take; lia).
      rewrite drop_app_length' by (rewrite length_take; lia).
      rewrite cycle_singleton, Hoff.
      now rewrite <- app_assoc.
Qed.

Lemma updateRaindropList_cycle drops :
  updateRaindropList canvasHeight drops = cycle canvasHeight drops.
Proof.
  unfold updateRaindropList. rewrite updateFrom_spec by lia.
  now rewrite firstn_all, drop_all, app_nil_r.
Qed.

Lemma cycles_succ n drops :
  cycles canvasHeight (S n) drops
  = updateRaindropList canvasHeight (cycles canvasHeight n drops).
Proof. reflexivity. Qed.

Lemma cycles_app n : forall l1 l2,
  cycles canvasHeight n (l1 ++ l2)
  = cycles canvasHeight n l1 ++ cycles canvasHeight n l2.
Proof.
  induction n as [|n IH]; intros l1 l2; [reflexivity|].
  unfold cycles in *. simpl. rewrite IH.
  now rewrite !updateRaindropList_cycle, cycle_app.
Qed.

Lemma cycles_nil n : cycles canvasHeight n [] = [].
Proof.
  induction n as [|n IH]; [reflexivity|].
  unfold cycles in *. simpl. now rewrite IH.
Qed.

Lemma fall_iter_fields n raindrop :
  Raindrop.y (Nat.iter n fall raindrop)
  == Raindrop.y raindrop + num n * Raindrop.speed raindrop
  /\ Raindrop.alpha (Nat.iter n fall raindrop)
     == Raindrop.alpha raindrop - num n * 0.005
  /\ Raindrop.speed (Nat.iter n fall raindrop) = Raindrop.speed raindrop
  /\ Raindrop.value (Nat.iter n fall raindrop) = Raindrop.value raindrop.
Proof.
  induction n as [|n (Hy & Ha & Hs & Hv)].
  - unfold num. simpl. repeat split; ring.
  - simpl Nat.iter. unfold fall at 1 3 5 7. simpl.
    rewrite Hy, Ha, Hs. repeat split; try assumption.
    + unfold num. rewrite Nat2Z.inj_succ, <- Z.add_1_r, inject_Z_plus.
      simpl (inject_Z 1). ring.
    + unfold num. rewrite Nat2Z.inj_succ, <- Z.add_1_r, inject_Z_plus.
      simpl (inject_Z 1). ring.
Qed.

(** A raindrop that starts at opacity 0.8 and stays above the bottom edge
    survives the cycles 1 to 159. *)
Lemma cycles_survive raindrop n :
  Raindrop.alpha raindrop == 0.8 ->
  (forall k, (1 <= k <= n)%nat ->
     Raindrop.y raindrop + num k * Raindrop.speed raindrop <= canvasHeight) ->
  (n < 160)%nat ->
  cycles canvasHeight n [raindrop] = [Nat.iter n fall raindrop].
Proof.
  intros Halpha. induction n as [|n IH]; intros Hy Hn; [reflexivity|].
  unfold cycles in *. simpl Nat.iter.
  rewrite IH by (try lia; intros k Hk; apply Hy; lia).
  rewrite updateRaindropList_cycle, cycle_singleton.
  change (fall (Nat.iter n fall raindrop)) with (Nat.iter (S n) fall raindrop).
  destruct (fall_iter_fields (S n) raindrop) as (Hfy & Hfa & _ & _).
  assert (Hoff : offCanvasOrTransparent canvasHeight (Nat.iter (S n) fall raindrop)
                 = false).
  { unfold offCanvasOrTransparent. apply orb_false_iff. split.
    - unfold Qgtb. apply Qltb_ge. rewrite Hfy. apply Hy. lia.
    - destruct (Qle_bool _ 0) eqn:E; [|reflexivity].
      apply Qle_bool_iff in E. rewrite Hfa, Halpha in E.
      assert (num (S n) <= 159).
      { change 159 with (num 159). apply num_le. lia. }
      lra. }
  now rewrite Hoff.
Qed.

(** The 160th cycle removes it: its opacity has reached zero. *)
Lemma cycles_destroy raindrop :
  Raindrop.alpha raindrop == 0.8 ->
  (forall k, (1 <= k <= 159)%nat ->
     Raindrop.y raindrop + num k * Raindrop.speed raindrop <= canvasHeight) ->
  cycles canvasHeight 160 [raindrop] = [].
Proof.
  intros Halpha Hy.
  change 160%nat with (S 159). rewrite cycles_succ.
  rewrite cycles_survive by (try assumption; lia).
  rewrite updateRaindropList_cycle, cycle_singleton.
  change (fall (Nat.iter 159 fall raindrop)) with (Nat.iter 160 fall raindrop).
  destruct (fall_iter_fields 160 raindrop) as (_ & Hfa & _ & _).
  assert (Hoff : offCanvasOrTransparent canvasHeight (Nat.iter 160 fall raindrop)
                 = true).
  { unfold offCanvasOrTransparent. apply orb_true_iff. right.
    apply Qle_bool_iff. rewrite Hfa, Halpha.
    change (num 160) with 160. lra. }
  now rewrite Hoff.
Qed.

End RaindropFacts.

(** The fade replayed in binary64, the arithmetic of the source: starting
    from 0.8 and subtracting 0.005, the opacity is positive after each of
    the first 159 cycles and not positive after the 160th. *)
Lemma fade_binary64 :
  forallb (fun n => negb (PrimFloat.leb (fade64 n 0.8%float) 0%float)) (seq 0 160)
  = true
  /\ PrimFloat.leb (fade64 160 0.8%float) 0%float = true.
Proof. split; vm_compute; reflexivity. Qed.

(** C6.  [createRaindrop] appends a raindrop of opacity 0.8 whose speed is
    [1.5 + (value / 255) * 2.5]; an update cycle moves every raindrop down
    by its speed, lowers its opacity by 0.005 and keeps exactly those that
    are then neither below the canvas nor at opacity zero or less; so a
    raindrop that stays above the bottom edge is in the store after each of
    its first 159 cycles and is gone after the 160th, whatever else the
    store holds. *)
Theorem raindrop_lifecycle
    (s : AudioVisualizer) (x y width height value canvasHeight : Q)
    (others : list Raindrop.t) :
  let created := createRaindrop x y width height value s in
  let raindrop := List.last (raindrops created) (Raindrop.mk 0 0 0 0 0 0 0) in
  (forall k, (1 <= k <= 159)%nat ->
     Raindrop.y raindrop + num k * Raindrop.speed raindrop <= canvasHeight) ->
  raindrops created = raindrops s ++ [raindrop] /\
  Raindrop.alpha raindrop = 0.8 /\
  Raindrop.speed raindrop = 1.5 + (value / 255) * 2.5 /\
  (forall r, Raindrop.y (fall r) = Raindrop.y r + Raindrop.speed r
             /\ Raindrop.alpha (fall r) = Raindrop.alpha r - 0.005) /\
  (forall drops,
     updateRaindropList canvasHeight drops
     = List.filter (fun r => negb (Qgtb (Raindrop.y r) canvasHeight
                                   || Qle_bool (Raindrop.alpha r) 0))
                   (map fall drops)) /\
  (forall n, (n < 160)%nat ->
     cycles canvasHeight n (others ++ [raindrop])
     = cycles canvasHeight n others ++ [Nat.iter n fall raindrop]) /\
  cycles canvasHeight 160 (others ++ [raindrop]) = cycles canvasHeight 160 others.
Proof.
  intros created raindrop Hstay.
  assert (Hlast : raindrop
                  = {| Raindrop.x := x + width / 2;
                       Raindrop.y := y + height;
                       Raindrop.width := Math_max 1 (width * 0.3);
                       Raindrop.height := Math_max 2 (height * 0.1);
                       Raindrop.speed := 1.5 + (value / 255) * 2.5;
                       Raindrop.alpha := 0.8;
                       Raindrop.value := value |}).
  { unfold raindrop, created, createRaindrop.
    change (raindrops (set_raindrops ?l ?t)) with l.
    now rewrite List.last_last. }
  assert (Halpha : Raindrop.alpha raindrop == 0.8) by (now rewrite Hlast).
  repeat split.
  - now rewrite Hlast.
  - now rewrite Hlast.
  - now rewrite Hlast.
  - apply updateRaindropList_cycle.
  - intros n Hn. rewrite cycles_app. f_equal.
    apply cycles_survive; [exact Halpha| |exact Hn].
    intros k Hk. apply Hstay. lia.
  - rewrite cycles_app, cycles_destroy by assumption. apply app_nil_r.
Qed.

(** The hypothesis of [raindrop_lifecycle] on a canvas 800 pixels high: a
    raindrop created at the top for the value 0 falls 1.5 pixels per
    cycle. *)
Lemma raindrop_lifecycle_witness :
  cycles 800 160 [List.last (raindrops (createRaindrop 10 0 8 20 0 constructed))
                            (Raindrop.mk 0 0 0 0 0 0 0)]
  = cycles 800 160 [].
Proof.
  refine (proj2 (proj2 (proj2 (proj2 (proj2 (proj2
    (raindrop_lifecycle constructed 10 0 8 20 0 800 [] _))))))).
  intros k Hk. cbn.
  assert (H : num k <= 159) by (change 159 with (num 159); apply num_le; lia).
  assert (H0 : 0 <= num k) by (change 0 with (num 0); apply num_le; lia).
  assert (E : 1.5 + 0 / 255 * 2.5 == 1.5) by reflexivity.
  rewrite E. lra.
Defined.

(** ** Stopping *)

Section StopFacts.

Ltac open_state s :=
  destruct s as [ac an mic gn ip aid ss cw ch co da fd sm bo se vt fs rd lrt
                 ri brt tf lft lcs sp sz pcp fmh fkh ht hc hn hh hr].

Ltac run_stop :=
  lazy beta iota zeta delta
    [stopVisualizer stopScreenShare stopVisualization closeContext stopTracks
     clearRect set_animationId set_microphone set_audioContext set_screenShare
     set_fullscreenKeyHandler set_fullscreenMouseHandler set_analyser
     set_gainNode set_isPlaying set_raindrops set_lastRaindropTime
     set_barRaindropTimers set_canvas_ops set_host_tracks set_host_contexts
     audioContext analyser microphone gainNode isPlaying animationId
     screenShare canvas_width canvas_height canvas_ops dataArray frequencyData
     smoothedFrequencyData boostedFrequencyData sensitivity visualType
     isFullscreen raindrops lastRaindropTime raindropInterval
     barRaindropTimers targetFPS lastFrameTime lastCanvasSize starPositions
     starSizes previousCirclePositions fullscreenMouseHandler
     fullscreenKeyHandler host_tracks host_contexts host_nextId
     host_nextHandle host_randomCalls].

Lemma stopVisualizer_idempotent s :
  stopVisualizer (stopVisualizer s) = stopVisualizer s.
Proof.
  open_state s. destruct aid, mic, ac, ss, fmh; vm_compute; reflexivity.
Qed.

Lemma stopVisualizer_idle s :
  isPlaying (stopVisualizer s) = false
  /\ animationId (stopVisualizer s) = None
  /\ analyser (stopVisualizer s) = false
  /\ microphone (stopVisualizer s) = None
  /\ screenShare (stopVisualizer s) = None
  /\ audioContext (stopVisualizer s) = None
  /\ raindrops (stopVisualizer s) = []
  /\ barRaindropTimers (stopVisualizer s) = ∅
  /\ canvas_ops (stopVisualizer s) = [].
Proof.
  open_state s.
  (destruct aid, mic, ac, ss, fmh; repeat split; run_stop; reflexivity).
Qed.

(** The audio context is closed. *)
Lemma stopVisualizer_closes_context s context :
  audioContext s = Some context ->
  host_contexts (stopVisualizer s) !! context = Some false.
Proof.
  open_state s. cbn [audioContext]. intros ->.
  (destruct aid, mic, ss, fmh; run_stop; apply lookup_insert_eq).
Qed.

(** The tracks of the stream held by [microphone] are stopped. *)
Lemma stopVisualizer_stops_microphone_tracks s stream :
  microphone s = Some stream ->
  host_tracks (stopVisualizer s) !! stream
  = map (fun _ => false) <$> host_tracks s !! stream.
Proof.
  open_state s. cbn [microphone host_tracks]. intros ->.
  (destruct aid, ac, ss, fmh; run_stop; apply lookup_alter_eq).
Qed.

Lemma stopVisualizer_keeps_screenShare_tracks s stream :
  screenShare s = Some stream ->
  microphone s <> Some stream ->
  host_tracks (stopVisualizer s) !! stream = host_tracks s !! stream.
Proof.
  open_state s. cbn [screenShare microphone host_tracks]. intros -> Hm.
  (destruct aid, ac, mic as [m|], fmh; run_stop;
    try reflexivity; apply lookup_alter_ne; congruence).
Qed.
End StopFacts.

(** C9.  Screen-share capture on a desktop delivers a stream of two tracks
    (stream 0, audio context 1).  [stopVisualizer] then leaves the
    visualizer idle, empties the raindrop store and the timers, closes the
    audio context and does the same when called again, but the two tracks
    of the stream are still live; after microphone capture the track of
    the stream is stopped. *)
Theorem stopVisualizer_leaves_screen_share_tracks_live :
  let w := {| containerWidth := Some 1040; innerWidth := 1280;
              innerHeight := 720 |} in
  let running := startScreenShare w 2 constructed in
  let stopped := stopVisualizer running in
  (isPlaying running = true /\ screenShare running = Some 0%nat
   /\ audioContext running = Some 1%nat
   /\ host_tracks running !! 0%nat = Some [true; true]) /\
  (isPlaying stopped = false /\ raindrops stopped = []
   /\ barRaindropTimers stopped = ∅
   /\ host_contexts stopped !! 1%nat = Some false
   /\ stopVisualizer stopped = stopped) /\
  host_tracks stopped !! 0%nat = Some [true; true] /\
  host_tracks (stopVisualizer (startMicrophone w 1 constructed)) !! 0%nat
  = Some [false].
Proof.
  cbv zeta. repeat apply conj;
    first [apply stopVisualizer_idempotent | vm_compute; reflexivity].
Qed.

(** ** Mirrored bars of a flat spectrum *)

Section FlatSpectrum.

Lemma at_lookup (l : list Q) i : (i < length l)%nat -> l !! i = Some (at_ l i).
Proof.
  intros Hi. unfold at_. rewrite nth_lookup.
  destruct (lookup_lt_is_Some_2 l i Hi) as [x Hx]. now rewrite Hx.
Qed.

Lemma nth_repeat_lt {A} (a d : A) n : forall i,
  (i < n)%nat -> nth i (repeat a n) d = a.
Proof.
  induction n as [|n IH]; intros i Hi; [lia|].
  destruct i as [|i]; [reflexivity|]. simpl. apply IH. lia.
Qed.

(** The boosted value of a bin of a spectrum that holds 200 everywhere:
    200 below the boost region, the clamp 255 inside it. *)
Lemma boost_flat200 N i :
  (i < N)%nat ->
  at_ (applyHighEndBoost (repeat 200%Z N)) i
  == if (Z.of_nat i <? highEndStart N)%Z then 200 else 255.
Proof.
  intros Hi.
  rewrite applyHighEndBoost_at by (now rewrite repeat_length).
  rewrite repeat_length, nth_repeat_lt by exact Hi.
  destruct (Z.ltb_spec (Z.of_nat i) (highEndStart N)) as [Hlt|Hge].
  - now rewrite boostBin_below.
  - rewrite boostBin_region by exact Hge.
    destruct (highEndStart_bounds N) as [_ Hn].
    assert (HN : (highEndStart N < Z.of_nat N)%Z) by (apply Hn; lia).
    set (num_ := inject_Z (Z.of_nat i - highEndStart N)).
    set (den := inject_Z (Z.of_nat N - highEndStart N)).
    assert (Hnum : 0 <= num_).
    { unfold num_. change 0 with (inject_Z 0). rewrite <- Zle_Qle. lia. }
    assert (Hden : 0 < den).
    { unfold den. change 0 with (inject_Z 0). rewrite <- Zlt_Qlt. lia. }
    assert (Hpos : 0 <= num_ / den).
    { apply Qle_shift_div_l; [exact Hden|]. lra. }
    apply Q.min_l. change (inject_Z 200) with 200. lra.
Qed.

End FlatSpectrum.

(** C5, as the code has it.  When every bin of the sample is 200, the
    sensitivity is 1 and the canvas is 1000 by 600, the mirrored-bars mode
    paints for every bin two bars of the same height, placed symmetrically
    about the vertical line x = 500 and standing on the bottom edge; the
    height is (200/255) * 0.8 * 600 (about 376) for the bins below the
    boost region and 480 for the bins of the boost region, whose boosted
    value is the clamp 255. *)
Theorem mirrored_bars_of_flat_spectrum (s : AudioVisualizer) (N i : nat) :
  frequencyData s = repeat 200%Z N ->
  boostedFrequencyData s = Some (applyHighEndBoost (frequencyData s)) ->
  canvas_width s == 1000 -> canvas_height s == 600 -> sensitivity s == 1 ->
  (i < N)%nat ->
  canvas_ops (drawFrequencyBars2x s)
  = canvas_ops s ++ concat (imap (bars2xOf s (selectData s)) (selectData s))
  /\ exists xRight xLeft y width height value,
       imap (bars2xOf s (selectData s)) (selectData s) !! i
       = Some [FillRoundedBar xRight y width height value;
               FillRoundedBar xLeft y width height value]
       /\ ((Z.of_nat i < highEndStart N)%Z ->
           height == (200 / 255) * 0.8 * 600 /\ 376 < height /\ height < 377)
       /\ ((highEndStart N <= Z.of_nat i)%Z -> height == 480)
       /\ y == 600 - height
       /\ xLeft == 2 * 500 - (xRight + width).
Proof.
  intros Hraw Hboost Hw Hh Hsens Hi.
  assert (Hsel : selectData s = applyHighEndBoost (repeat 200%Z N)).
  { unfold selectData. now rewrite Hboost, Hraw. }
  assert (Hlen : length (selectData s) = N).
  { now rewrite Hsel, applyHighEndBoost_length, repeat_length. }
  split.
  - unfold drawFrequencyBars2x, noSpectrum. rewrite Hraw, repeat_length.
    destruct N; [lia|]. reflexivity.
  - rewrite list_lookup_imap, at_lookup by (now rewrite Hlen).
    pose proof (boost_flat200 N i Hi) as Hbin. rewrite <- Hsel in Hbin.
    set (bin := at_ (selectData s) i) in *.
    eexists _, _, _, _, _, _. split; [reflexivity|].
    repeat apply conj.
    + intros Hlt. apply Z.ltb_lt in Hlt. rewrite Hlt in Hbin.
      assert (E : bin * sensitivity s / 255 * (canvas_height s * 0.8)
                  == (200 / 255) * 0.8 * 600).
      { rewrite Hbin, Hsens, Hh. reflexivity. }
      rewrite E. repeat apply conj; reflexivity.
    + intros Hge. apply Z.ltb_ge in Hge. rewrite Hge in Hbin.
      rewrite Hbin, Hsens, Hh. reflexivity.
    + rewrite Hh. reflexivity.
    + unfold xLeftOf, xRightOf. rewrite Hw. field.
      rewrite Hlen. unfold num. change 0 with (inject_Z 0).
      rewrite inject_Z_injective. lia.
Qed.

(** ** Closed instances *)

(** The hypotheses of [mirrored_bars_of_flat_spectrum] at the state the
    conditioner leaves after a frame of 128 bins at 200, on the 1000 by
    600 canvas, for the last bin. *)
Lemma mirrored_bars_of_flat_spectrum_witness :
  let s := conditionSpectrum (flatFrame 200)
             (set_visualType "frequency2x" listeningFullscreen) in
  canvas_ops (drawFrequencyBars2x s)
  = canvas_ops s ++ concat (imap (bars2xOf s (selectData s)) (selectData s)).
Proof.
  refine (proj1 (mirrored_bars_of_flat_spectrum
                   (conditionSpectrum (flatFrame 200)
                      (set_visualType "frequency2x" listeningFullscreen))
                   128 127 _ _ _ _ _ _)).
  - vm_compute. reflexivity.
  - vm_compute. reflexivity.
  - reflexivity.
  - reflexivity.
  - reflexivity.
  - lia.
Defined.

(** C5 as the spec states it fails on that frame: the first bar is about
    376 pixels high, the bar of the last bin is 480 pixels high. *)
Lemma flat_spectrum_bars_differ :
  let s := set_visualType "frequency2x" listeningFullscreen in
  let s' := animate exampleSqrt exampleSin exampleCos examplePI exampleRandom
              (flatFrame 200) s in
  (canvas_width s' = 1000 /\ canvas_height s' = 600 /\ sensitivity s' == 1) /\
  length (barHeights (canvas_ops s')) = 256%nat /\
  at_ (barHeights (canvas_ops s')) 0 == (200 / 255) * 0.8 * 600 /\
  at_ (barHeights (canvas_ops s')) 254 == 480 /\
  ~ at_ (barHeights (canvas_ops s')) 254 == (200 / 255) * 0.8 * 600.
Proof.
  cbv zeta. repeat apply conj; vm_compute; congruence.
Qed.

(** The hypotheses of [frames_draw_from_boosted_spectrum] at the same
    frame. *)
Lemma frames_draw_from_boosted_spectrum_witness :
  let s := set_visualType "frequency2x" listeningFullscreen in
  selectData
    (conditionSpectrum (flatFrame 200)
       (set_lastFrameTime (timestamp (flatFrame 200)) s))
  = applyHighEndBoost
      (getByteData (frequencyData s) (frequencyBytes (flatFrame 200))).
Proof.
  refine (proj1 (proj2 (proj2 (proj2
    (frames_draw_from_boosted_spectrum exampleSqrt exampleSin exampleCos
       examplePI exampleRandom (flatFrame 200)
       (set_visualType "frequency2x" listeningFullscreen) _ _))))).
  - vm_compute. reflexivity.
  - vm_compute. lia.
Defined.

(** C1 as the spec states it fails on that frame: after the frame the
    conditioned spectrum holds 30 in bin 0 (0.15 * 200 + 0.85 * 0), and the
    bar of bin 0 is painted for the value 200. *)
Lemma smoothed_spectrum_is_not_drawn :
  let s := set_visualType "frequency2x" listeningFullscreen in
  let s' := animate exampleSqrt exampleSin exampleCos examplePI exampleRandom
              (flatFrame 200) s in
  frameProcessed (flatFrame 200) s = true /\
  at_ (smoothedFrequencyData s') 0 == 30 /\
  at_ (barValues (canvas_ops s')) 0 == 200 /\
  ~ at_ (barValues (canvas_ops s')) 0
    == at_ (smoothedFrequencyData s') 0 * sensitivity s'.
Proof.
  cbv zeta. repeat apply conj; vm_compute; congruence.
Qed.

(** [raindrops_change_only_in_3x_frames_and_stop] at a frame: the
    visualizer listens in the mode [frequency3x] with an empty store, and
    a frame with every bin at 200 arrives; the bars are tall enough, so the
    frame puts raindrops into the store. *)
Lemma raindrops_change_only_in_3x_frames_and_stop_witness :
  let e := AnimationFrame (flatFrame 200) in
  let after :=
    step exampleSqrt exampleSin exampleCos examplePI exampleRandom e listening in
  raindrops after <> raindrops listening
  /\ (e = StopVisualizer
      \/ ((exists input, e = AnimationFrame input)
          /\ visualType listening = "frequency3x"%string)).
Proof.
  cbv zeta.
  assert (H : raindrops
                (step exampleSqrt exampleSin exampleCos examplePI exampleRandom
                   (AnimationFrame (flatFrame 200)) listening)
              <> raindrops listening) by (vm_compute; discriminate).
  split; [exact H|].
  exact (proj1 (raindrops_change_only_in_3x_frames_and_stop exampleSqrt
                  exampleSin exampleCos examplePI exampleRandom
                  (AnimationFrame (flatFrame 200)) listening) H).
Defined.

(** The hypothesis of [resize_to_identical_size_regenerates_stars] at the
    listening visualizer in the desktop window. *)
Lemma resize_to_identical_size_regenerates_stars_witness :
  starsNeedRegeneration
    (onResize desktop
       (drawStarlight exampleSqrt exampleRandom (onResize desktop listening)))
  = true.
Proof.
  refine (proj1 (proj2 (proj2 (proj2 (proj2
    (resize_to_identical_size_regenerates_stars exampleSqrt exampleRandom
       1040 1280 720 listening _)))))).
  vm_compute. reflexivity.
Defined.

(** The regeneration seen on three stars: the two resize events leave the
    canvas at the same size, the second starlight frame draws nine more
    random numbers, and the first star has moved. *)
Lemma stars_move_after_resize_to_identical_size :
  let s := set_boostedFrequencyData (Some [10; 20; 30]) listening in
  let drawn := drawStarlight exampleSqrt exampleRandom (onResize desktop s) in
  let again :=
    drawStarlight exampleSqrt exampleRandom (onResize desktop drawn) in
  canvas_width (onResize desktop drawn) = canvas_width drawn /\
  canvas_height (onResize desktop drawn) = canvas_height drawn /\
  host_randomCalls drawn = 9%nat /\
  host_randomCalls again = 18%nat /\
  (exists a b, default [] (starPositions drawn) !! 0%nat = Some a
     /\ default [] (starPositions again) !! 0%nat = Some b
     /\ ~ Star.x a == Star.x b).
Proof.
  cbv zeta. repeat apply conj; try (vm_compute; reflexivity).
  eexists _, _.
  repeat apply conj; [vm_compute; reflexivity | vm_compute; reflexivity|].
  vm_compute. congruence.
Qed.

(** * Further properties of the pipeline *)

(** ** The boost on byte spectra *)

Section BoostOnBytes.

Lemma boost_multiplier_ge n i :
  (n <> 0)%nat -> (highEndStart n <= Z.of_nat i)%Z ->
  1.5 <= 1.5 + 0.8 * (inject_Z (Z.of_nat i - highEndStart n)
                      / inject_Z (Z.of_nat n - highEndStart n)).
Proof.
  intros Hn Hi.
  destruct (highEndStart_bounds n) as [_ Hlt]. specialize (Hlt Hn).
  set (a := inject_Z (Z.of_nat i - highEndStart n)).
  set (d := inject_Z (Z.of_nat n - highEndStart n)).
  assert (Ha : 0 <= a).
  { unfold a. change 0 with (inject_Z 0). rewrite <- Zle_Qle. lia. }
  assert (Hd : 0 < d).
  { unfold d. change 0 with (inject_Z 0). rewrite <- Zlt_Qlt. lia. }
  assert (0 <= a / d) by (apply Qle_shift_div_l; [exact Hd|lra]).
  lra.
Qed.

Lemma byte_bounds (raw : list Z) i :
  Forall (fun v => (0 <= v <= 255)%Z) raw -> (i < length raw)%nat ->
  0 <= byte_at raw i /\ byte_at raw i <= 255.
Proof.
  intros Hall Hi. unfold byte_at.
  assert (Hin : (0 <= nth i raw 0 <= 255)%Z).
  { rewrite Forall_lookup in Hall.
    destruct (lookup_lt_is_Some_2 raw i Hi) as [v Hv].
    rewrite nth_lookup, Hv. simpl. exact (Hall i v Hv). }
  split.
  - change 0 with (inject_Z 0). rewrite <- Zle_Qle. lia.
  - change 255 with (inject_Z 255). rewrite <- Zle_Qle. lia.
Qed.

End BoostOnBytes.

Lemma applyHighEndBoost_between (raw : list Z) (i : nat) :
  Forall (fun v => (0 <= v <= 255)%Z) raw ->
  (i < length raw)%nat ->
  byte_at raw i <= at_ (applyHighEndBoost raw) i
  /\ at_ (applyHighEndBoost raw) i <= 255.
Proof.
  intros Hall Hi.
  destruct (byte_bounds raw i Hall Hi) as [H0 H255].
  rewrite applyHighEndBoost_at by exact Hi.
  destruct (Z.lt_ge_cases (Z.of_nat i) (highEndStart (length raw))) as [Hlt|Hge].
  - rewrite boostBin_below by exact Hlt. fold (byte_at raw i).
    split; [lra|exact H255].
  - pose proof (boostBin_region (length raw) i (nth i raw 0%Z) Hge) as E.
    fold (byte_at raw i) in E.
    pose proof (boost_multiplier_ge (length raw) i ltac:(lia) Hge) as Hm.
    set (m := 1.5 + 0.8 * _) in *.
    split.
    + rewrite E. apply Q.min_glb; [exact H255|]. nra.
    + rewrite E. apply Q.le_min_l.
Qed.

(** X1.  On a spectrum of bytes the boost keeps the length, never lowers
    a bin, never leaves the range 0..255, and copies the bins below the
    boost region. *)
Theorem boost_dominates_and_stays_in_range (raw : list Z) (i : nat) :
  Forall (fun v => (0 <= v <= 255)%Z) raw ->
  (i < length raw)%nat ->
  length (applyHighEndBoost raw) = length raw /\
  byte_at raw i <= at_ (applyHighEndBoost raw) i /\
  at_ (applyHighEndBoost raw) i <= 255 /\
  ((Z.of_nat i < highEndStart (length raw))%Z ->
   at_ (applyHighEndBoost raw) i = byte_at raw i).
Proof.
  intros Hall Hi.
  destruct (applyHighEndBoost_between raw i Hall Hi) as [Hd Hu].
  split; [apply applyHighEndBoost_length|].
  split; [exact Hd|]. split; [exact Hu|].
  intros Hlt. rewrite applyHighEndBoost_at by exact Hi.
  rewrite boostBin_below by exact Hlt. reflexivity.
Qed.

Lemma boost_dominates_and_stays_in_range_witness :
  byte_at [10; 20; 30; 40; 250]%Z 4
  <= at_ (applyHighEndBoost [10; 20; 30; 40; 250]%Z) 4.
Proof.
  refine (proj1 (proj2 (boost_dominates_and_stays_in_range
                          [10; 20; 30; 40; 250]%Z 4 _ _))).
  - repeat constructor; lia.
  - simpl. lia.
Defined.

(** X2.  The boost is monotone: a louder bin in a spectrum of the same
    length is never boosted to a lower value. *)
Theorem boost_is_monotone (raw1 raw2 : list Z) (i : nat) :
  length raw1 = length raw2 ->
  (i < length raw1)%nat ->
  (nth i raw1 0 <= nth i raw2 0)%Z ->
  at_ (applyHighEndBoost raw1) i <= at_ (applyHighEndBoost raw2) i.
Proof.
  intros Hlen Hi Hle.
  rewrite !applyHighEndBoost_at by lia. rewrite <- Hlen.
  assert (Hq : inject_Z (nth i raw1 0%Z) <= inject_Z (nth i raw2 0%Z))
    by (now rewrite <- Zle_Qle).
  destruct (Z.lt_ge_cases (Z.of_nat i) (highEndStart (length raw1))) as [Hlt|Hge].
  - now rewrite !boostBin_below by exact Hlt.
  - rewrite !boostBin_region by exact Hge.
    pose proof (boost_multiplier_ge (length raw1) i ltac:(lia) Hge) as Hm.
    set (m := 1.5 + 0.8 * _) in *.
    apply Q.min_le_compat_l. nra.
Qed.

Lemma boost_is_monotone_witness :
  at_ (applyHighEndBoost [10; 20; 30; 40; 50]%Z) 4
  <= at_ (applyHighEndBoost [10; 20; 30; 40; 90]%Z) 4.
Proof.
  apply (boost_is_monotone [10; 20; 30; 40; 50]%Z [10; 20; 30; 40; 90]%Z 4).
  - reflexivity.
  - simpl. lia.
  - simpl. lia.
Defined.

(** ** The conditioner on a frame *)

Section ConditionerInvariants.

Lemma getByteData_bytes array incoming :
  Forall (fun v => (0 <= v <= 255)%Z) array ->
  Forall (fun v => (0 <= v <= 255)%Z) incoming ->
  Forall (fun v => (0 <= v <= 255)%Z) (getByteData array incoming).
Proof.
  intros Ha Hi. unfold getByteData. apply Forall_app. split.
  - now apply Forall_take.
  - now apply Forall_drop.
Qed.

Lemma inByteRange_at values i :
  inByteRange values -> (i < length values)%nat ->
  0 <= at_ values i /\ at_ values i <= 255.
Proof.
  intros Hall Hi. unfold inByteRange in Hall. rewrite Forall_lookup in Hall.
  apply (Hall i). now apply at_lookup.
Qed.

Lemma inByteRange_Float32Array n : inByteRange (Float32Array n).
Proof.
  unfold inByteRange, Float32Array. apply Forall_forall.
  intros x Hx. apply list_elem_of_In, repeat_spec in Hx. subst. lra.
Qed.

Lemma inByteRange_boost raw :
  Forall (fun v => (0 <= v <= 255)%Z) raw -> inByteRange (applyHighEndBoost raw).
Proof.
  intros Hall. unfold inByteRange. apply Forall_lookup. intros i x Hx.
  assert (Hi : (i < length raw)%nat).
  { apply lookup_lt_Some in Hx. now rewrite applyHighEndBoost_length in Hx. }
  assert (Hat : at_ (applyHighEndBoost raw) i = x).
  { unfold at_. rewrite nth_lookup, Hx. reflexivity. }
  destruct (applyHighEndBoost_between raw i Hall Hi) as (Hd & Hu).
  destruct (byte_bounds raw i Hall Hi) as [H0 _].
  rewrite Hat in Hd, Hu. lra.
Qed.

Lemma inByteRange_smoothStep boosted smoothed :
  length boosted = length smoothed ->
  inByteRange boosted -> inByteRange smoothed ->
  inByteRange (smoothStep boosted smoothed).
Proof.
  intros Hlen Hb Hs. unfold inByteRange. apply Forall_lookup. intros i x Hx.
  assert (Hi : (i < length smoothed)%nat).
  { apply lookup_lt_Some in Hx. now rewrite smoothStep_length in Hx. }
  assert (Hat : at_ (smoothStep boosted smoothed) i = x).
  { unfold at_. rewrite nth_lookup, Hx. reflexivity. }
  rewrite smoothStep_at in Hat by exact Hi. subst x.
  destruct (inByteRange_at boosted i Hb ltac:(lia)) as [Hb0 Hb1].
  destruct (inByteRange_at smoothed i Hs Hi) as [Hs0 Hs1].
  unfold alpha. lra.
Qed.

End ConditionerInvariants.

Lemma conditioner_aligns_buffers_lemma (input : FrameInput) (s : AudioVisualizer) :
  (0 < length (frequencyData s))%nat ->
  length (frequencyData (conditionSpectrum input s)) = length (frequencyData s)
  /\ length (default [] (boostedFrequencyData (conditionSpectrum input s)))
     = length (frequencyData s)
  /\ length (smoothedFrequencyData (conditionSpectrum input s))
     = length (frequencyData s).
Proof.
  intros Hlen.
  destruct (conditionSpectrum_fields input s Hlen) as (Hraw & Hb & Hsm).
  rewrite Hraw, Hb, Hsm. change (default [] (Some ?x)) with x.
  rewrite applyHighEndBoost_length, smoothStep_length, !length_getByteData.
  repeat apply conj; try reflexivity.
  unfold resizeSmoothed.
  destruct (Nat.eqb_spec (length (smoothedFrequencyData s))
              (length (frequencyData s))) as [E|E]; [exact E|].
  unfold Float32Array. apply repeat_length.
Qed.

(** X3.  After the conditioning block of a frame the raw, the boosted and
    the smoothed spectrum have the same length, whatever length the
    smoothing buffer had before; a buffer of another length is replaced by
    zeros first, so that its new content is 0.15 times the boosted
    spectrum. *)
Theorem conditioner_aligns_the_buffers (input : FrameInput) (s : AudioVisualizer) :
  (0 < length (frequencyData s))%nat ->
  let s' := conditionSpectrum input s in
  let boosted := default [] (boostedFrequencyData s') in
  length (frequencyData s') = length (frequencyData s) /\
  length boosted = length (frequencyData s) /\
  length (smoothedFrequencyData s') = length (frequencyData s) /\
  (length (smoothedFrequencyData s) <> length (frequencyData s) ->
   forall i, (i < length (frequencyData s))%nat ->
     at_ (smoothedFrequencyData s') i == 0.15 * at_ boosted i).
Proof.
  intros Hlen s' boosted.
  destruct (conditionSpectrum_fields input s Hlen) as (Hraw & Hb & Hsm).
  fold s' in Hraw, Hb, Hsm. unfold boosted. rewrite Hraw, Hb, Hsm.
  change (default [] (Some ?x)) with x.
  rewrite applyHighEndBoost_length, smoothStep_length, !length_getByteData.
  repeat apply conj; try reflexivity.
  - unfold resizeSmoothed. destruct (Nat.eqb_spec (length (smoothedFrequencyData s))
                                       (length (frequencyData s))) as [E|E].
    + exact E.
    + unfold Float32Array. apply repeat_length.
  - intros Hne i Hi. unfold resizeSmoothed.
    destruct (Nat.eqb_spec (length (smoothedFrequencyData s))
                (length (frequencyData s))) as [E|E]; [contradiction|].
    rewrite smoothStep_at
      by (unfold Float32Array; rewrite repeat_length; exact Hi).
    unfold at_ at 2, Float32Array. rewrite nth_repeat_lt by exact Hi.
    unfold alpha. ring.
Qed.

Lemma conditioner_aligns_the_buffers_witness :
  length (smoothedFrequencyData
            (conditionSpectrum (flatFrame 200)
               (set_smoothedFrequencyData [1; 2; 3] listening)))
  = length (frequencyData (set_smoothedFrequencyData [1; 2; 3] listening)).
Proof.
  refine (proj1 (proj2 (proj2 (conditioner_aligns_the_buffers (flatFrame 200)
            (set_smoothedFrequencyData [1; 2; 3] listening) _)))).
  vm_compute. lia.
Defined.

(** X4.  When the analyser delivers bytes and the smoothing buffer holds
    values between 0 and 255, the boosted and the smoothed spectrum of the
    frame hold values between 0 and 255 again. *)
Theorem conditioner_stays_in_byte_range (input : FrameInput) (s : AudioVisualizer) :
  (0 < length (frequencyData s))%nat ->
  Forall (fun v => (0 <= v <= 255)%Z) (frequencyData s) ->
  Forall (fun v => (0 <= v <= 255)%Z) (frequencyBytes input) ->
  inByteRange (smoothedFrequencyData s) ->
  let s' := conditionSpectrum input s in
  Forall (fun v => (0 <= v <= 255)%Z) (frequencyData s') /\
  inByteRange (default [] (boostedFrequencyData s')) /\
  inByteRange (smoothedFrequencyData s').
Proof.
  intros Hlen Hold Hnew Hsm s'.
  destruct (conditionSpectrum_fields input s Hlen) as (Hraw & Hb & Hs).
  fold s' in Hraw, Hb, Hs. rewrite Hraw, Hb, Hs.
  change (default [] (Some ?x)) with x.
  pose proof (getByteData_bytes _ _ Hold Hnew) as Hbytes.
  pose proof (inByteRange_boost _ Hbytes) as Hboost.
  repeat apply conj; [exact Hbytes|exact Hboost|].
  apply inByteRange_smoothStep; [|exact Hboost|].
  - rewrite applyHighEndBoost_length. unfold resizeSmoothed.
    destruct (Nat.eqb_spec (length (smoothedFrequencyData s))
                (length (getByteData (frequencyData s) (frequencyBytes input))))
      as [E|E]; [now rewrite E|].
    unfold Float32Array. now rewrite repeat_length.
  - unfold resizeSmoothed. destruct (Nat.eqb _ _);
      [exact Hsm|apply inByteRange_Float32Array].
Qed.

Lemma conditioner_stays_in_byte_range_witness :
  inByteRange (smoothedFrequencyData (conditionSpectrum (flatFrame 200) constructed)).
Proof.
  refine (proj2 (proj2 (conditioner_stays_in_byte_range (flatFrame 200)
                          constructed _ _ _ _))).
  - cbn [frequencyData constructed]. rewrite repeat_length. lia.
  - apply Forall_forall. intros x Hx.
    apply list_elem_of_In, repeat_spec in Hx. subst. lia.
  - apply Forall_forall. intros x Hx.
    apply list_elem_of_In, repeat_spec in Hx. subst. lia.
  - apply inByteRange_Float32Array.
Defined.

(** ** The raindrop store between spawns *)

Section RaindropStore.

Variable canvasHeight : Q.

Lemma cycle_Forall drops :
  Forall (fun r => Raindrop.y r <= canvasHeight /\ 0 < Raindrop.alpha r)
         (cycle canvasHeight drops).
Proof.
  unfold cycle. apply Forall_forall. intros r Hr.
  apply list_elem_of_In, List.filter_In in Hr as [_ Hr].
  apply negb_true_iff, orb_false_iff in Hr as [Hy Ha].
  split.
  - now apply Qltb_ge in Hy.
  - apply Qnot_le_lt. intros Hle. apply Qle_bool_iff in Hle. congruence.
Qed.

Lemma cycle_sublist drops : sublist (cycle canvasHeight drops) (map fall drops).
Proof.
  unfold cycle. induction (map fall drops) as [|r l IH]; simpl.
  - constructor.
  - destruct (negb _); now constructor.
Qed.

Lemma cycles_singleton_cases n raindrop :
  cycles canvasHeight n [raindrop] = []
  \/ cycles canvasHeight n [raindrop] = [Nat.iter n fall raindrop].
Proof.
  induction n as [|n [IH|IH]].
  - right. reflexivity.
  - left. rewrite cycles_succ, IH. reflexivity.
  - rewrite cycles_succ, IH, updateRaindropList_cycle, cycle_singleton.
    destruct (offCanvasOrTransparent _ _); [left|right]; reflexivity.
Qed.

Lemma cycles_160_singleton raindrop :
  Raindrop.alpha raindrop <= 0.8 -> cycles canvasHeight 160 [raindrop] = [].
Proof.
  intros Halpha. change 160%nat with (S 159). rewrite cycles_succ.
  destruct (cycles_singleton_cases 159 raindrop) as [E|E]; rewrite E;
    [reflexivity|].
  rewrite updateRaindropList_cycle, cycle_singleton.
  change (fall (Nat.iter 159 fall raindrop)) with (Nat.iter 160 fall raindrop).
  destruct (fall_iter_fields 160 raindrop) as (_ & Hfa & _ & _).
  assert (Hoff : offCanvasOrTransparent canvasHeight (Nat.iter 160 fall raindrop)
                 = true).
  { unfold offCanvasOrTransparent. apply orb_true_iff. right.
    apply Qle_bool_iff. rewrite Hfa. change (num 160) with 160. lra. }
  now rewrite Hoff.
Qed.

End RaindropStore.

(** X5.  An update cycle never lengthens the store, keeps the raindrops in
    their order (the result is a sublist of the moved raindrops), and
    leaves only raindrops that are on the canvas and have a positive
    opacity. *)
Theorem update_keeps_the_visible_raindrops_in_order
    (canvasHeight : Q) (drops : list Raindrop.t) :
  sublist (updateRaindropList canvasHeight drops) (map fall drops) /\
  (length (updateRaindropList canvasHeight drops) <= length drops)%nat /\
  Forall (fun r => Raindrop.y r <= canvasHeight /\ 0 < Raindrop.alpha r)
         (updateRaindropList canvasHeight drops).
Proof.
  rewrite (updateRaindropList_cycle canvasHeight drops).
  pose proof (cycle_sublist canvasHeight drops) as Hsub.
  repeat apply conj.
  - exact Hsub.
  - apply sublist_length in Hsub. now rewrite length_map in Hsub.
  - apply cycle_Forall.
Qed.

(** X6.  Every raindrop is time-bounded: when no raindrop of the store is
    more opaque than a new one (0.8), 160 update cycles without a spawn
    empty the store, wherever the raindrops are. *)
Theorem store_is_empty_after_160_cycles
    (canvasHeight : Q) (drops : list Raindrop.t) :
  Forall (fun r => Raindrop.alpha r <= 0.8) drops ->
  cycles canvasHeight 160 drops = [].
Proof.
  induction drops as [|r drops IH]; intros Hall.
  - apply cycles_nil.
  - inversion Hall as [|? ? Hr Hrest]; subst.
    change (r :: drops) with ([r] ++ drops).
    rewrite cycles_app, (cycles_160_singleton canvasHeight r Hr).
    now apply IH.
Qed.

Lemma store_is_empty_after_160_cycles_witness :
  cycles 600 160 [Raindrop.mk 10 20 3 2 4 0.8 255; Raindrop.mk 50 0 3 2 1.5 0.3 0]
  = [].
Proof.
  apply store_is_empty_after_160_cycles.
  repeat constructor; cbn; lra.
Defined.

(** ** Layout of the bar modes *)

Section BarLayout.

Lemma length_concat_imap {A B} (k : nat) (l : list A) : forall (f : nat -> A -> list B),
  (forall i x, length (f i x) = k) ->
  length (concat (imap f l)) = (k * length l)%nat.
Proof.
  induction l as [|a l IH]; intros f Hf; simpl.
  - lia.
  - rewrite length_app, Hf, (IH (f ∘ S)) by (intros; apply Hf). lia.
Qed.

Lemma num_pos n : (n <> 0)%nat -> ~ num n == 0.
Proof.
  intros Hn. unfold num. change 0 with (inject_Z 0).
  rewrite inject_Z_injective. lia.
Qed.

End BarLayout.

(** X7.  The mirrored-bars mode paints two bars per bin of the selected
    spectrum.  The two bars of a bin have the width of half the canvas
    divided by the number of bins, plus 5; their height is
    [value / 255 * 0.8 * canvas height] for the scaled value
    [bin * sensitivity]; they stand on the bottom edge, and the left bar is
    the mirror image of the right bar about the vertical centre line. *)
Theorem mirrored_bars_layout (s : AudioVisualizer) (i : nat) :
  noSpectrum s = false ->
  (i < length (selectData s))%nat ->
  let data := selectData s in
  canvas_ops (drawFrequencyBars2x s)
  = canvas_ops s ++ concat (imap (bars2xOf s data) data) /\
  length (concat (imap (bars2xOf s data) data)) = (2 * length data)%nat /\
  exists xRight xLeft y width height value,
    imap (bars2xOf s data) data !! i
    = Some [FillRoundedBar xRight y width height value;
            FillRoundedBar xLeft y width height value]
    /\ value == at_ data i * sensitivity s
    /\ height == value / 255 * 0.8 * canvas_height s
    /\ width == canvas_width s / 2 / num (length data) + 5
    /\ y + height == canvas_height s
    /\ xLeft + width == canvas_width s - xRight.
Proof.
  intros Hs Hi data.
  repeat apply conj.
  - unfold drawFrequencyBars2x. now rewrite Hs.
  - now apply length_concat_imap.
  - rewrite list_lookup_imap, at_lookup by exact Hi.
    eexists _, _, _, _, _, _. split; [reflexivity|].
    repeat apply conj; try reflexivity.
    + ring.
    + ring.
    + unfold xLeftOf, xRightOf. field.
      apply num_pos. subst data. lia.
Qed.

Lemma mirrored_bars_layout_witness :
  let s := set_boostedFrequencyData (Some [10; 20; 30]) constructed in
  length (concat (imap (bars2xOf s (selectData s)) (selectData s)))
  = (2 * length (selectData s))%nat.
Proof.
  refine (proj1 (proj2 (mirrored_bars_layout
            (set_boostedFrequencyData (Some [10; 20; 30]) constructed) 1 _ _))).
  - reflexivity.
  - cbn. lia.
Defined.

(** X8.  The quadrant mode paints four bars per bin: two that end on the
    horizontal centre line and two that start half a pixel above it, so
    that the upper and the lower bars overlap by 0.5; the left bars are
    the mirror images of the right ones. *)
Theorem quadrant_bars_layout (s : AudioVisualizer) (i : nat) :
  noSpectrum s = false ->
  (i < length (selectData s))%nat ->
  let data := selectData s in
  canvas_ops (drawFrequencyBars4x s)
  = canvas_ops s ++ concat (imap (bars4xOf s data) data) /\
  length (concat (imap (bars4xOf s data) data)) = (4 * length data)%nat /\
  exists xRight xLeft yTop yBottom width height value,
    imap (bars4xOf s data) data !! i
    = Some [FillRoundedBar xRight yTop width height value;
            FillRoundedBar xLeft yTop width height value;
            FillRoundedBar xRight yBottom width height value;
            FillRoundedBar xLeft yBottom width height value]
    /\ value == at_ data i * sensitivity s
    /\ height == value / 255 * (canvas_height s / 3)
    /\ yTop + height == canvas_height s / 2
    /\ yBottom == canvas_height s / 2 - 0.5
    /\ xLeft + width == canvas_width s - xRight.
Proof.
  intros Hs Hi data.
  repeat apply conj.
  - unfold drawFrequencyBars4x. now rewrite Hs.
  - now apply length_concat_imap.
  - rewrite list_lookup_imap, at_lookup by exact Hi.
    eexists _, _, _, _, _, _, _. split; [reflexivity|].
    repeat apply conj; try reflexivity.
    + ring.
    + unfold xLeftOf, xRightOf. field.
      apply num_pos. subst data. lia.
Qed.

Lemma quadrant_bars_layout_witness :
  let s := set_boostedFrequencyData (Some [10; 20; 30]) constructed in
  length (concat (imap (bars4xOf s (selectData s)) (selectData s)))
  = (4 * length (selectData s))%nat.
Proof.
  refine (proj1 (proj2 (quadrant_bars_layout
            (set_boostedFrequencyData (Some [10; 20; 30]) constructed) 1 _ _))).
  - reflexivity.
  - cbn. lia.
Defined.

(** ** Spawning raindrops *)

Section Spawning.

Lemma bars3xBody_cases now data i bin s :
  let s1 := bars3xBody now data i bin s in
  (spawnsRaindrops now i bin s = true /\
   exists r1 r2,
     raindrops s1 = raindrops s ++ [r1; r2]
     /\ Raindrop.alpha r1 = 0.8 /\ Raindrop.alpha r2 = 0.8
     /\ Raindrop.y r1 = 0 + bar3xHeight bin s
     /\ Raindrop.y r2 = 0 + bar3xHeight bin s
     /\ Raindrop.value r1 = bin * sensitivity s
     /\ Raindrop.value r2 = bin * sensitivity s
     /\ barRaindropTimers s1 !! i = Some now)
  \/ (spawnsRaindrops now i bin s = false /\
      raindrops s1 = raindrops s /\
      default 0%Z (barRaindropTimers s1 !! i)
      = default 0%Z (barRaindropTimers s !! i)).
Proof.
  unfold spawnsRaindrops, bars3xBody, bar3xHeight. cbv zeta.
  destruct (Qgtb _ 15); [|right; repeat split].
  cbn [andb].
  change (barRaindropTimers (paint ?ops s)) with (barRaindropTimers s).
  destruct (barRaindropTimers s !! i) as [t|] eqn:Ht.
  - destruct (Z.eqb_spec t 0) as [->|Hne].
    + cbn [set_barRaindropTimers barRaindropTimers raindropInterval paint
           set_canvas_ops].
      rewrite lookup_insert_eq. cbn [default from_option id].
      destruct (raindropInterval s <? now - 0)%Z.
      * left. split; [reflexivity|]. eexists _, _.
        split; [cbn; rewrite <- app_assoc; reflexivity|].
        repeat apply conj; try reflexivity. cbn. apply lookup_insert_eq.
      * right. split; [reflexivity|]. split; [reflexivity|].
        cbn. rewrite ?lookup_insert_eq, ?Ht. reflexivity.
    + cbn [set_barRaindropTimers barRaindropTimers raindropInterval paint
           set_canvas_ops].
      rewrite Ht. cbn [default from_option id].
      destruct (raindropInterval s <? now - t)%Z.
      * left. split; [reflexivity|]. eexists _, _.
        split; [cbn; rewrite <- app_assoc; reflexivity|].
        repeat apply conj; try reflexivity. cbn. apply lookup_insert_eq.
      * right. split; [reflexivity|]. split; [reflexivity|].
        cbn. rewrite ?lookup_insert_eq, ?Ht. reflexivity.
  - cbn [set_barRaindropTimers barRaindropTimers raindropInterval paint
         set_canvas_ops].
    rewrite lookup_insert_eq. cbn [default from_option id].
    destruct (raindropInterval s <? now - 0)%Z.
    + left. split; [reflexivity|]. eexists _, _.
      split; [cbn; rewrite <- app_assoc; reflexivity|].
      repeat apply conj; try reflexivity. cbn. apply lookup_insert_eq.
    + right. split; [reflexivity|]. split; [reflexivity|].
        cbn. rewrite ?lookup_insert_eq, ?Ht. reflexivity.
Qed.

Lemma bars3xBody_raindropInterval now data i bin s :
  raindropInterval (bars3xBody now data i bin s) = raindropInterval s.
Proof.
  unfold bars3xBody. cbv zeta.
  repeat match goal with
         | |- context [if ?c then _ else _] => destruct c
         | |- context [match ?c with Some _ => _ | None => _ end] => destruct c
         end; reflexivity.
Qed.

End Spawning.

(** X9.  One pass of the top-anchored bar loop over a bar position
    either leaves the raindrop store as it is, or (the bar is taller than
    15 pixels and the timer of the position has run out) appends exactly
    two raindrops of opacity 0.8 that start at the lower edge of the bar
    and sets the timer of the position to the current time (a pass that
    creates no raindrop leaves the time of the timer as it was); after
    that the position creates no raindrop at any time up to
    [raindropInterval] milliseconds later, however tall the bar is. *)
Theorem raindrop_spawn_is_rate_limited
    (now : Z) (data : list Q) (i : nat) (bin : Q) (s : AudioVisualizer) :
  let s1 := bars3xBody now data i bin s in
  (raindrops s1 = raindrops s
   \/ exists r1 r2,
        raindrops s1 = raindrops s ++ [r1; r2]
        /\ Raindrop.alpha r1 = 0.8 /\ Raindrop.alpha r2 = 0.8
        /\ Raindrop.y r1 = 0 + bar3xHeight bin s
        /\ Raindrop.y r2 = 0 + bar3xHeight bin s) /\
  (spawnsRaindrops now i bin s = true ->
   length (raindrops s1) = (length (raindrops s) + 2)%nat /\
   barRaindropTimers s1 !! i = Some now /\
   forall later data' bin',
     (later - now <= raindropInterval s)%Z ->
     raindrops (bars3xBody later data' i bin' s1) = raindrops s1) /\
  (spawnsRaindrops now i bin s = false ->
   raindrops s1 = raindrops s /\
   default 0%Z (barRaindropTimers s1 !! i)
   = default 0%Z (barRaindropTimers s !! i)).
Proof.
  intros s1.
  destruct (bars3xBody_cases now data i bin s)
    as [(Hsp & r1 & r2 & Hr & Ha1 & Ha2 & Hy1 & Hy2 & _ & _ & Ht)
       |(Hsp & Hr & Hkept)]; fold s1 in Hr.
  - fold s1 in Ht. repeat apply conj.
    + right. exists r1, r2. now repeat split.
    + intros _. split; [rewrite Hr, length_app; simpl; lia|].
      split; [exact Ht|].
      intros later data' bin' Hlater.
      destruct (bars3xBody_cases later data' i bin' s1)
        as [(Hsp' & _)|(_ & Hr' & _)]; [|exact Hr'].
      exfalso. unfold spawnsRaindrops in Hsp'.
      apply andb_true_iff in Hsp' as [_ Hlt].
      rewrite Ht in Hlt. cbn [default from_option id] in Hlt.
      unfold s1 in Hlt. rewrite bars3xBody_raindropInterval in Hlt.
      apply Z.ltb_lt in Hlt. lia.
    + intros H. congruence.
  - repeat apply conj.
    + left. exact Hr.
    + intros H. congruence.
    + intros _. split; [exact Hr|exact Hkept].
Qed.

(** ** The ring mode *)

Section Rings.

Lemma everyFourth_spec n k :
  (k < (n + 3) / 4)%nat ->
  everyFourth n !! k = Some (4 * k)%nat /\ (4 * k < n)%nat.
Proof.
  intros Hk. unfold everyFourth. split.
  - rewrite list_lookup_fmap, lookup_seq_lt by exact Hk. reflexivity.
  - pose proof (Nat.div_mod_eq (n + 3) 4) as Hd.
    pose proof (Nat.mod_upper_bound (n + 3) 4 ltac:(lia)) as Hm. lia.
Qed.

Lemma length_everyFourth n : length (everyFourth n) = ((n + 3) / 4)%nat.
Proof. unfold everyFourth. now rewrite length_map, length_seq. Qed.

End Rings.

(** X10.  The ring mode paints one ring for every fourth bin, always
    reading inside the array; it reads the raw spectrum, so that its
    picture is the same whatever the boosted and the smoothed spectrum
    hold; the radius of the ring of bin [i] is the base radius plus
    [raw[i] * sensitivity / 255 * 100]. *)
Theorem rings_read_the_raw_spectrum
    (s : AudioVisualizer) (boosted : option (list Q)) (smoothed : list Q) :
  noSpectrum s = false ->
  let rings := map (circularRing s) (everyFourth (length (frequencyData s))) in
  canvas_ops (drawCircular s) = canvas_ops s ++ rings /\
  canvas_ops (drawCircular
                (set_boostedFrequencyData boosted
                   (set_smoothedFrequencyData smoothed s)))
  = canvas_ops (drawCircular s) /\
  length rings = ((length (frequencyData s) + 3) / 4)%nat /\
  forall k, (k < (length (frequencyData s) + 3) / 4)%nat ->
    (4 * k < length (frequencyData s))%nat /\
    exists cx cy radius hue alpha lineWidth,
      rings !! k = Some (StrokeRing cx cy radius hue alpha lineWidth)
      /\ radius
         == Math_min (canvas_width s / 2) (canvas_height s / 2) * 0.6
            + byte_at (frequencyData s) (4 * k) * sensitivity s / 255 * 100
      /\ hue == byte_at (frequencyData s) (4 * k) * sensitivity s + 200.
Proof.
  intros Hs rings. repeat apply conj.
  - unfold drawCircular. now rewrite Hs.
  - unfold drawCircular, noSpectrum in *.
    change (frequencyData (set_boostedFrequencyData boosted
                             (set_smoothedFrequencyData smoothed s)))
      with (frequencyData s).
    rewrite Hs. reflexivity.
  - unfold rings. now rewrite length_map, length_everyFourth.
  - intros k Hk.
    destruct (everyFourth_spec _ k Hk) as [Hlook Hin]. split; [exact Hin|].
    unfold rings. rewrite list_lookup_fmap, Hlook.
    eexists _, _, _, _, _, _. split; [reflexivity|]. split; reflexivity.
Qed.

Lemma rings_read_the_raw_spectrum_witness :
  length (map (circularRing constructed)
              (everyFourth (length (frequencyData constructed))))
  = ((length (frequencyData constructed) + 3) / 4)%nat.
Proof.
  refine (proj1 (proj2 (proj2
    (rings_read_the_raw_spectrum constructed None [] _)))).
  reflexivity.
Defined.

(** ** The size of the canvas *)

Section CanvasLengths.

Lemma Qfloor_bounds q a b :
  inject_Z a <= q -> q < inject_Z b -> (a <= Qfloor q < b)%Z.
Proof.
  intros Ha Hb. split.
  - rewrite <- (Qfloor_Z a). now apply Qfloor_resp_le.
  - rewrite Zlt_Qlt. apply Qle_lt_trans with q; [apply Qfloor_le|exact Hb].
Qed.

Lemma Qceiling_bounds q a b :
  inject_Z a < q -> q <= inject_Z b -> (a < Qceiling q <= b)%Z.
Proof.
  intros Ha Hb. split.
  - rewrite Zlt_Qlt. apply Qlt_le_trans with q; [exact Ha|apply Qle_ceiling].
  - rewrite <- (Qceiling_Z b). now apply Qceiling_resp_le.
Qed.

Lemma canvasLength_floor d q :
  0 <= q -> q < 2147483648 -> canvasLength d q = inject_Z (Qfloor q).
Proof.
  intros H0 Hmax. unfold canvasLength, toUnsignedLong.
  assert (E : Qle_bool 0 q = true) by now apply Qle_bool_iff.
  rewrite E. cbv zeta.
  destruct (Qfloor_bounds q 0 2147483648 H0 Hmax) as [Hl Hu].
  rewrite Z.mod_small by lia.
  destruct (Z.leb_spec (Qfloor q) 2147483647); [reflexivity|lia].
Qed.

Lemma canvasLength_default d q :
  -2147483648 <= q -> q <= -1 -> canvasLength d q = inject_Z d.
Proof.
  intros Hmin Hneg. unfold canvasLength, toUnsignedLong.
  assert (E : Qle_bool 0 q = false).
  { destruct (Qle_bool 0 q) eqn:E; [|reflexivity].
    apply Qle_bool_iff in E. lra. }
  rewrite E. cbv zeta.
  assert (Hl : (-2147483648 <= Qceiling q)%Z).
  { rewrite <- (Qceiling_Z (-2147483648)). now apply Qceiling_resp_le. }
  assert (Hu : (Qceiling q <= -1)%Z).
  { rewrite <- (Qceiling_Z (-1)). now apply Qceiling_resp_le. }
  assert (Em : (Qceiling q mod 4294967296 = Qceiling q + 4294967296)%Z).
  { symmetry. apply (Z.mod_unique _ _ (-1)); lia. }
  rewrite Em.
  destruct (Z.leb_spec (Qceiling q + 4294967296) 2147483647); [lia|reflexivity].
Qed.

Lemma canvasLength_zero d q :
  -1 < q -> q < 1 -> canvasLength d q = 0.
Proof.
  intros Hl Hu. unfold canvasLength, toUnsignedLong.
  destruct (Qle_bool 0 q) eqn:E.
  - apply Qle_bool_iff in E.
    destruct (Qfloor_bounds q 0 1 E Hu) as [H1 H2].
    assert (Ez : Qfloor q = 0%Z) by lia. rewrite Ez. reflexivity.
  - assert (Hneg : q <= 0).
    { apply Qlt_le_weak. apply Qnot_le_lt. intros H.
      apply Qle_bool_iff in H. congruence. }
    destruct (Qceiling_bounds q (-1) 0 Hl Hneg) as [H1 H2].
    assert (Ez : Qceiling q = 0%Z) by lia. rewrite Ez. reflexivity.
Qed.

Lemma canvasLength_range d q :
  (0 <= d <= 2147483647)%Z ->
  exists n, canvasLength d q = inject_Z n /\ (0 <= n <= 2147483647)%Z.
Proof.
  intros Hd. unfold canvasLength. cbv zeta.
  destruct (Z.leb_spec (toUnsignedLong q) 2147483647) as [Hle|Hgt].
  - exists (toUnsignedLong q). split; [reflexivity|]. split; [|exact Hle].
    unfold toUnsignedLong. apply Z.mod_pos_bound. lia.
  - exists d. split; [reflexivity|exact Hd].
Qed.

(** The sizes [setupCanvas] assigns, before the attributes convert them. *)
Lemma setupCanvas_fields w s rectWidth :
  containerWidth w = Some rectWidth ->
  let mobileWidth := canvasLength 300 (rectWidth - 20) in
  let mobileHeight := canvasLength 150 (Math_min (innerHeight w * 0.5) 400) in
  let fallback := Qle_bool mobileWidth 0 || Qle_bool mobileHeight 0 in
  lastCanvasSize (setupCanvas w s)
  = SizeObject (canvas_width (setupCanvas w s)) (canvas_height (setupCanvas w s))
  /\ canvas_width (setupCanvas w s)
     = (if Qle_bool (innerWidth w) 768
        then if fallback then 320 else mobileWidth
        else canvasLength 300 (Math_min 1200 (rectWidth - 40)))
  /\ canvas_height (setupCanvas w s)
     = (if Qle_bool (innerWidth w) 768
        then if fallback then 240 else mobileHeight
        else canvasLength 150 (Math_min 800 (rectWidth * 0.6))).
Proof.
  intros Hc. cbv zeta.
  unfold setupCanvas, assignCanvasWidth, assignCanvasHeight. rewrite Hc.
  destruct (Qle_bool (innerWidth w) 768).
  - cbn [canvas_width canvas_height set_canvas_width set_canvas_height].
    destruct (_ || _); repeat split.
  - repeat split.
Qed.

End CanvasLengths.

(** X11.  [setupCanvas] on a page whose canvas has a parent of width
    [rectWidth], at least 0 and below 2^31, in a window of height
    [innerHeight >= 0].  The canvas stores unsigned integers, and
    [lastCanvasSize] becomes the object holding them.  In a window at most
    768 pixels wide both sizes are positive and the height is at most 400:
    the width is [floor(rectWidth - 20)] and the height
    [floor(min(innerHeight / 2, 400))] for a parent at least 21 pixels wide
    and a window at least 2 pixels high; a parent at most 19 pixels wide
    makes the assigned width negative, which the attribute replaces by its
    default 300; and the fallback 320 by 240 is taken when one of the two
    assigned numbers is truncated to 0 (a parent between 19 and 21 pixels
    wide, or a window less than 2 pixels high).  In a wider window the
    canvas gets at most 1200 by 800, the height
    [floor(min(800, 0.6 * rectWidth))], the width
    [floor(min(1200, rectWidth - 40))] for a parent at least 40 pixels wide
    and the default 300 for a parent at most 39 pixels wide.  Without a
    parent nothing changes. *)
Theorem setupCanvas_sizes (w : Window) (s : AudioVisualizer) (rectWidth : Q) :
  containerWidth w = Some rectWidth ->
  0 <= rectWidth -> rectWidth < 2147483648 -> 0 <= innerHeight w ->
  let s' := setupCanvas w s in
  lastCanvasSize s' = SizeObject (canvas_width s') (canvas_height s') /\
  (exists n m,
     canvas_width s' = inject_Z n /\ canvas_height s' = inject_Z m
     /\ (0 <= n <= 2147483647)%Z /\ (0 <= m <= 2147483647)%Z) /\
  (innerWidth w <= 768 ->
   (0 < canvas_width s' /\ 0 < canvas_height s' /\ canvas_height s' <= 400) /\
   (21 <= rectWidth -> 2 <= innerHeight w ->
    canvas_width s' = inject_Z (Qfloor (rectWidth - 20))
    /\ canvas_height s'
       = inject_Z (Qfloor (Math_min (innerHeight w * 0.5) 400))) /\
   (rectWidth <= 19 -> 2 <= innerHeight w -> canvas_width s' = 300) /\
   ((19 < rectWidth /\ rectWidth < 21) \/ innerHeight w < 2 ->
    canvas_width s' = 320 /\ canvas_height s' = 240)) /\
  (768 < innerWidth w ->
   (canvas_width s' <= 1200 /\ canvas_height s' <= 800) /\
   canvas_height s' = inject_Z (Qfloor (Math_min 800 (rectWidth * 0.6))) /\
   (40 <= rectWidth ->
    canvas_width s' = inject_Z (Qfloor (Math_min 1200 (rectWidth - 40)))
    /\ canvas_width s' <= rectWidth - 40) /\
   (rectWidth <= 39 -> canvas_width s' = 300)) /\
  (forall t, setupCanvas {| containerWidth := None; innerWidth := innerWidth w;
                            innerHeight := innerHeight w |} t = t).
Proof.
  intros Hc Hrect Hmax Hih s'.
  destruct (setupCanvas_fields w s rectWidth Hc) as (Hlast & Hw & Hh).
  fold s' in Hlast, Hw, Hh.
  split; [exact Hlast|].
  (* the height assigned in a narrow window *)
  set (mh := Math_min (innerHeight w * 0.5) 400) in *.
  assert (Hmh : 0 <= mh /\ mh <= 400 /\ mh <= innerHeight w * 0.5).
  { unfold mh, Math_min. repeat apply conj.
    - apply Q.min_glb; lra.
    - apply Q.le_min_r.
    - apply Q.le_min_l. }
  destruct Hmh as (Hmh0 & Hmh400 & Hmhi).
  assert (EH : canvasLength 150 mh = inject_Z (Qfloor mh)).
  { apply canvasLength_floor; lra. }
  assert (HH : (0 <= Qfloor mh <= 400)%Z).
  { destruct (Qfloor_bounds mh 0 401) as [H1 H2]; [exact Hmh0|unfold inject_Z; lra|]. lia. }
  (* the sizes assigned in a wide window *)
  set (dw := Math_min 1200 (rectWidth - 40)) in *.
  set (dh := Math_min 800 (rectWidth * 0.6)) in *.
  assert (Hdh : 0 <= dh /\ dh <= 800).
  { unfold dh, Math_min. split; [apply Q.min_glb; lra|apply Q.le_min_l]. }
  assert (EDH : canvasLength 150 dh = inject_Z (Qfloor dh)).
  { apply canvasLength_floor; lra. }
  assert (HDH : (0 <= Qfloor dh <= 800)%Z).
  { destruct (Qfloor_bounds dh 0 801) as [H1 H2]; [apply Hdh|unfold inject_Z; lra|]. lia. }
  assert (Hdw : dw <= 1200 /\ dw <= rectWidth - 40 /\ -40 <= dw).
  { unfold dw, Math_min. repeat apply conj;
      [apply Q.le_min_l|apply Q.le_min_r|apply Q.min_glb; lra]. }
  destruct Hdw as (Hdw1 & Hdw2 & Hdw3).
  split.
  { destruct (canvasLength_range 300 (rectWidth - 20) ltac:(lia)) as (n1 & E1 & R1).
    destruct (canvasLength_range 300 dw ltac:(lia)) as (n2 & E2 & R2).
    destruct (Qle_bool (innerWidth w) 768).
    - destruct (_ || _).
      + exists 320%Z, 240%Z. rewrite Hw, Hh. repeat split; lia.
      + exists n1, (Qfloor mh). rewrite Hw, Hh, E1, EH. repeat split; lia.
    - exists n2, (Qfloor dh). rewrite Hw, Hh, E2, EDH. repeat split; lia. }
  split.
  { intros Hmobile. apply Qle_bool_iff in Hmobile. rewrite Hmobile in Hw, Hh.
    set (mw := canvasLength 300 (rectWidth - 20)) in *.
    assert (Hmw : exists n, mw = inject_Z n /\ (0 <= n)%Z).
    { destruct (canvasLength_range 300 (rectWidth - 20) ltac:(lia))
        as (n & E & R). exists n. split; [exact E|lia]. }
    destruct Hmw as (n & En & Hn).
    assert (Hpos : forall k, (0 <= k)%Z ->
              Qle_bool (inject_Z k) 0 = false -> 0 < inject_Z k).
    { intros k Hk E. apply Qnot_le_lt. intros H.
      apply Qle_bool_iff in H. congruence. }
    assert (Hzero : forall k, Qle_bool (inject_Z k) 0 = true -> (k <= 0)%Z).
    { intros k E. apply Qle_bool_iff in E. change 0 with (inject_Z 0) in E. now rewrite <- Zle_Qle in E. }
    assert (Hnz : forall k, (1 <= k)%Z -> Qle_bool (inject_Z k) 0 = false).
    { intros k Hk. destruct (Qle_bool (inject_Z k) 0) eqn:E; [|reflexivity].
      apply Hzero in E. lia. }
    split.
    { rewrite En, EH in Hw, Hh.
      destruct (Qle_bool (inject_Z n) 0) eqn:E1;
        [|destruct (Qle_bool (inject_Z (Qfloor mh)) 0) eqn:E2];
        cbn [orb] in Hw, Hh; rewrite Hw, Hh.
      - repeat apply conj; lra.
      - repeat apply conj; lra.
      - repeat apply conj.
        + now apply Hpos.
        + apply Hpos; [lia|exact E2].
        + change 400 with (inject_Z 400). rewrite <- Zle_Qle. lia. }
    split.
    { intros Hwide Htall.
      assert (EW : mw = inject_Z (Qfloor (rectWidth - 20))).
      { apply canvasLength_floor; lra. }
      assert (HW : (1 <= Qfloor (rectWidth - 20))%Z).
      { destruct (Qfloor_bounds (rectWidth - 20) 1 2147483648) as [H1 _];
          [unfold inject_Z; lra|unfold inject_Z; lra|exact H1]. }
      assert (HT : (1 <= Qfloor mh)%Z).
      { destruct (Qfloor_bounds mh 1 401) as [H1 _]; [|unfold inject_Z; lra|exact H1].
        unfold mh, Math_min, inject_Z. apply Q.min_glb; lra. }
      rewrite EW, EH in Hw, Hh.
      assert (F1 : Qle_bool (inject_Z (Qfloor (rectWidth - 20))) 0 = false)
        by (apply Hnz; exact HW).
      assert (F2 : Qle_bool (inject_Z (Qfloor mh)) 0 = false)
        by (apply Hnz; exact HT).
      rewrite F1, F2 in Hw, Hh. cbn [orb] in Hw, Hh. split; assumption. }
    split.
    { intros Hnarrow Htall.
      assert (EW : mw = inject_Z 300).
      { apply canvasLength_default; lra. }
      assert (HT : (1 <= Qfloor mh)%Z).
      { destruct (Qfloor_bounds mh 1 401) as [H1 _]; [|unfold inject_Z; lra|exact H1].
        unfold mh, Math_min, inject_Z. apply Q.min_glb; lra. }
      rewrite EW, EH in Hw.
      assert (F2 : Qle_bool (inject_Z (Qfloor mh)) 0 = false)
        by (apply Hnz; exact HT).
      rewrite F2 in Hw. exact Hw. }
    intros [[Hl Hu]|Hshort].
    - assert (EW : mw = 0) by (apply canvasLength_zero; lra).
      rewrite EW in Hw, Hh. split; assumption.
    - assert (EZ : canvasLength 150 mh = 0).
      { apply canvasLength_zero; [lra|]. lra. }
      rewrite EZ in Hw, Hh.
      rewrite orb_true_r in Hw, Hh. split; assumption. }
  split.
  { intros Hwide.
    assert (Ed : Qle_bool (innerWidth w) 768 = false).
    { destruct (Qle_bool _ 768) eqn:E; [|reflexivity].
      apply Qle_bool_iff in E. lra. }
    rewrite Ed in Hw, Hh. rewrite EDH in Hh.
    assert (Hwb : canvas_width s' <= 1200).
    { rewrite Hw.
      destruct (Qlt_le_dec dw 0) as [Hn|Hp].
      - destruct (Qlt_le_dec (-1) dw) as [Hs|Hb].
        + rewrite canvasLength_zero by lra. lra.
        + rewrite canvasLength_default by lra. discriminate.
      - rewrite canvasLength_floor by lra.
        apply Qle_trans with dw; [apply Qfloor_le|exact Hdw1]. }
    split.
    { split; [exact Hwb|]. rewrite Hh.
      change 800 with (inject_Z 800). rewrite <- Zle_Qle. lia. }
    split; [exact Hh|].
    split.
    { intros Hparent.
      assert (Hp : 0 <= dw) by (unfold dw, Math_min; apply Q.min_glb; lra).
      rewrite Hw, canvasLength_floor by lra.
      split; [reflexivity|].
      apply Qle_trans with dw; [apply Qfloor_le|exact Hdw2]. }
    intros Hparent. rewrite Hw. apply canvasLength_default; lra. }
  intros t. reflexivity.
Qed.

Lemma setupCanvas_sizes_witness :
  lastCanvasSize (setupCanvas desktop constructed)
  = SizeObject (canvas_width (setupCanvas desktop constructed))
               (canvas_height (setupCanvas desktop constructed))
  /\ canvas_width (setupCanvas desktop constructed) = 1000
  /\ canvas_height (setupCanvas desktop constructed) = 624.
Proof.
  assert (H0 : 0 <= 1040) by (vm_compute; discriminate).
  assert (H1 : 1040 < 2147483648) by (vm_compute; reflexivity).
  assert (H2 : 0 <= innerHeight desktop) by (vm_compute; discriminate).
  split; [exact (proj1 (setupCanvas_sizes desktop constructed 1040 eq_refl
                          H0 H1 H2))|].
  vm_compute. split; reflexivity.
Defined.

Lemma setupCanvas_set_isFullscreen w b t :
  setupCanvas w (set_isFullscreen b t) = set_isFullscreen b (setupCanvas w t).
Proof.
  unfold setupCanvas, assignCanvasWidth, assignCanvasHeight.
  destruct (containerWidth w); [|reflexivity].
  destruct (Qle_bool (innerWidth w) 768); [|reflexivity].
  cbn [canvas_width canvas_height set_canvas_width set_canvas_height
       set_isFullscreen].
  destruct (_ || _); reflexivity.
Qed.

(** X12.  Fullscreen.  Entering sets the canvas to the inner size of the
    window; while fullscreen a resize event sets it to the inner size of
    the resized window, whatever the parent measures; toggling out again
    gives the canvas the size [setupCanvas] computes for the window. *)
Theorem fullscreen_canvas_sizes (w1 w2 : Window) (s : AudioVisualizer) :
  isFullscreen s = false ->
  let entered := toggleFullscreen w1 s in
  let resized := onResize w2 entered in
  let left := toggleFullscreen w2 resized in
  (isFullscreen entered = true
   /\ canvas_width entered = innerWidth w1
   /\ canvas_height entered = innerHeight w1) /\
  (canvas_width resized = innerWidth w2
   /\ canvas_height resized = innerHeight w2) /\
  (isFullscreen left = false
   /\ canvas_width left = canvas_width (setupCanvas w2 resized)
   /\ canvas_height left = canvas_height (setupCanvas w2 resized)).
Proof.
  intros Hfs entered resized left.
  assert (He : entered = enterFullscreen w1 s).
  { unfold entered, toggleFullscreen. now rewrite Hfs. }
  assert (Hfe : isFullscreen entered = true) by (now rewrite He).
  assert (Hfr : isFullscreen resized = true).
  { unfold resized. destruct (onResize_frame w2 entered) as (H & _).
    now rewrite H. }
  assert (Hr : resized
               = set_canvas_height (innerHeight w2)
                   (set_canvas_width (innerWidth w2) (setupCanvas w2 entered))).
  { unfold resized, onResize.
    destruct (setupCanvas_cases w2 entered) as [H|(a & b & H)]; rewrite H;
      cbn [isFullscreen set_lastCanvasSize set_canvas_height set_canvas_width];
      fold (isFullscreen entered); rewrite Hfe; reflexivity. }
  assert (Hl : left = set_isFullscreen false (setupCanvas w2 resized)).
  { unfold left, toggleFullscreen. rewrite Hfr. unfold exitFullscreen.
    apply setupCanvas_set_isFullscreen. }
  repeat apply conj; try (rewrite He; reflexivity);
    try (rewrite Hr; reflexivity); rewrite Hl; reflexivity.
Qed.

Lemma fullscreen_canvas_sizes_witness :
  canvas_width (onResize smallScreen (toggleFullscreen desktop constructed))
  = innerWidth smallScreen.
Proof.
  exact (proj1 (proj1 (proj2
    (fullscreen_canvas_sizes desktop smallScreen constructed eq_refl)))).
Defined.

(** ** Capture resources *)

Section Resources.

Ltac open_state s :=
  destruct s as [ac an mic gn ip aid ss cw ch co da fd sm bo se vt fs rd lrt
                 ri brt tf lft lcs sp sz pcp fmh fkh ht hc hn hh hr].

Lemma startVisualization_frame w s :
  microphone (startVisualization w s) = microphone s
  /\ audioContext (startVisualization w s) = audioContext s
  /\ screenShare (startVisualization w s) = screenShare s
  /\ host_tracks (startVisualization w s) = host_tracks s
  /\ host_contexts (startVisualization w s) = host_contexts s
  /\ isPlaying (startVisualization w s) = isPlaying s
  /\ fullscreenMouseHandler (startVisualization w s) = fullscreenMouseHandler s
  /\ (analyser s = true -> animationId (startVisualization w s) <> None).
Proof.
  unfold startVisualization.
  destruct (animationId s) eqn:Ea; [now repeat split; try congruence|].
  destruct (analyser s); cbn [negb]; [|repeat split; discriminate].
  destruct (_ || _).
  - destruct (setupCanvas_cases w s) as [H|(a & b & H)]; rewrite H;
      repeat split; discriminate.
  - repeat split; discriminate.
Qed.

Lemma stopVisualizer_resources s :
  host_tracks (stopVisualizer s)
  = match microphone s with
    | Some stream => alter (map (fun _ => false)) stream (host_tracks s)
    | None => host_tracks s
    end
  /\ host_contexts (stopVisualizer s)
     = match audioContext s with
       | Some context => <[context := false]> (host_contexts s)
       | None => host_contexts s
       end.
Proof.
  open_state s. destruct aid, mic, ac, ss, fmh; split; reflexivity.
Qed.

Lemma stopped_tracks n :
  map (fun _ : bool => false) (repeat true n) = repeat false n.
Proof. induction n as [|n IH]; [reflexivity|]. simpl. now rewrite IH. Qed.

End Resources.

(** X13.  Microphone capture is released in full.  [startMicrophone]
    registers a new stream with live tracks and a new open audio context
    under two different identifiers and schedules a frame; the
    [stopVisualizer] that follows stops every track of that stream, closes
    that context and leaves the visualizer idle. *)
Theorem microphone_capture_is_released
    (w : Window) (trackCount : nat) (s : AudioVisualizer) :
  let started := startMicrophone w trackCount s in
  let stopped := stopVisualizer started in
  let stream := host_nextId s in
  let context := S (host_nextId s) in
  (microphone started = Some stream /\ audioContext started = Some context
   /\ isPlaying started = true /\ animationId started <> None
   /\ host_tracks started !! stream = Some (repeat true trackCount)
   /\ host_contexts started !! context = Some true) /\
  (host_tracks stopped !! stream = Some (repeat false trackCount)
   /\ host_contexts stopped !! context = Some false
   /\ isPlaying stopped = false /\ animationId stopped = None
   /\ microphone stopped = None /\ audioContext stopped = None).
Proof.
  intros started stopped stream context.
  unfold started, startMicrophone, grantStream, newAudioContext in *.
  cbv zeta in *. cbn [host_nextId set_host_nextId set_host_tracks
                     set_host_contexts] in *.
  match goal with |- context [startVisualization w ?t] => set (t0 := t) in * end.
  destruct (startVisualization_frame w t0)
    as (Hm & Hc & _ & Ht & Hx & Hp & _ & Ha).
  pose proof (stopped_tracks trackCount) as Hmap.
  destruct (stopVisualizer_resources (startVisualization w t0)) as [Hst Hsc].
  destruct (stopVisualizer_idle (startVisualization w t0))
    as (Hi1 & Hi2 & _ & Hi4 & _ & Hi6 & _).
  fold stopped in Hst, Hsc, Hi1, Hi2, Hi4, Hi6.
  rewrite Hm, Ht in Hst. rewrite Hc, Hx in Hsc.
  repeat apply conj.
  - now rewrite Hm.
  - now rewrite Hc.
  - now rewrite Hp.
  - now apply Ha.
  - rewrite Ht. unfold t0. cbn. apply lookup_insert_eq.
  - rewrite Hx. unfold t0. cbn. apply lookup_insert_eq.
  - rewrite Hst. unfold t0. cbn. rewrite lookup_alter_eq, lookup_insert_eq.
    cbn. now rewrite Hmap.
  - rewrite Hsc. unfold t0. cbn. apply lookup_insert_eq.
  - exact Hi1.
  - exact Hi2.
  - exact Hi4.
  - exact Hi6.
Qed.

(** X14.  A second start without a stop in between overwrites the
    references: the [stopVisualizer] that follows closes the context and
    stops the stream of the second capture only, the audio context and the
    tracks of the first capture stay as they were. *)
Theorem second_start_orphans_the_first_capture
    (w : Window) (trackCount : nat) (s : AudioVisualizer) (stream context : nat) :
  microphone s = Some stream -> audioContext s = Some context ->
  (stream < host_nextId s)%nat -> (context < host_nextId s)%nat ->
  let stopped := stopVisualizer (startMicrophone w trackCount s) in
  host_tracks stopped !! stream = host_tracks s !! stream /\
  host_contexts stopped !! context = host_contexts s !! context.
Proof.
  intros Hmic Hctx Hs Hc stopped.
  unfold stopped, startMicrophone, grantStream, newAudioContext.
  cbv zeta. cbn [host_nextId set_host_nextId set_host_tracks
                 set_host_contexts].
  match goal with |- context [startVisualization w ?t] => set (t0 := t) end.
  destruct (startVisualization_frame w t0) as (Hm & Hcx & _ & Ht & Hx & _).
  destruct (stopVisualizer_resources (startVisualization w t0)) as [Hst Hsc].
  rewrite Hst, Hsc, Hm, Hcx, Ht, Hx. unfold t0. cbn. split.
  - rewrite lookup_alter_ne, lookup_insert_ne by lia. reflexivity.
  - rewrite !lookup_insert_ne by lia. reflexivity.
Qed.

Lemma second_start_orphans_the_first_capture_witness :
  host_contexts (stopVisualizer (startMicrophone desktop 1 listening)) !! 1%nat
  = host_contexts listening !! 1%nat.
Proof.
  refine (proj2 (second_start_orphans_the_first_capture desktop 1 listening
                   0 1 _ _ _ _)).
  - vm_compute. reflexivity.
  - vm_compute. reflexivity.
  - vm_compute. lia.
  - vm_compute. lia.
Defined.

(** ** Stored preferences *)

(** X15.  Preferences survive a reload.  When both controls exist and
    hold non-empty strings, [saveUserPreferences] stores them, and a later
    [loadUserPreferences] on a page with the same storage and both
    controls sets [visualType] to the saved identifier and [sensitivity]
    to [parseFloat] of the saved text, puts the saved strings into the
    controls, and leaves the storage as it is. *)
Theorem saved_preferences_are_restored
    (parseFloat : string -> Q) (toFixed1 : Q -> string) (lastUsed : string)
    (page reloaded : Page) (this : AudioVisualizer) (chosen level : string) :
  visualTypeSelect page = Some chosen ->
  sensitivitySlider page = Some level ->
  chosen <> EmptyString -> level <> EmptyString ->
  localStorage reloaded = localStorage (saveUserPreferences lastUsed page) ->
  visualTypeSelect reloaded <> None ->
  sensitivitySlider reloaded <> None ->
  let loaded := loadUserPreferences parseFloat toFixed1 reloaded this in
  visualType (snd loaded) = chosen /\
  sensitivity (snd loaded) = parseFloat level /\
  visualTypeSelect (fst loaded) = Some chosen /\
  sensitivitySlider (fst loaded) = Some level /\
  localStorage (fst loaded) = localStorage reloaded /\
  snd loaded = set_sensitivity (parseFloat level) (set_visualType chosen this).
Proof.
  intros Hsel Hsl Hc Hl Hstore Hsel2 Hsl2 loaded.
  unfold loaded, loadUserPreferences. rewrite Hstore.
  unfold saveUserPreferences. rewrite Hsel, Hsl. cbn [localStorage].
  rewrite lookup_insert_ne, lookup_insert_ne, lookup_insert_eq by discriminate.
  rewrite lookup_insert_ne, lookup_insert_eq by discriminate.
  assert (Ht1 : truthyItem (Some chosen) = Some chosen)
    by (destruct chosen; [contradiction|reflexivity]).
  assert (Ht2 : truthyItem (Some level) = Some level)
    by (destruct level; [contradiction|reflexivity]).
  rewrite Ht1, Ht2. cbv zeta.
  destruct (visualTypeSelect reloaded) as [v|]; [|contradiction].
  cbn [sensitivitySlider].
  destruct (sensitivitySlider reloaded) as [x|]; [|contradiction].
  cbn [sensitivityLabel].
  destruct (sensitivityLabel reloaded); repeat split.
Qed.

Lemma saved_preferences_are_restored_witness :
  let page := {| visualTypeSelect := Some "starlight"%string;
                 sensitivitySlider := Some "1.5"%string;
                 sensitivityLabel := Some "1.5"%string;
                 localStorage := ∅ |} in
  visualType
    (snd (loadUserPreferences (fun _ => 1.5) (fun _ => "1.5"%string)
            (saveUserPreferences "2024-01-01T00:00:00.000Z" page) constructed))
  = "starlight"%string.
Proof.
  refine (proj1 (saved_preferences_are_restored (fun _ => 1.5)
            (fun _ => "1.5"%string) "2024-01-01T00:00:00.000Z"
            {| visualTypeSelect := Some "starlight"%string;
               sensitivitySlider := Some "1.5"%string;
               sensitivityLabel := Some "1.5"%string;
               localStorage := ∅ |}
            (saveUserPreferences "2024-01-01T00:00:00.000Z"
               {| visualTypeSelect := Some "starlight"%string;
                  sensitivitySlider := Some "1.5"%string;
                  sensitivityLabel := Some "1.5"%string;
                  localStorage := ∅ |})
            constructed "starlight" "1.5" eq_refl eq_refl _ _ eq_refl _ _));
    discriminate.
Defined.

(** X16.  Nothing is stored when one of the two controls is missing;
    after [clearUserPreferences] has removed the two keys, and whenever
    the two keys are absent or hold the empty string, loading changes
    neither the page nor the visualizer. *)
Theorem preferences_without_data
    (parseFloat : string -> Q) (toFixed1 : Q -> string) (lastUsed : string)
    (page : Page) (this : AudioVisualizer) :
  ((visualTypeSelect page = None \/ sensitivitySlider page = None) ->
   saveUserPreferences lastUsed page = page) /\
  (truthyItem (localStorage page !! "audVis_visualType"%string) = None ->
   truthyItem (localStorage page !! "audVis_sensitivity"%string) = None ->
   loadUserPreferences parseFloat toFixed1 page this = (page, this)) /\
  loadUserPreferences parseFloat toFixed1 (removeStoredPreferences page) this
  = (removeStoredPreferences page, this) /\
  localStorage (removeStoredPreferences page) !! "audVis_lastUsed"%string
  = localStorage page !! "audVis_lastUsed"%string.
Proof.
  assert (Hload : forall p,
            truthyItem (localStorage p !! "audVis_visualType"%string) = None ->
            truthyItem (localStorage p !! "audVis_sensitivity"%string) = None ->
            loadUserPreferences parseFloat toFixed1 p this = (p, this)).
  { intros p H1 H2. unfold loadUserPreferences. now rewrite H1, H2. }
  repeat apply conj.
  - intros [H|H]; unfold saveUserPreferences; rewrite H;
      [reflexivity|now destruct (visualTypeSelect page)].
  - apply Hload.
  - apply Hload; unfold removeStoredPreferences; cbn [localStorage].
    + rewrite lookup_delete_ne, lookup_delete_eq by discriminate. reflexivity.
    + rewrite lookup_delete_eq. reflexivity.
  - unfold removeStoredPreferences. cbn [localStorage].
    now rewrite !lookup_delete_ne by discriminate.
Qed.

(** ** Classification of the captured track *)

Section TrackClassification.

Lemma orb_false_4 a b c d : a || b || c || d = false ->
  a = false /\ b = false /\ c = false /\ d = false.
Proof. destruct a, b, c, d; intros H; try discriminate; now repeat split. Qed.

End TrackClassification.

(** X17.  [detectAudioSource]: a track without label and id is a basic
    microphone; a label or id that mentions a speaker, an output or a
    headphone gives "audiooutput" whatever else it mentions; and the answer
    "system" is given exactly when none of those words occurs and the
    label or the id mentions "system" (the tests for "output" and
    "speaker" of the second branch can never decide). *)
Theorem detectAudioSource_system_branch (track : AudioTrack) :
  let label := toLowerCase (trackLabel track) in
  let id := toLowerCase (trackId track) in
  let outputWord :=
    includes label "speaker" || includes label "output"
    || includes label "headphone" || includes label "audioout"
    || includes id "speaker" || includes id "output"
    || includes id "headphone" in
  detectAudioSource {| trackLabel := ""; trackId := "" |} = "basic"%string /\
  (outputWord = true -> detectAudioSource track = "audiooutput"%string) /\
  (detectAudioSource track = "system"%string <->
   outputWord = false /\ includes label "system" || includes id "system" = true).
Proof.
  intros label id outputWord.
  split; [reflexivity|].
  unfold detectAudioSource. fold label id. fold outputWord.
  split.
  - intros H. now rewrite H.
  - destruct outputWord eqn:Eo.
    + split; [discriminate|intros [H _]; discriminate].
    + unfold outputWord in Eo.
      assert (Hlo : includes label "output" = false).
      { destruct (includes label "speaker"), (includes label "output");
          try discriminate; reflexivity. }
      assert (Hls : includes label "speaker" = false).
      { destruct (includes label "speaker"); [discriminate|reflexivity]. }
      assert (Hio : includes id "output" = false).
      { destruct (includes label "speaker"), (includes label "output"),
          (includes label "headphone"), (includes label "audioout"),
          (includes id "speaker"), (includes id "output");
          try discriminate; reflexivity. }
      rewrite Hlo, Hls, Hio.
      destruct (includes label "system"), (includes id "system"); cbn [orb].
      * split; [now split|reflexivity].
      * split; [now split|reflexivity].
      * split; [now split|reflexivity].
      * split; [|intros [_ H]; discriminate].
        repeat match goal with
               | |- context [if ?c then _ else _] => destruct c
               end; discriminate.
Qed.

(** ** The waveform mode *)

(** X28.  The waveform mode reads the time-domain samples only.  It
    strokes two paths of one vertex per sample plus a closing vertex at
    the right end of the centre line.  Sample [i] stands at
    [x = i * width / N] and [y = sample / 128 * height / 2], so that a
    silent sample (128) lies on the centre line; the second path is the
    reflection of the first about the centre line.  Each path is stroked
    once, the first with opacity 1, and the hue of both is the hue computed
    for the last sample; the contents of the spectrum do not matter as
    long as it is not empty. *)
Theorem waveform_is_mirrored (s : AudioVisualizer) (i : nat) (spectrum : list Z) :
  noSpectrum s = false ->
  (i < length (dataArray s))%nat ->
  let N := length (dataArray s) in
  let closing := (canvas_width s, canvas_height s / 2) in
  exists main mirror hue sat1 light1 sat2 light2 alpha2,
    canvas_ops (drawWaveform s)
    = canvas_ops s ++ [StrokePath main hue sat1 light1 1;
                       StrokePath mirror hue sat2 light2 alpha2]
    /\ hue = inject_Z (Math_floor (Qabs (inject_Z (List.last (dataArray s) 0%Z) / 128) * 255))
             * sensitivity s + 200
    /\ length main = S N /\ length mirror = S N
    /\ main !! N = Some closing /\ mirror !! N = Some closing
    /\ (exists x y y',
          main !! i = Some (x, y) /\ mirror !! i = Some (x, y')
          /\ x = num i * (canvas_width s / num N)
          /\ y = inject_Z (nth i (dataArray s) 0%Z) / 128 * canvas_height s / 2
          /\ y + y' == canvas_height s
          /\ (nth i (dataArray s) 0%Z = 128%Z -> y == canvas_height s / 2))
    /\ (spectrum <> [] ->
        canvas_ops (drawWaveform (set_frequencyData spectrum s))
        = canvas_ops (drawWaveform s)).
Proof.
  intros Hspec Hi N closing.
  assert (Hne : Nat.eqb (length (dataArray s)) 0 = false).
  { apply Nat.eqb_neq. lia. }
  destruct (lookup_lt_is_Some_2 (dataArray s) i Hi) as [sample Hsample].
  do 8 eexists.
  split.
  { unfold drawWaveform. rewrite Hne, Hspec. unfold paint.
    unfold waveformPath, waveformStyle. cbv zeta iota. reflexivity. }
  split; [reflexivity|].
  split; [rewrite length_app, length_imap; simpl; fold N; lia|].
  split; [rewrite length_app, length_imap; simpl; fold N; lia|].
  split.
  { rewrite lookup_app_r by (rewrite length_imap; fold N; lia).
    rewrite length_imap. fold N. now rewrite Nat.sub_diag. }
  split.
  { rewrite lookup_app_r by (rewrite length_imap; fold N; lia).
    rewrite length_imap. fold N. now rewrite Nat.sub_diag. }
  split.
  { do 3 eexists.
    rewrite !lookup_app_l by (rewrite length_imap; exact Hi).
    rewrite !list_lookup_imap, Hsample. cbn [fmap option_fmap option_map].
    rewrite (nth_lookup_Some _ _ _ _ Hsample).
    split; [reflexivity|]. split; [reflexivity|].
    split; [reflexivity|]. split; [reflexivity|].
    split.
    - field.
    - intros ->. field. }
  intros Hs.
  unfold drawWaveform, noSpectrum.
  change (dataArray (set_frequencyData spectrum s)) with (dataArray s).
  change (frequencyData (set_frequencyData spectrum s)) with spectrum.
  rewrite Hne. unfold noSpectrum in Hspec. rewrite Hspec.
  destruct spectrum as [|b spectrum]; [contradiction|]. reflexivity.
Qed.

Lemma waveform_is_mirrored_witness :
  exists main mirror hue sat1 light1 sat2 light2 alpha2,
    canvas_ops (drawWaveform constructed)
    = canvas_ops constructed ++ [StrokePath main hue sat1 light1 1;
                                 StrokePath mirror hue sat2 light2 alpha2]
    /\ main !! 128%nat = Some (1400, 800 / 2).
Proof.
  destruct (waveform_is_mirrored constructed 0 [])
    as (main & mirror & hue & sat1 & light1 & sat2 & light2 & alpha2 & H1 & _ & _
        & _ & H2 & _).
  - reflexivity.
  - simpl. lia.
  - exists main, mirror, hue, sat1, light1, sat2, light2, alpha2.
    split; [exact H1|exact H2].
Defined.

(** ** Closed instances of the frame, mode and star properties *)

Lemma exampleRandom_range k : 0 <= exampleRandom k /\ exampleRandom k < 1.
Proof.
  unfold exampleRandom.
  pose proof (Z.mod_pos_bound (Z.of_nat k * 37 + 11) 101 eq_refl) as H.
  set (m := ((Z.of_nat k * 37 + 11) mod 101)%Z) in *.
  unfold Qle, Qlt, Qdiv, Qmult, Qinv, inject_Z. cbn. lia.
Qed.

Lemma frame_rate_gate_witness :
  let s := set_visualType "waveform" listening in
  let first := flatFrame 200 in
  let second :=
    {| timestamp := 1010; frequencyBytes := repeat 90%Z 128;
       timeDomainBytes := repeat 128%Z 128; now := 1010 |} in
  let s1 := animate exampleSqrt exampleSin exampleCos examplePI exampleRandom first s in
  frameProcessed first s = true
  /\ animate exampleSqrt exampleSin exampleCos examplePI exampleRandom second s1
     = requestAnimationFrame s1.
Proof.
  intros s first second s1. split; [vm_compute; reflexivity|].
  apply (frame_rate_gate exampleSqrt exampleSin exampleCos examplePI
           exampleRandom first second s).
  - vm_compute. reflexivity.
  - intros H. discriminate H.
  - vm_compute. reflexivity.
Defined.

Lemma unknown_mode_paints_nothing_witness :
  let s := set_visualType "bars" constructed in
  ~ In (visualType s)
       ["waveform"; "circular"; "frequency2x"; "frequency3x"; "frequency4x";
        "circles"; "starlight"; "retroBox"]%string
  /\ draw exampleSqrt exampleSin exampleCos examplePI exampleRandom 0 s
     = clearRect s.
Proof.
  intros s.
  assert (H : ~ In (visualType s)
       ["waveform"; "circular"; "frequency2x"; "frequency3x"; "frequency4x";
        "circles"; "starlight"; "retroBox"]%string).
  { simpl. intros H. repeat destruct H as [H|H]; try discriminate H. exact H. }
  split; [exact H|].
  exact (proj1 (unknown_mode_paints_nothing exampleSqrt exampleSin exampleCos
                  examplePI exampleRandom 0 s H)).
Defined.

Lemma stars_lie_inside_the_canvas_witness :
  100 <= canvas_width constructed /\ 100 <= canvas_height constructed
  /\ Forall (fun star =>
            (50 <= Star.x star /\ Star.x star <= canvas_width constructed - 50)
            /\ (50 <= Star.y star /\ Star.y star <= canvas_height constructed - 50)
            /\ (1 <= Star.size star /\ Star.size star < 4))
         (default [] (starPositions
            (regenerateStars exampleSqrt exampleRandom (repeat 0 128) constructed))).
Proof.
  assert (Hw : 100 <= canvas_width constructed) by (vm_compute; discriminate).
  assert (Hh : 100 <= canvas_height constructed) by (vm_compute; discriminate).
  split; [exact Hw|]. split; [exact Hh|].
  exact (stars_lie_inside_the_canvas exampleSqrt exampleRandom (repeat 0 128)
           constructed exampleRandom_range Hw Hh).
Defined.

Lemma circles_frame_witness :
  let s := set_sensitivity 2 listening in
  let data := selectData s in
  noSpectrum s = false
  /\ forall i, (i < 64)%nat ->
       default [] (previousCirclePositions
                     (drawCircles exampleSqrt exampleSin exampleCos examplePI s))
         !! i
       = Some (circlePosition exampleSin exampleCos examplePI data 64 i s).
Proof.
  intros s data.
  assert (H : noSpectrum s = false) by reflexivity.
  split; [exact H|].
  exact (proj1 (proj2 (circles_frame exampleSqrt exampleSin exampleCos examplePI
                         s H))).
Defined.

Lemma constructed_is_silent (i : nat) :
  (i < Nat.min (length (selectData constructed)) 64)%nat ->
  at_ (selectData constructed) i * sensitivity constructed == 0.
Proof.
  intros _. change (selectData constructed) with (repeat 0 128).
  unfold at_. rewrite nth_repeat. reflexivity.
Qed.

Lemma silent_first_frame_of_circles_witness :
  exists discs,
    canvas_ops (drawCircles exampleSqrt exampleSin exampleCos examplePI constructed)
    = canvas_ops constructed ++ discs
    /\ length discs = 64%nat.
Proof.
  destruct (silent_first_frame_of_circles exampleSqrt exampleSin exampleCos
              examplePI constructed eq_refl eq_refl constructed_is_silent)
    as (discs & Hops & Hlen & _).
  exists discs. split; [exact Hops|exact Hlen].
Defined.

(** ** The session invariant *)

Section Session.

Variables Math_sqrt Math_sin Math_cos : Q -> Q.
Variable Math_PI : Q.
Variable Math_random : nat -> Q.

Lemma sessionInvariant_view s t :
  sessionView t = sessionView s -> sessionInvariant s -> sessionInvariant t.
Proof.
  unfold sessionView, sessionInvariant. intros H. injection H.
  intros -> -> -> -> -> -> ->. trivial.
Qed.

Lemma opaque_cycle canvasHeight drops :
  Forall (fun r => Raindrop.alpha r <= 0.8) drops ->
  Forall (fun r => Raindrop.alpha r <= 0.8) (cycle canvasHeight drops).
Proof.
  intros Hall. unfold cycle.
  induction Hall as [|r drops Hr Hall IH]; simpl; [constructor|].
  destruct (negb _); [|exact IH].
  constructor; [|exact IH]. cbn. lra.
Qed.

Lemma opaque_bars3xLoop now data rest : forall i s,
  Forall (fun r => Raindrop.alpha r <= 0.8) (raindrops s) ->
  Forall (fun r => Raindrop.alpha r <= 0.8)
         (raindrops (bars3xLoop now data i rest s)).
Proof.
  induction rest as [|bin rest IH]; intros i s Hall; simpl; [exact Hall|].
  apply IH.
  destruct (bars3xBody_cases now data i bin s)
    as [(_ & r1 & r2 & Hr & Ha1 & Ha2 & _)|(_ & Hr & _)]; rewrite Hr.
  - apply Forall_app. split; [exact Hall|].
    repeat constructor; [rewrite Ha1|rewrite Ha2]; lra.
  - exact Hall.
Qed.

Lemma opaque_draw now s :
  Forall (fun r => Raindrop.alpha r <= 0.8) (raindrops s) ->
  Forall (fun r => Raindrop.alpha r <= 0.8) (raindrops (draw Math_sqrt Math_sin Math_cos Math_PI Math_random now s)).
Proof.
  intros Hall.
  destruct (string_dec (visualType s) "frequency3x") as [E|E].
  - unfold draw. change (visualType (clearRect s)) with (visualType s).
    rewrite E. cbn [String.eqb Ascii.eqb Bool.eqb andb].
    cbv iota.
    destruct (noSpectrum (clearRect s)) eqn:Hs.
    + unfold drawFrequencyBars3x. rewrite Hs. exact Hall.
    + rewrite raindrops_drawFrequencyBars3x by exact Hs.
      rewrite updateRaindropList_cycle. apply opaque_cycle.
      apply opaque_bars3xLoop. exact Hall.
  - destruct (draw_views Math_sqrt Math_sin Math_cos Math_PI Math_random now s)
      as (_ & Hrain & _).
    specialize (Hrain E). unfold rainStore in Hrain.
    injection Hrain as Hr _. now rewrite Hr.
Qed.

Lemma length_dataArray_conditionSpectrum input s :
  length (dataArray (conditionSpectrum input s)) = length (dataArray s).
Proof.
  unfold conditionSpectrum. destruct (0 <? _)%nat; [|reflexivity].
  change (length (getByteData (dataArray s) (timeDomainBytes input))
          = length (dataArray s)).
  apply length_getByteData.
Qed.

Lemma sessionInvariant_animate input s :
  sessionInvariant s -> sessionInvariant (animate Math_sqrt Math_sin Math_cos Math_PI Math_random input s).
Proof.
  intros Hinv. unfold animate.
  destruct (negb (isPlaying s) || negb (analyser s)); [exact Hinv|].
  destruct (_ && _).
  { apply (sessionInvariant_view s); [reflexivity|exact Hinv]. }
  apply (sessionInvariant_view
           (draw Math_sqrt Math_sin Math_cos Math_PI Math_random (now input)
              (conditionSpectrum input (set_lastFrameTime (timestamp input) s))));
    [reflexivity|].
  set (c := conditionSpectrum input (set_lastFrameTime (timestamp input) s)).
  destruct Hinv as (Hf & Hd & Hsm & Hb & Ht & Hi & Hr).
  assert (Hlen : (0 < length (frequencyData (set_lastFrameTime (timestamp input) s)))%nat).
  { change (length (frequencyData s) > 0)%nat. lia. }
  destruct (conditioner_aligns_buffers_lemma input
              (set_lastFrameTime (timestamp input) s) Hlen) as (L1 & L2 & L3).
  fold c in L1, L2, L3.
  change (frequencyData (set_lastFrameTime (timestamp input) s))
    with (frequencyData s) in L1, L2, L3.
  assert (Hc : sessionInvariant c).
  { unfold sessionInvariant. repeat apply conj.
    - lia.
    - unfold c. rewrite length_dataArray_conditionSpectrum. exact Hd.
    - lia.
    - intros boosted Hbo. rewrite Hbo in L2. cbn in L2. lia.
    - unfold c, conditionSpectrum. destruct (0 <? _)%nat; exact Ht.
    - unfold c, conditionSpectrum. destruct (0 <? _)%nat; exact Hi.
    - unfold c. rewrite raindrops_conditionSpectrum. exact Hr. }
  destruct (draw_views Math_sqrt Math_sin Math_cos Math_PI Math_random
              (now input) c) as (Hout & _).
  unfold outsideDrawing in Hout. injection Hout.
  intros _ _ _ _ _ _ _ Htf Hri _ _ _ _ Hbo Hsmo Hfd Hda _ _ _ _ _ _ _ _ _.
  destruct Hc as (C1 & C2 & C3 & C4 & C5 & C6 & C7).
  unfold sessionInvariant. rewrite Htf, Hri, Hbo, Hsmo, Hfd, Hda.
  repeat apply conj; try assumption.
  now apply opaque_draw.
Qed.

Lemma sessionView_setupCanvas w s :
  sessionView (setupCanvas w s) = sessionView s.
Proof.
  unfold setupCanvas. destruct (containerWidth w); [|reflexivity].
  destruct (Qle_bool (innerWidth w) 768); [|reflexivity].
  cbv zeta. destruct (_ || _); reflexivity.
Qed.

Lemma sessionView_startVisualization w s :
  sessionView (startVisualization w s) = sessionView s.
Proof.
  unfold startVisualization. destruct (animationId s); [reflexivity|].
  destruct (negb (analyser s)); [reflexivity|].
  cbv zeta. destruct (_ || _); [|reflexivity].
  change (sessionView (setupCanvas w s) = sessionView s).
  apply sessionView_setupCanvas.
Qed.

Lemma sessionView_stopVisualization s :
  sessionView (stopVisualization s) = sessionView s.
Proof. unfold stopVisualization. destruct (animationId s); reflexivity. Qed.

Lemma sessionView_onResize w s :
  sessionView (onResize w s) = sessionView s.
Proof.
  unfold onResize. cbv zeta. destruct (isFullscreen (setupCanvas w s)).
  - change (sessionView (setupCanvas w s) = sessionView s).
    apply sessionView_setupCanvas.
  - apply sessionView_setupCanvas.
Qed.

Lemma sessionView_stopScreenShare s :
  sessionView (stopScreenShare s) = sessionView s.
Proof.
  unfold stopScreenShare. cbv zeta. rewrite sessionView_stopVisualization.
  destruct (screenShare s); reflexivity.
Qed.

Lemma sessionInvariant_reset smoothed drops s :
  sessionInvariant s -> length smoothed = 128%nat ->
  Forall (fun r => Raindrop.alpha r <= 0.8) drops ->
  forall t,
    sessionView t
    = (frequencyData s, dataArray s, smoothed, boostedFrequencyData s,
       targetFPS s, raindropInterval s, drops) ->
    sessionInvariant t.
Proof.
  intros (Hf & Hd & Hsm & Hb & Ht & Hi & Hr) Hlen Hdrops t H.
  unfold sessionView in H. unfold sessionInvariant.
  injection H. intros -> -> -> -> -> -> ->.
  repeat apply conj; assumption.
Qed.

Lemma sessionInvariant_startMicrophone w n s :
  sessionInvariant s -> sessionInvariant (startMicrophone w n s).
Proof.
  intros Hinv. unfold startMicrophone, grantStream, newAudioContext.
  cbv beta iota zeta.
  apply (sessionInvariant_reset (Float32Array (length (frequencyData s)))
           (raindrops s) s);
    [exact Hinv| |exact (proj2 (proj2 (proj2 (proj2 (proj2 (proj2 Hinv))))))|].
  - unfold Float32Array. rewrite repeat_length. exact (proj1 Hinv).
  - rewrite sessionView_startVisualization. reflexivity.
Qed.

Lemma sessionInvariant_startScreenShare w n s :
  sessionInvariant s -> sessionInvariant (startScreenShare w n s).
Proof.
  intros Hinv. unfold startScreenShare, grantStream, newAudioContext.
  cbv beta iota zeta.
  apply (sessionInvariant_reset (Float32Array (length (frequencyData s)))
           (raindrops s) s);
    [exact Hinv| |exact (proj2 (proj2 (proj2 (proj2 (proj2 (proj2 Hinv))))))|].
  - unfold Float32Array. rewrite repeat_length. exact (proj1 Hinv).
  - rewrite sessionView_startVisualization. reflexivity.
Qed.

Lemma sessionInvariant_startMobileAudio w n s :
  sessionInvariant s -> sessionInvariant (startMobileAudio w n s).
Proof.
  intros Hinv. unfold startMobileAudio, grantStream, newAudioContext.
  cbv beta iota zeta.
  apply (sessionInvariant_view s); [|exact Hinv].
  rewrite sessionView_startVisualization. reflexivity.
Qed.

Lemma sessionInvariant_stopVisualizer s :
  sessionInvariant s -> sessionInvariant (stopVisualizer s).
Proof.
  intros Hinv.
  apply (sessionInvariant_reset (smoothedFrequencyData s) [] s);
    [exact Hinv|exact (proj1 (proj2 (proj2 Hinv)))|constructor|].
  destruct s as [ac an mic gn ip aid ss cw ch co da fd sm bo se vt fs rd lrt
                 ri brt tf lft lcs sp sz pcp fmh fkh ht hc hn hh hr].
  destruct aid, mic, ac, ss, fmh; reflexivity.
Qed.

Lemma sessionInvariant_step e s :
  sessionInvariant s -> sessionInvariant (step Math_sqrt Math_sin Math_cos Math_PI Math_random e s).
Proof.
  intros Hinv. destruct e; unfold step.
  - now apply sessionInvariant_startMicrophone.
  - now apply sessionInvariant_startScreenShare.
  - now apply sessionInvariant_startMobileAudio.
  - exact Hinv.
  - apply (sessionInvariant_view s); [apply sessionView_stopScreenShare|exact Hinv].
  - now apply sessionInvariant_stopVisualizer.
  - apply (sessionInvariant_view s); [reflexivity|exact Hinv].
  - apply (sessionInvariant_view s); [reflexivity|exact Hinv].
  - apply (sessionInvariant_view s); [apply sessionView_onResize|exact Hinv].
  - apply (sessionInvariant_view s); [reflexivity|exact Hinv].
  - apply (sessionInvariant_view s); [|exact Hinv].
    unfold exitFullscreen. cbv zeta. rewrite sessionView_setupCanvas. reflexivity.
  - apply (sessionInvariant_view s); [reflexivity|exact Hinv].
  - destruct (animationId s); [|exact Hinv].
    now apply sessionInvariant_animate.
Qed.

Lemma sessionInvariant_constructed : sessionInvariant constructed.
Proof.
  unfold sessionInvariant. repeat apply conj; try reflexivity.
  - intros boosted H. discriminate H.
  - constructor.
Qed.

(** X25.  Whatever the page, the window, the capture promises and the
    frame callback do after the constructor, in any order: the four
    buffers keep their 128 cells (no method replaces a buffer by one of
    another length),
    the frame rate target stays 45 and the raindrop interval 200, and no
    raindrop in the store is more opaque than a new one (alpha 0.8). *)
Theorem session_invariant (events : list Event) :
  sessionInvariant (run Math_sqrt Math_sin Math_cos Math_PI Math_random events constructed).
Proof.
  unfold run. generalize sessionInvariant_constructed.
  generalize constructed as s.
  induction events as [|e events IH]; intros s Hinv; simpl; [exact Hinv|].
  apply IH. now apply sessionInvariant_step.
Qed.

End Session.
